(** * Lowering of unranked HLO operations: the rewrite patterns and the
      programs they emit

    A shallow embedding of
    [tensorflow/compiler/mlir/hlo/lib/Dialect/mhlo/transforms/transform_unranked_hlo.cc].

    The C++ patterns build MLIR operations through a builder.  Here an SSA
    value is identified with the operation that defines it, so a rewrite
    pattern is a function from the matched operation to the value that
    replaces its result ([None] is [failure()]), and a region is the
    sequence of its side-effecting operations closed by its [scf.yield].
    The second half of the file gives the emitted operations their run-time
    meaning and relates the emitted programs to the operations they
    replace. *)

From Stdlib Require Import ZArith List String Bool Lia DecimalString.
Import ListNotations.
Local Open Scope Z_scope.
Local Set Warnings "-register-all".

(* ===================================================================== *)
(** ** Types and attributes of the host representation *)
(* ===================================================================== *)

Inductive Type_ : Type :=
| IndexType
| IntegerType (width : Z)
| FloatType (width : Z)
| RankedTensorType (shape : list Z) (elementType : Type_)
| UnrankedTensorType (elementType : Type_).

(** [ShapedType::kDynamicSize] *)
Definition kDynamicSize : Z := -1.

Definition I1Type : Type_ := IntegerType 1.

Definition isa_RankedTensorType (t : Type_) : bool :=
  match t with RankedTensorType _ _ => true | _ => false end.

Definition isa_UnrankedTensorType (t : Type_) : bool :=
  match t with UnrankedTensorType _ => true | _ => false end.

Definition isa_TensorType (t : Type_) : bool :=
  isa_RankedTensorType t || isa_UnrankedTensorType t.

(** [t.cast<ShapedType>().getElementType()]; the cast is only executed on
    tensor types, a type that is not shaped is returned as it is. *)
Definition getElementType (t : Type_) : Type_ :=
  match t with
  | RankedTensorType _ e | UnrankedTensorType e => e
  | _ => t
  end.

(** [RankedTensorType::getShape] *)
Definition getShape (t : Type_) : list Z :=
  match t with RankedTensorType s _ => s | _ => [] end.

(** [ArrayRef::empty] *)
Definition empty {A : Type} (l : list A) : bool :=
  match l with [] => true | _ => false end.

(** [shape::getExtentTensorType]: [tensor<?xindex>] *)
Definition getExtentTensorType : Type_ :=
  RankedTensorType [kDynamicSize] IndexType.

Inductive Attribute : Type :=
| UnitAttr
| IntegerAttr (value : Z)
| StringAttr (value : string)
| DenseIntElementsAttr (values : list Z).

Definition NamedAttribute : Type := (string * Attribute)%type.

(** Lookup of an attribute by name in an attribute list. *)
Fixpoint getAttr (attrs : list NamedAttribute) (name : string)
  : option Attribute :=
  match attrs with
  | [] => None
  | (n, a) :: rest => if String.eqb n name then Some a else getAttr rest name
  end.

(* ===================================================================== *)
(** ** Operation kinds *)
(* ===================================================================== *)

(** The kinds listed by [MAP_XLA_OPERATION_CWISE_UNARY] and
    [MAP_XLA_OPERATION_CWISE_BINARY], with [CompareOp] and [SelectOp]. *)
Module mhlo.
Inductive Op : Type :=
| AbsOp | CeilOp | ClzOp | ConvertOp | CosOp | ExpOp | Expm1Op | FloorOp
| ImagOp | IsFiniteOp | LogOp | Log1pOp | LogisticOp | NotOp | NegOp
| PopulationCountOp | RealOp | RoundOp | RsqrtOp | SignOp | SinOp | SqrtOp
| TanhOp
| AddOp | AndOp | Atan2Op | ComplexOp | DivOp | MaxOp | MinOp | MulOp
| OrOp | PowOp | RemOp | ShiftLeftOp | ShiftRightArithmeticOp
| ShiftRightLogicalOp | SubOp | XorOp
| CompareOp | SelectOp.
End mhlo.

(** The kinds listed by [MAP_CHLO_OPERATION_CWISE_UNARY] and
    [MAP_CHLO_OPERATION_CWISE_BINARY], and the broadcasting family.  The
    list behind [chlo::PopulateForBroadcastingBinaryOp] is declared in
    another file, so a member of it is given by its name. *)
Module chlo.
Inductive Op : Type :=
| AcosOp | AcoshOp | AsinOp | AsinhOp | AtanOp | AtanhOp | ConjOp | CoshOp
| DigammaOp | ErfOp | ErfcOp | IsInfOp | LgammaOp | SinhOp | TanOp
| PolygammaOp | ZetaOp
| BroadcastingBinaryOp (name : string)
| BroadcastSelectOp.
End chlo.

Inductive OpTy : Type :=
| Mhlo (o : mhlo.Op)
| Chlo (o : chlo.Op).

(** Whether operands of an operation of this kind are combined by
    broadcasting (the [chlo.broadcast_*] family) or must agree in shape. *)
Definition isBroadcasting (k : OpTy) : bool :=
  match k with
  | Chlo (chlo.BroadcastingBinaryOp _) | Chlo chlo.BroadcastSelectOp => true
  | _ => false
  end.

Inductive CmpIPredicate : Type := eq_ | sgt | uge.

(* ===================================================================== *)
(** ** Values, blocks and operations

    A [Value] is either a value that exists before the rewrite
    ([BlockArgument]), the null value of a default-constructed
    [mlir::Value], or the result of an operation.  Operations of the shape
    dialect and of the standard dialect carry no result type here: their
    results are extent tensors, [index] or [i1].  [HloOp] is an operation
    of one of the kinds above, created with [rewriter.create<OpTy>]. *)
(* ===================================================================== *)

Inductive Value : Type :=
| NullValue
| BlockArgument (n : nat) (ty : Type_)
(* shape dialect *)
| ShapeOfOp (arg : Value)
| AnyOp (inputs : list Value)
| BroadcastOp (shapes : list Value)
| ShapeEqOp (lhs rhs : Value)
| NumElementsOp (shape : Value)
| RankOp (shape : Value)
| ConstShapeOp (ty : Type_) (shape : list Z)
(* chlo.minimum_broadcast_shapes, result number [result] *)
| MinimumBroadcastShapesOp (shapes : list Value) (result : nat)
(* tensor dialect *)
| FromElementsOp (element : Value)
| CastOp (ty : Type_) (source : Value)
(* mhlo.dynamic_reshape *)
| DynamicReshapeOp (ty : Type_) (operand output_shape : Value)
(* standard dialect *)
| ConstantIndexOp (value : Z)
| AddIOp (lhs rhs : Value)
| CmpIOp (predicate : CmpIPredicate) (lhs rhs : Value)
| SelectOp (condition true_value false_value : Value)
| AndOp (lhs rhs : Value)
(* scf.if with a then and an else region, result 0 *)
| IfOp (ty : Type_) (condition : Value) (thenRegion elseRegion : Block)
(* an elementwise or broadcasting operation *)
| HloOp (kind : OpTy) (ty : Type_) (operands : list Value)
        (attrs : list NamedAttribute)
with Block : Type :=
| YieldOp (result : Value)
| AssertOp (arg : Value) (msg : string) (rest : Block).

Fixpoint getType (v : Value) : Type_ :=
  match v with
  | NullValue => IndexType
  | BlockArgument _ ty => ty
  | ShapeOfOp _ | AnyOp _ | BroadcastOp _
  | MinimumBroadcastShapesOp _ _ => getExtentTensorType
  | FromElementsOp _ => RankedTensorType [1] IndexType
  | ShapeEqOp _ _ | CmpIOp _ _ _ | AndOp _ _ => I1Type
  | NumElementsOp _ | RankOp _ | ConstantIndexOp _ | AddIOp _ _ => IndexType
  | SelectOp _ a _ => getType a
  | ConstShapeOp ty _ | CastOp ty _ | DynamicReshapeOp ty _ _
  | IfOp ty _ _ _ | HloOp _ ty _ _ => ty
  end.

(** The operation a pattern is offered: its operands, its attribute map and
    the type of its result.  Its kind is the pattern's template argument. *)
Record Operation : Type := mkOperation {
  getOperands : list Value;
  getAttrs : list NamedAttribute;
  getResultType : Type_
}.

(** The matched operation as a value of the representation. *)
Definition opResult (kind : OpTy) (op : Operation) : Value :=
  HloOp kind (getResultType op) (getOperands op) (getAttrs op).

(* ===================================================================== *)
(** ** [ElementwiseOpConversion<OpTy>::matchAndRewrite] *)
(* ===================================================================== *)

Definition ElementwiseOpConversion (OpTy_ : OpTy) (op : Operation)
  : option Value :=
  (* Only apply conversion if at least one operand is unranked. *)
  if negb (existsb (fun operand => isa_UnrankedTensorType (getType operand))
                   (getOperands op))
  then None
  else
    (* Get operands' shape. *)
    let operandShapes := map ShapeOfOp (getOperands op) in
    let shape :=
      match operandShapes with
      | [front] => front
      | _ => AnyOp operandShapes
      end in
    (* Derive flat shape. *)
    let numElements := NumElementsOp shape in
    let flatShape := FromElementsOp numElements in
    (* Flatten operands. *)
    let flatOperands :=
      map (fun operand =>
             let operandElementTy := getElementType (getType operand) in
             let flatTy := RankedTensorType [kDynamicSize] operandElementTy in
             DynamicReshapeOp flatTy operand flatShape)
          (getOperands op) in
    (* Apply operation to flattened operands. *)
    let resultElementTy := getElementType (getResultType op) in
    let flatResultTy := RankedTensorType [kDynamicSize] resultElementTy in
    let flatResult := HloOp OpTy_ flatResultTy flatOperands (getAttrs op) in
    (* Restore original shape. *)
    Some (DynamicReshapeOp (getResultType op) flatResult shape).

(* ===================================================================== *)
(** ** [ConvertUnrankedScalarDynamicBroadcastBinaryOp::matchAndRewrite] *)
(* ===================================================================== *)

Definition ConvertUnrankedScalarDynamicBroadcastBinaryOp
  (ChloOpTy : OpTy) (op : Operation) (lhs rhs : Value) : option Value :=
  let lhs_ranked_type := isa_RankedTensorType (getType lhs) in
  let lhs_unranked_type := isa_UnrankedTensorType (getType lhs) in
  let rhs_ranked_type := isa_RankedTensorType (getType rhs) in
  let rhs_unranked_type := isa_UnrankedTensorType (getType rhs) in
  let lhs_is_scalar :=
    lhs_ranked_type && empty (getShape (getType lhs))
    && rhs_unranked_type in
  let rhs_is_scalar :=
    rhs_ranked_type && empty (getShape (getType rhs))
    && lhs_unranked_type in
  (* Only support the case where exactly one operand is scalar and the
     other is unranked. *)
  if negb (xorb lhs_is_scalar rhs_is_scalar) then None
  else
    let scalar_element_type :=
      if lhs_is_scalar then getElementType (getType lhs)
      else getElementType (getType rhs) in
    let result_type := getResultType op in
    let result_element_type := getElementType result_type in
    (* Reshape the non-scalar value into a dynamically sized, rank-1
       tensor. *)
    let shape := ShapeOfOp (if lhs_is_scalar then rhs else lhs) in
    let num_elements := NumElementsOp shape in
    let size_tensor := FromElementsOp num_elements in
    let reshaped :=
      DynamicReshapeOp (RankedTensorType [kDynamicSize] scalar_element_type)
                       (if lhs_is_scalar then rhs else lhs) size_tensor in
    (* Create a new ranked Chlo op. *)
    let new_operands := [if lhs_is_scalar then lhs else reshaped;
                         if rhs_is_scalar then rhs else reshaped] in
    let computed :=
      HloOp ChloOpTy (RankedTensorType [kDynamicSize] result_element_type)
            new_operands (getAttrs op) in
    (* Reshape the result back into an unranked tensor. *)
    Some (DynamicReshapeOp result_type computed shape).

(** The pattern as the driver calls it: [transformed.lhs()] and
    [transformed.rhs()] are operands 0 and 1. *)
Definition ScalarBroadcast_matchAndRewrite (ChloOpTy : OpTy) (op : Operation)
  : option Value :=
  ConvertUnrankedScalarDynamicBroadcastBinaryOp ChloOpTy op
    (nth 0 (getOperands op) NullValue) (nth 1 (getOperands op) NullValue).

(* ===================================================================== *)
(** ** [ConvertUnrankedDynamicBroadcastNaryOp] *)
(* ===================================================================== *)

(** The [Adaptor] template argument: how the non-broadcasting operation is
    created from the broadcasting one. *)
Record Adaptor : Type := mkAdaptor {
  CreateOp : Operation -> Type_ -> list Value -> Value
}.

(** Modelled from the spec: [chlo::HloNaryElementwiseAdaptor::CreateOp] is
    declared in a header outside this file.  The spec has the branch "apply
    the operation directly without any reshape": the adaptor creates the
    operation of the non-broadcasting kind on the operands it is given, with
    the result type it is given. *)
Definition HloNaryElementwiseAdaptor (HloOpTy : OpTy) : Adaptor :=
  mkAdaptor (fun from_op result_type broadcasted_operands =>
               HloOp HloOpTy result_type broadcasted_operands []).

(** [std::to_string] on an [int] *)
Definition to_string (n : Z) : string := NilZero.string_of_int (Z.to_int n).

Section ConvertUnrankedDynamicBroadcastNaryOp.

Variables (ChloOpTy HloOpTy : OpTy) (Adaptor_ : Adaptor).

(** Returns the dynamic result of checking the given value is effectively
    a scalar shape (i.e. the number of elements is 1). *)
Definition IsSingleElementShape (shape_of_tensor : Value) : Value :=
  let num_elements := NumElementsOp shape_of_tensor in
  CmpIOp eq_ num_elements (ConstantIndexOp 1).

Definition extendToBroadcastShape (result_type : Type_) (value : Value)
  (shapes : list Value) : Value :=
  let broadcast_shape := BroadcastOp shapes in
  DynamicReshapeOp result_type value broadcast_shape.

Definition GreaterRankIsN (actual_rank : Value) (targeted_rank : Z)
  : Value :=
  CmpIOp eq_ actual_rank (ConstantIndexOp targeted_rank).

(** The [scf.if] is created with empty regions which the caller fills
    through its then and else builders; here it takes them as arguments. *)
Definition createIfOpForRankSpecializedBroadcastAndOp (op : Operation)
  (actual_rank : Value) (targeted_rank : Z)
  (thenRegion elseRegion : Block) : Value :=
  let greater_rank_is_n := GreaterRankIsN actual_rank targeted_rank in
  IfOp (getResultType op) greater_rank_is_n thenRegion elseRegion.

Definition createBroadcastToKnownRank (shape : Value) (targeted_rank : Z)
  : Value :=
  let ranked_shape := repeat 1 (Z.to_nat targeted_rank) in
  let known_rank_extent_tensor_type :=
    RankedTensorType [targeted_rank] IndexType in
  let ranked_shape_val :=
    ConstShapeOp known_rank_extent_tensor_type ranked_shape in
  let extended_value := BroadcastOp [shape; ranked_shape_val] in
  CastOp known_rank_extent_tensor_type extended_value.

(** Create the code for a broadcasting op with a result of a given rank:
    the contents of the block the builder points into, closed by the
    yield. *)
Definition createRankSpecializedBroadcastAndOp (op : Operation)
  (operands operand_shapes : list Value) (targeted_rank : Z) : Block :=
  let dynamic_dimensions := repeat kDynamicSize (Z.to_nat targeted_rank) in
  let reshaped_operands :=
    map (fun it : Value * Value =>
           let (operand, shape) := it in
           (* Handle shape broadcasting and inference. *)
           let extended_operand_casted :=
             createBroadcastToKnownRank shape targeted_rank in
           let reshaped_type :=
             RankedTensorType dynamic_dimensions
                              (getElementType (getType operand)) in
           DynamicReshapeOp reshaped_type operand extended_operand_casted)
        (combine operands operand_shapes) in
  let result_element_type := getElementType (getResultType op) in
  let result_type :=
    RankedTensorType dynamic_dimensions result_element_type in
  let result := HloOp ChloOpTy result_type reshaped_operands (getAttrs op) in
  let reshaped_result :=
    CastOp (UnrankedTensorType result_element_type) result in
  YieldOp reshaped_result.

Section HandleBroadcastAndOp.

Variables (op : Operation) (operands : list Value).

(** Get the minimum broadcast shapes of the operands. *)
Definition HandleBroadcastAndOp_shapes : list Value :=
  map ShapeOfOp operands.

Definition HandleBroadcastAndOp_broadcast_shape : Value :=
  BroadcastOp HandleBroadcastAndOp_shapes.

(** One result of [chlo.minimum_broadcast_shapes] per shape. *)
Definition reduced_shapes : list Value :=
  map (fun i => MinimumBroadcastShapesOp HandleBroadcastAndOp_shapes i)
      (seq 0 (List.length HandleBroadcastAndOp_shapes)).

Definition HandleBroadcastAndOp_reshaped_operands : list Value :=
  map (fun it : Value * Value =>
         let (operand, reduced_shape) := it in
         DynamicReshapeOp (getType operand) operand reduced_shape)
      (combine operands reduced_shapes).

(** Find the largest rank of the operands. *)
Definition greater_rank : Value :=
  fold_left
    (fun greater_rank shape =>
       let rank := RankOp shape in
       match greater_rank with
       | NullValue => rank
       | _ =>
           let greater_rank_compare := CmpIOp sgt greater_rank rank in
           SelectOp greater_rank_compare greater_rank rank
       end)
    reduced_shapes NullValue.

(** Tensorflow supports up to rank 8 for SelectOp (currently the only op
    with arity > 2 that we support), but only up to rank 5 for binary
    ops. *)
Definition kMaxRankSpecialization : Z :=
  if (2 <? List.length operands)%nat then 8 else 5.

Definition rank_specialization (targeted_rank : Z) : Block :=
  createRankSpecializedBroadcastAndOp
    op HandleBroadcastAndOp_reshaped_operands reduced_shapes targeted_rank.

(** The contents of the block [else_builder] points into, when the loop
    [for (int i = 2; i < kMaxRankSpecialization; i++)] has [n] more
    iterations to run from [i]: each iteration puts the next [scf.if]
    and the yield of its result there and moves [else_builder] to the
    else region of that [scf.if]; after the loop the block receives the
    assertion and the last specialization. *)
Fixpoint else_block (n : nat) (i : Z) : Block :=
  match n with
  | S n' =>
      let inner_if :=
        createIfOpForRankSpecializedBroadcastAndOp
          op greater_rank i (rank_specialization i)
          (else_block n' (i + 1)) in
      YieldOp inner_if
  | O =>
      (* Fire an assertion if none of the rank specializations applied. *)
      AssertOp
        (GreaterRankIsN greater_rank kMaxRankSpecialization)
        ("Input for dynamic binary op lowering was of a rank greater than "
           ++ to_string kMaxRankSpecialization)
        (rank_specialization kMaxRankSpecialization)
  end.

(** Generate a list of nested if/else statements to handle rank
    specializations from 1 to [kMaxRankSpecialization]. *)
Definition HandleBroadcastAndOp_if_op : Value :=
  createIfOpForRankSpecializedBroadcastAndOp
    op greater_rank 1 (rank_specialization 1)
    (else_block (Z.to_nat (kMaxRankSpecialization - 2)) 2).

(** Return the reshaped result of the outermost if statement. *)
Definition HandleBroadcastAndOp : Value :=
  let result := HandleBroadcastAndOp_if_op in
  DynamicReshapeOp (getType result) result
                   HandleBroadcastAndOp_broadcast_shape.

End HandleBroadcastAndOp.

Section matchAndRewrite.

Variable op : Operation.

Definition transformed_operands : list Value := getOperands op.
Definition num_operands : nat := List.length transformed_operands.
Definition result_type : Type_ := getResultType op.

Definition shapes : list Value :=
  map ShapeOfOp transformed_operands.

(** If at most one shape does not have exactly one element *)
Definition one : Value := ConstantIndexOp 1.

Definition counter : Value :=
  fold_left
    (fun counter shape =>
       let is_scalar_like := IsSingleElementShape shape in
       let counter_plus_one := AddIOp counter one in
       SelectOp is_scalar_like counter_plus_one counter)
    shapes (ConstantIndexOp 0).

Definition num_operands_minus_one : Value :=
  ConstantIndexOp (Z.of_nat num_operands - 1).

Definition at_most_one_non_scalar : Value :=
  CmpIOp uge counter num_operands_minus_one.

Definition reshaped_operands : list Value :=
  map (fun it : Value * Value =>
         let (operand, shape) := it in
         let num_elements := NumElementsOp shape in
         let size_tensor := FromElementsOp num_elements in
         DynamicReshapeOp
           (RankedTensorType [kDynamicSize]
                             (getElementType (getType operand)))
           operand size_tensor)
      (combine transformed_operands shapes).

Definition rank_one_result_type : Type_ :=
  RankedTensorType [kDynamicSize] (getElementType result_type).

Definition if_at_most_one_non_scalar_result : Value :=
  HloOp ChloOpTy rank_one_result_type reshaped_operands (getAttrs op).

Definition extended_result : Value :=
  extendToBroadcastShape result_type if_at_most_one_non_scalar_result
                         shapes.

(** See if all shapes are equal. *)
Definition equal_shapes : Value :=
  fold_left
    (fun equal_shapes shape_i =>
       let are_equal := ShapeEqOp (nth 0 shapes NullValue) shape_i in
       AndOp equal_shapes are_equal)
    (skipn 2 shapes)
    (ShapeEqOp (nth 0 shapes NullValue) (nth 1 shapes NullValue)).

Definition non_broadcast_op : Value :=
  CreateOp Adaptor_ op result_type transformed_operands.

Definition if_eq_shapes_op : Value :=
  IfOp result_type equal_shapes
       (YieldOp non_broadcast_op)
       (YieldOp (HandleBroadcastAndOp op transformed_operands)).

Definition if_op : Value :=
  IfOp result_type at_most_one_non_scalar
       (YieldOp extended_result)
       (YieldOp if_eq_shapes_op).

Definition matchAndRewrite : option Value :=
  if negb (forallb (fun operand => isa_TensorType (getType operand))
                   transformed_operands)
  then None
  else if negb (existsb (fun operand =>
                           isa_UnrankedTensorType (getType operand))
                        transformed_operands)
  then None
  else Some if_op.

End matchAndRewrite.

End ConvertUnrankedDynamicBroadcastNaryOp.

(* ===================================================================== *)
(** ** Run-time meaning of the emitted operations

    The operations the patterns emit belong to dialects defined outside
    this file; their meaning below follows the dialects' documentation.  A
    run of an emitted program yields a value ([Ok]), aborts on a failed
    [assert] with its message ([Abort]), or has no defined behaviour
    ([Undefined]: a reshape that changes the number of elements, shapes
    that do not broadcast, a cast to a type the value does not have).
    Apart from [assert] the operations have no side effect, so a value is
    computed from the operations it depends on, the operands of an
    operation from left to right, and of an [scf.if] only the region its
    condition selects is run.  Values of type [index] are 64-bit integers;
    the number of elements of a shape is taken without wrap-around, a
    tensor that exists at run time having fewer than 2^63 elements.

    What an operation kind computes on the elements ([apply_elem]) and the
    function computed by [chlo.minimum_broadcast_shapes] are parameters. *)
(* ===================================================================== *)

Inductive Res (A : Type) : Type :=
| Ok (a : A)
| Abort (msg : string)
| Undefined.

Arguments Ok {A} a.
Arguments Abort {A} msg.
Arguments Undefined {A}.

Definition bind {A B : Type} (c : Res A) (k : A -> Res B) : Res B :=
  match c with
  | Ok a => k a
  | Abort msg => Abort msg
  | Undefined => Undefined
  end.

Notation "x <- c ;; k" := (bind c (fun x => k))
  (at level 61, c at next level, right associativity).

Section mapM.
Context {A B : Type} (f : A -> Res B).

Fixpoint mapM (l : list A) : Res (list B) :=
  match l with
  | [] => Ok []
  | x :: l' => y <- f x ;; ys <- mapM l' ;; Ok (y :: ys)
  end.
End mapM.

(** *** Shapes *)

(** [shape.num_elements] *)
Definition numel (s : list Z) : Z := fold_right Z.mul 1 s.

Fixpoint shape_eqb (a b : list Z) : bool :=
  match a, b with
  | [], [] => true
  | x :: a', y :: b' => (x =? y) && shape_eqb a' b'
  | _, _ => false
  end.

(** [shape.any]: the operands are assumed to be equal shapes; the result
    is undefined when they differ. *)
Definition shape_any (ss : list (list Z)) : Res (list Z) :=
  match ss with
  | [] => Undefined
  | s :: rest => if forallb (shape_eqb s) rest then Ok s else Undefined
  end.

(** Broadcasting of two extents: an extent of 1 stretches to the other. *)
Definition broadcast_dim (a b : Z) : option Z :=
  if a =? 1 then Some b
  else if b =? 1 then Some a
  else if a =? b then Some a
  else None.

(** Broadcasting of two shapes given minor dimension first. *)
Fixpoint broadcast_rev (a b : list Z) : option (list Z) :=
  match a, b with
  | [], _ => Some b
  | _, [] => Some a
  | x :: a', y :: b' =>
      match broadcast_dim x y, broadcast_rev a' b' with
      | Some d, Some r => Some (d :: r)
      | _, _ => None
      end
  end.

(** Right-aligned broadcasting of two shapes. *)
Definition broadcast2 (a b : list Z) : option (list Z) :=
  option_map (@rev Z) (broadcast_rev (rev a) (rev b)).

(** One more shape joins the broadcast of the shapes before it. *)
Definition broadcast_step (acc : option (list Z)) (s : list Z)
  : option (list Z) :=
  match acc with
  | Some a => broadcast2 a s
  | None => None
  end.

(** [shape.broadcast] on any number of shapes. *)
Definition broadcast_shapes (ss : list (list Z)) : option (list Z) :=
  fold_left broadcast_step ss (Some []).

(** The row-major position in a tensor of shape [src] that is read for the
    row-major position [k] of the tensor of shape [tgt] it is broadcast to;
    both shapes are given minor dimension first. *)
Fixpoint source_index (src tgt : list Z) (k : Z) : Z :=
  match src, tgt with
  | s :: src', t :: tgt' =>
      (if s =? 1 then 0 else k mod t) + s * source_index src' tgt' (k / t)
  | _, _ => 0
  end.

(** *** Index arithmetic: [index] is a 64-bit integer *)

Definition wrap_index (z : Z) : Z := (z + 2 ^ 63) mod 2 ^ 64 - 2 ^ 63.

Definition unsigned_index (z : Z) : Z := z mod 2 ^ 64.

Definition cmpi (p : CmpIPredicate) (a b : Z) : bool :=
  match p with
  | eq_ => a =? b
  | sgt => a >? b
  | uge => unsigned_index a >=? unsigned_index b
  end.

(** *** Conformance of a run-time shape to a static type *)

Definition dim_conforms (d s : Z) : bool := (d =? kDynamicSize) || (d =? s).

Fixpoint shape_conforms (ty s : list Z) : bool :=
  match ty, s with
  | [], [] => true
  | d :: ty', x :: s' => dim_conforms d x && shape_conforms ty' s'
  | _, _ => false
  end.

(** Whether a tensor type accepts a tensor of run-time shape [s]. *)
Definition accepts (ty : Type_) (s : list Z) : bool :=
  match ty with
  | UnrankedTensorType _ => true
  | RankedTensorType sh _ => shape_conforms sh s
  | _ => false
  end.

(** *** Positions in a tensor *)

(** The row-major position of the element with index [idx] in a tensor of
    shape [shape], continuing from the position [acc] reached in the
    dimensions before. *)
Fixpoint linear_index (shape idx : list Z) (acc : Z) : Z :=
  match shape, idx with
  | d :: shape', i :: idx' => linear_index shape' idx' (acc * d + i)
  | _, _ => acc
  end.

(** [idx] is an index into a tensor of shape [shape]. *)
Definition in_bounds (shape idx : list Z) : Prop :=
  Forall2 (fun d i => 0 <= i < d) shape idx.

Section Semantics.

(** Element values, and what each operation kind computes from the
    elements of its operands at one position. *)
Variable E : Type.
Variable dflt : E.
Variable apply_elem : OpTy -> list NamedAttribute -> list E -> E.

(** The function computed by [chlo.minimum_broadcast_shapes]. *)
Variable minimum_broadcast_shapes : list (list Z) -> list (list Z).

(** A tensor: its shape and its elements in row-major order. *)
Record Tensor : Type := mkTensor { dims : list Z; elems : list E }.

Inductive RtVal : Type :=
| VTensor (t : Tensor)
| VExtents (s : list Z)
| VIndex (n : Z)
| VBool (b : bool).

Definition conforms (ty : Type_) (v : RtVal) : bool :=
  match v with
  | VTensor t => accepts ty (dims t)
  | VExtents s => accepts ty [Z.of_nat (List.length s)]
  | VIndex _ => match ty with IndexType => true | _ => false end
  | VBool _ => match ty with IntegerType _ => true | _ => false end
  end.

Definition checked (ty : Type_) (v : RtVal) : Res RtVal :=
  if conforms ty v then Ok v else Undefined.

Definition as_tensor (r : Res RtVal) : Res Tensor :=
  v <- r ;; match v with VTensor t => Ok t | _ => Undefined end.

Definition as_extents (r : Res RtVal) : Res (list Z) :=
  v <- r ;; match v with VExtents s => Ok s | _ => Undefined end.

Definition as_index (r : Res RtVal) : Res Z :=
  v <- r ;; match v with VIndex n => Ok n | _ => Undefined end.

Definition as_bool (r : Res RtVal) : Res bool :=
  v <- r ;; match v with VBool b => Ok b | _ => Undefined end.

(** A tensor seen as a tensor of rank 1. *)
Definition flatten (t : Tensor) : Tensor :=
  mkTensor [numel (dims t)] (elems t).

(** [mhlo.dynamic_reshape]: the elements keep their row-major order. *)
Definition dynamic_reshape (t : Tensor) (s : list Z) : Res Tensor :=
  if numel s =? numel (dims t) then Ok (mkTensor s (elems t))
  else Undefined.

(** The elements of the operands that meet at row-major position [k] of
    a result of shape [tgt]. *)
Definition gather (ts : list Tensor) (tgt : list Z) (k : nat) : list E :=
  map (fun t =>
         nth (Z.to_nat (source_index (rev (dims t)) (rev tgt) (Z.of_nat k)))
             (elems t) dflt) ts.

(** The element of a tensor at an index. *)
Definition tensor_at (t : Tensor) (idx : list Z) : E :=
  nth (Z.to_nat (linear_index (dims t) idx 0)) (elems t) dflt.

(** The elements of the result of an elementwise operation on [n]
    positions. *)
Definition elementwise_elems (kind : OpTy) (attrs : list NamedAttribute)
  (ts : list Tensor) (n : Z) : list E :=
  map (fun k => apply_elem kind attrs
                  (map (fun t => nth k (elems t) dflt) ts))
      (seq 0 (Z.to_nat n)).

(** The elements of the result of a broadcasting operation whose result
    has shape [tgt]. *)
Definition broadcasting_elems (kind : OpTy) (attrs : list NamedAttribute)
  (ts : list Tensor) (tgt : list Z) : list E :=
  map (fun k => apply_elem kind attrs (gather ts tgt k))
      (seq 0 (Z.to_nat (numel tgt))).

(** An operation of the broadcasting family on ranked operands. *)
Definition apply_broadcasting (kind : OpTy) (attrs : list NamedAttribute)
  (ts : list Tensor) : Res Tensor :=
  match broadcast_shapes (map dims ts) with
  | Some tgt => Ok (mkTensor tgt (broadcasting_elems kind attrs ts tgt))
  | None => Undefined
  end.

(** An elementwise operation: all operands have the shape of the
    result. *)
Definition apply_elementwise (kind : OpTy) (attrs : list NamedAttribute)
  (ts : list Tensor) : Res Tensor :=
  s <- shape_any (map dims ts) ;;
  Ok (mkTensor s (elementwise_elems kind attrs ts (numel s))).

Definition apply_op (kind : OpTy) (attrs : list NamedAttribute)
  (ts : list Tensor) : Res Tensor :=
  if isBroadcasting kind then apply_broadcasting kind attrs ts
  else apply_elementwise kind attrs ts.

(** What the scalar-like fast path computes from the operand tensors:
    the operation on the flattened operands, reshaped to the broadcast
    of the operands' shapes. *)
Definition fast_path_A_value (kind : OpTy) (attrs : list NamedAttribute)
  (result_type : Type_) (ts : list Tensor) : Res RtVal :=
  r <- apply_broadcasting kind attrs (map flatten ts) ;;
  match broadcast_shapes (map dims ts) with
  | Some s =>
      r' <- dynamic_reshape r s ;; checked result_type (VTensor r')
  | None => Undefined
  end.

(** The values of the block arguments. *)
Variable env : nat -> option RtVal.

Fixpoint eval (v : Value) : Res RtVal :=
  match v with
  | NullValue => Undefined
  | BlockArgument n _ =>
      match env n with Some x => Ok x | None => Undefined end
  | ShapeOfOp arg =>
      t <- as_tensor (eval arg) ;; Ok (VExtents (dims t))
  | AnyOp inputs =>
      ss <- mapM (fun x => as_extents (eval x)) inputs ;;
      s <- shape_any ss ;; Ok (VExtents s)
  | BroadcastOp shapes =>
      ss <- mapM (fun x => as_extents (eval x)) shapes ;;
      match broadcast_shapes ss with
      | Some s => Ok (VExtents s)
      | None => Undefined
      end
  | ShapeEqOp lhs rhs =>
      a <- as_extents (eval lhs) ;; b <- as_extents (eval rhs) ;;
      Ok (VBool (shape_eqb a b))
  | NumElementsOp shape =>
      s <- as_extents (eval shape) ;; Ok (VIndex (numel s))
  | RankOp shape =>
      s <- as_extents (eval shape) ;; Ok (VIndex (Z.of_nat (List.length s)))
  | ConstShapeOp ty shape => checked ty (VExtents shape)
  | MinimumBroadcastShapesOp shapes result =>
      ss <- mapM (fun x => as_extents (eval x)) shapes ;;
      match nth_error (minimum_broadcast_shapes ss) result with
      | Some s => Ok (VExtents s)
      | None => Undefined
      end
  | FromElementsOp element =>
      n <- as_index (eval element) ;; Ok (VExtents [n])
  | CastOp ty source =>
      x <- eval source ;; checked ty x
  | DynamicReshapeOp ty operand output_shape =>
      t <- as_tensor (eval operand) ;;
      s <- as_extents (eval output_shape) ;;
      r <- dynamic_reshape t s ;;
      checked ty (VTensor r)
  | ConstantIndexOp value => Ok (VIndex (wrap_index value))
  | AddIOp lhs rhs =>
      a <- as_index (eval lhs) ;; b <- as_index (eval rhs) ;;
      Ok (VIndex (wrap_index (a + b)))
  | CmpIOp predicate lhs rhs =>
      a <- as_index (eval lhs) ;; b <- as_index (eval rhs) ;;
      Ok (VBool (cmpi predicate a b))
  | SelectOp condition true_value false_value =>
      c <- as_bool (eval condition) ;;
      a <- eval true_value ;; b <- eval false_value ;;
      Ok (if c then a else b)
  | AndOp lhs rhs =>
      a <- as_bool (eval lhs) ;; b <- as_bool (eval rhs) ;;
      Ok (VBool (a && b))
  | IfOp _ condition thenRegion elseRegion =>
      c <- as_bool (eval condition) ;;
      if c then eval_block thenRegion else eval_block elseRegion
  | HloOp kind ty operands attrs =>
      ts <- mapM (fun x => as_tensor (eval x)) operands ;;
      r <- apply_op kind attrs ts ;;
      checked ty (VTensor r)
  end
with eval_block (b : Block) : Res RtVal :=
  match b with
  | YieldOp result => eval result
  | AssertOp arg msg rest =>
      c <- as_bool (eval arg) ;;
      if c then eval_block rest else Abort msg
  end.

(** The operands [xs] have the tensors [ts] as their run-time values. *)
Definition operands_are (xs : list Value) (ts : list Tensor) : Prop :=
  Forall2 (fun x t => eval x = Ok (VTensor t)) xs ts.

End Semantics.

Arguments mkTensor {E} dims elems.
Arguments dims {E} t.
Arguments elems {E} t.
Arguments VTensor {E} t.
Arguments VExtents {E} s.
Arguments VIndex {E} n.
Arguments VBool {E} b.
Arguments as_tensor {E} r.
Arguments as_extents {E} r.
Arguments as_index {E} r.
Arguments as_bool {E} r.
Arguments conforms {E} ty v.
Arguments checked {E} ty v.
Arguments dynamic_reshape {E} t s.
Arguments tensor_at {E} dflt t idx.
Arguments flatten {E} t.

(* ===================================================================== *)
(** ** Reading the emitted programs *)
(* ===================================================================== *)

(** The chain of conditionals found by following else regions: every
    [scf.if] contributes its condition and its then region, and the block
    that ends the chain contributes the condition of its assertion and the
    operations after it. *)
Fixpoint else_chain (b : Block) : list (Value * Block) :=
  match b with
  | YieldOp (IfOp _ c th el) => (c, th) :: else_chain el
  | YieldOp _ => []
  | AssertOp c _ body => [(c, body)]
  end.

Definition rank_ladder (if_op : Value) : list (Value * Block) :=
  else_chain (YieldOp if_op).

(** The test for the candidate rank [r] and the branch under it. *)
Definition guarded_branch (ChloOpTy : OpTy) (op : Operation)
  (operands : list Value) (r : Z) : Value * Block :=
  (GreaterRankIsN (greater_rank operands) r,
   rank_specialization ChloOpTy op operands r).

(** The message of the assertion for the operands [operands]. *)
Definition rank_assertion_message (operands : list Value) : string :=
  ("Input for dynamic binary op lowering was of a rank greater than "
     ++ to_string (kMaxRankSpecialization operands))%string.

(** The message of the assertion that ends the chain. *)
Fixpoint else_chain_assertion (b : Block) : option string :=
  match b with
  | YieldOp (IfOp _ _ _ el) => else_chain_assertion el
  | YieldOp _ => None
  | AssertOp _ msg _ => Some msg
  end.

(** The operation whose type-erased result a branch yields. *)
Definition specialized_op (b : Block) : option Value :=
  match b with
  | YieldOp (CastOp _ core) => Some core
  | _ => None
  end.

(** The rank a value has by its static type. *)
Definition static_rank (v : Value) : option Z :=
  match getType v with
  | RankedTensorType s _ => Some (Z.of_nat (List.length s))
  | _ => None
  end.

Definition branch_rank (b : Block) : option Z :=
  match specialized_op b with
  | Some core => static_rank core
  | None => None
  end.

Definition hlo_operands (v : Value) : list Value :=
  match v with
  | HloOp _ _ xs _ => xs
  | _ => []
  end.

Definition reshape_operand (v : Value) : option Value :=
  match v with
  | DynamicReshapeOp _ x _ => Some x
  | _ => None
  end.

Definition reshape_output_shape (v : Value) : option Value :=
  match v with
  | DynamicReshapeOp _ _ s => Some s
  | _ => None
  end.

Definition if_condition (v : Value) : option Value :=
  match v with IfOp _ c _ _ => Some c | _ => None end.

Definition if_then (v : Value) : option Block :=
  match v with IfOp _ _ th _ => Some th | _ => None end.

Definition if_else (v : Value) : option Block :=
  match v with IfOp _ _ _ el => Some el | _ => None end.

Definition yielded (b : Block) : option Value :=
  match b with YieldOp v => Some v | AssertOp _ _ _ => None end.

(** Whether an [mhlo.dynamic_reshape] is among the operations a value is
    computed from. *)
Fixpoint reaches_reshape (v : Value) : bool :=
  match v with
  | DynamicReshapeOp _ _ _ => true
  | NullValue | BlockArgument _ _ | ConstShapeOp _ _ | ConstantIndexOp _ =>
      false
  | ShapeOfOp a | NumElementsOp a | RankOp a | FromElementsOp a
  | CastOp _ a => reaches_reshape a
  | AnyOp l | BroadcastOp l | MinimumBroadcastShapesOp l _
  | HloOp _ _ l _ => existsb reaches_reshape l
  | ShapeEqOp a b | AddIOp a b | CmpIOp _ a b | AndOp a b =>
      reaches_reshape a || reaches_reshape b
  | SelectOp c a b =>
      reaches_reshape c || reaches_reshape a || reaches_reshape b
  | IfOp _ c th el =>
      reaches_reshape c || reaches_reshape_block th
      || reaches_reshape_block el
  end
with reaches_reshape_block (b : Block) : bool :=
  match b with
  | YieldOp v => reaches_reshape v
  | AssertOp c _ rest => reaches_reshape c || reaches_reshape_block rest
  end.

(** The candidate ranks [1 .. M]. *)
Definition ranks_up_to (M : Z) : list Z :=
  map Z.of_nat (seq 1 (Z.to_nat M)).

(** *** The conditions of the patterns in the words of their description *)

Definition is_rank0_ranked_tensor (t : Type_) : Prop :=
  exists e, t = RankedTensorType [] e.

Definition is_unranked_tensor (t : Type_) : Prop :=
  exists e, t = UnrankedTensorType e.

(** [a] is a rank-0 ranked tensor and [b] is unranked. *)
Definition scalar_against_unranked (a b : Value) : Prop :=
  is_rank0_ranked_tensor (getType a) /\ is_unranked_tensor (getType b).

(** The number of shapes that have exactly one element. *)
Definition count_single_element (ss : list (list Z)) : Z :=
  Z.of_nat (List.length (filter (fun s => numel s =? 1) ss)).

(** The largest rank among shapes. *)
Definition max_rank (ss : list (list Z)) : Z :=
  fold_right Z.max 0 (map (fun s => Z.of_nat (List.length s)) ss).

(** A shape extended to rank [r] by leading extents of 1. *)
Definition pad_shape (r : Z) (s : list Z) : list Z :=
  repeat 1 (Z.to_nat r - List.length s) ++ s.

(** *** What the rewrite relies on from [chlo.minimum_broadcast_shapes]

    The minimized shapes [rs] of the shapes [ss] keep the number of
    elements of every operand, broadcast to a shape with as many elements
    as the shape [ss] broadcast to, and every position of that result reads
    the same row-major position of each operand as before. *)

Fixpoint forallb2 {A B : Type} (f : A -> B -> bool) (l : list A)
  (l' : list B) : bool :=
  match l, l' with
  | [], [] => true
  | a :: l, b :: l' => f a b && forallb2 f l l'
  | _, _ => false
  end.

Definition same_broadcast_positions (s r T T' : list Z) : bool :=
  forallb (fun k => source_index (rev r) (rev T') (Z.of_nat k)
                    =? source_index (rev s) (rev T) (Z.of_nat k))
          (seq 0 (Z.to_nat (numel T))).

Definition minimized_correctly (ss rs : list (list Z)) : bool :=
  forallb2 (fun s r => numel r =? numel s) ss rs
  && match broadcast_shapes ss with
     | None => true
     | Some T =>
         match broadcast_shapes rs with
         | None => false
         | Some T' =>
             (numel T' =? numel T)
             && forallb2 (fun s r => same_broadcast_positions s r T T') ss rs
         end
     end.

(** The operands as a branch of the ladder sees them: operand [i] with the
    shape [reds_i] extended to rank [r], and its elements in their order. *)
Definition rank_r_operands {E : Type} (r : Z) (ts : list (Tensor E))
  (reds : list (list Z)) : list (Tensor E) :=
  map (fun p => mkTensor (pad_shape r (snd p)) (elems (fst p)))
      (combine ts reds).

(** *** Attributes of a created operation *)

Definition same_attributes (a b : list NamedAttribute) : Prop :=
  forall name, getAttr a name = getAttr b name.

(** [v] is an operation of kind [kind] that carries the attributes
    [attrs]. *)
Definition created_with (kind : OpTy) (attrs : list NamedAttribute)
  (v : Value) : Prop :=
  match v with
  | HloOp k _ _ a => k = kind /\ a = attrs /\ same_attributes a attrs
  | _ => False
  end.

(** The operation whose reshaped result a block yields. *)
Definition yielded_reshape_operand (b : Block) : option Value :=
  match b with
  | YieldOp (DynamicReshapeOp _ core _) => Some core
  | _ => None
  end.

(* ===================================================================== *)
(** ** Sample instances, used in the examples *)
(* ===================================================================== *)

(** The number of leading extents of 1 of a shape. *)
Fixpoint count_leading_ones (s : list Z) : nat :=
  match s with
  | d :: s' => if d =? 1 then S (count_leading_ones s') else O
  | [] => O
  end.

(** The number of leading dimensions, of the shapes aligned at their last
    dimension, in which every shape has extent 1 or no dimension. *)
Definition shared_leading_ones (ss : list (list Z)) : nat :=
  let r := max_rank ss in
  fold_right Nat.min (Z.to_nat r)
             (map (fun s => count_leading_ones (pad_shape r s)) ss).

(** Modelled from the spec: [chlo.minimum_broadcast_shapes] is defined in
    another file of the repository.  The spec has it as "a
    shape-minimization step eliminating degenerate leading dimensions
    shared across operands": with the shapes aligned at their last
    dimension, the leading dimensions in which every operand has extent 1,
    or no dimension, are dropped from every shape. *)
Definition minimum_broadcast_shapes_model (ss : list (list Z))
  : list (list Z) :=
  let r := Z.to_nat (max_rank ss) in
  let k := shared_leading_ones ss in
  map (fun s => skipn (k - (r - List.length s)) s) ss.

(** Elements are integers; [select] chooses by its first operand, every
    other kind adds its operands. *)
Definition sample_apply_elem (kind : OpTy) (attrs : list NamedAttribute)
  (xs : list Z) : Z :=
  match kind, xs with
  | Chlo chlo.BroadcastSelectOp, [c; a; b]
  | Mhlo mhlo.SelectOp, [c; a; b] => if c =? 0 then b else a
  | _, _ => fold_right Z.add 0 xs
  end.

(** Block argument [n] holds the [n]-th tensor. *)
Definition sample_env (ts : list (Tensor Z)) (n : nat) : option (RtVal Z) :=
  option_map VTensor (nth_error ts n).

Definition sample_eval (ts : list (Tensor Z)) (v : Value) : Res (RtVal Z) :=
  eval Z 0 sample_apply_elem minimum_broadcast_shapes_model (sample_env ts) v.

Definition f32 : Type_ := FloatType 32.

Definition unranked_f32 : Type_ := UnrankedTensorType f32.

(** A binary operation on two unranked operands. *)
Definition sample_binary_op : Operation :=
  mkOperation [BlockArgument 0 unranked_f32; BlockArgument 1 unranked_f32]
              [("broadcast_dimensions"%string, DenseIntElementsAttr [])]
              unranked_f32.

(** A binary operation whose left operand is a ranked scalar. *)
Definition sample_scalar_op : Operation :=
  mkOperation [BlockArgument 0 (RankedTensorType [] f32);
               BlockArgument 1 unranked_f32]
              [] unranked_f32.

(** A ternary operation on unranked operands. *)
Definition sample_select_op : Operation :=
  mkOperation [BlockArgument 0 unranked_f32; BlockArgument 1 unranked_f32;
               BlockArgument 2 unranked_f32]
              [] unranked_f32.

Definition broadcast_add : OpTy := Chlo (chlo.BroadcastingBinaryOp "add").

Definition select_adaptor : Adaptor :=
  HloNaryElementwiseAdaptor (Mhlo mhlo.SelectOp).

Definition add_adaptor : Adaptor :=
  HloNaryElementwiseAdaptor (Mhlo mhlo.AddOp).

(** The value a pattern puts in place of the operation, [NullValue] when
    it does not match. *)
Definition rewritten_or_null (r : option Value) : Value :=
  match r with Some v => v | None => NullValue end.

Definition sample_flattened_add : Value :=
  rewritten_or_null (ElementwiseOpConversion (Mhlo mhlo.AddOp)
                                             sample_binary_op).

Definition sample_scalar_add : Value :=
  rewritten_or_null (ScalarBroadcast_matchAndRewrite broadcast_add
                                                     sample_scalar_op).

Definition sample_nary_add : Value :=
  rewritten_or_null (matchAndRewrite broadcast_add add_adaptor
                                     sample_binary_op).

Definition sample_nary_select : Value :=
  rewritten_or_null (matchAndRewrite (Chlo chlo.BroadcastSelectOp)
                                     select_adaptor sample_select_op).

(** Operand tensors for the examples. *)
Definition tensors_2x3 : list (Tensor Z) :=
  [mkTensor [2; 3] [1; 2; 3; 4; 5; 6];
   mkTensor [2; 3] [10; 20; 30; 40; 50; 60]].

Definition tensors_3_and_1 : list (Tensor Z) :=
  [mkTensor [3] [1; 2; 3]; mkTensor [1] [10]].

Definition tensors_scalar_and_2x2 : list (Tensor Z) :=
  [mkTensor [] [7]; mkTensor [2; 2] [10; 20; 30; 40]].

Definition tensors_select : list (Tensor Z) :=
  [mkTensor [2] [1; 0];
   mkTensor [3; 2] [1; 2; 3; 4; 5; 6];
   mkTensor [3; 2] [10; 20; 30; 40; 50; 60]].

(** Two shapes of rank 6 without a shared leading extent of 1. *)
Definition tensors_rank_6 : list (Tensor Z) :=
  [mkTensor [2; 1; 2; 1; 2; 1] [1; 2; 3; 4; 5; 6; 7; 8];
   mkTensor [1; 2; 1; 2; 1; 2] [10; 20; 30; 40; 50; 60; 70; 80]].

(* ===================================================================== *)
(** ** Legality and the pattern set: [AddLegalOpOnRankedTensor],
       [TransformUnrankedHloPass::runOnFunction] and
       [PopulateTransformUnrankedHloPatterns] *)
(* ===================================================================== *)

Definition mhlo_Op_eq_dec (a b : mhlo.Op) : {a = b} + {a <> b}.
Proof. decide equality. Defined.

Definition chlo_Op_eq_dec (a b : chlo.Op) : {a = b} + {a <> b}.
Proof. decide equality. apply string_dec. Defined.

Definition OpTy_eq_dec (a b : OpTy) : {a = b} + {a <> b}.
Proof.
  decide equality; [apply mhlo_Op_eq_dec | apply chlo_Op_eq_dec].
Defined.

Definition OpTy_eqb (a b : OpTy) : bool :=
  if OpTy_eq_dec a b then true else false.

Inductive Dialect : Type :=
| HloClientDialect | MhloDialect | StandardOpsDialect | ShapeDialect
| SCFDialect | TensorDialect.

Definition Dialect_eqb (a b : Dialect) : bool :=
  match a, b with
  | HloClientDialect, HloClientDialect | MhloDialect, MhloDialect
  | StandardOpsDialect, StandardOpsDialect | ShapeDialect, ShapeDialect
  | SCFDialect, SCFDialect | TensorDialect, TensorDialect => true
  | _, _ => false
  end.

Definition getDialect (k : OpTy) : Dialect :=
  match k with
  | Mhlo _ => MhloDialect
  | Chlo _ => HloClientDialect
  end.

(** [op->getOperandTypes()] *)
Definition getOperandTypes (op : Operation) : list Type_ :=
  map getType (getOperands op).

(** The conversion target.  [ConversionTarget] belongs to the conversion
    framework, outside this file; its meaning below follows the
    framework's documentation: the target records the action set for an
    operation kind and the action set for a dialect, an action set later
    replaces the one set before (the entries are kept newest first), and
    the action of a kind is looked up before the action of its
    dialect. *)
Inductive LegalizationAction : Type :=
| Legal
| Dynamic (callback : Operation -> bool).

Record ConversionTarget : Type := mkConversionTarget {
  legalOperations : list (OpTy * LegalizationAction);
  legalDialects : list (Dialect * LegalizationAction)
}.

Definition addLegalDialect (ds : list Dialect) (target : ConversionTarget)
  : ConversionTarget :=
  mkConversionTarget (legalOperations target)
    (rev (map (fun d => (d, Legal)) ds) ++ legalDialects target).

Definition addDynamicallyLegalOp (k : OpTy) (callback : Operation -> bool)
  (target : ConversionTarget) : ConversionTarget :=
  mkConversionTarget ((k, Dynamic callback) :: legalOperations target)
                     (legalDialects target).

Definition addDynamicallyLegalDialect (d : Dialect)
  (callback : Operation -> bool) (target : ConversionTarget)
  : ConversionTarget :=
  mkConversionTarget (legalOperations target)
                     ((d, Dynamic callback) :: legalDialects target).

Definition getOpAction (target : ConversionTarget) (k : OpTy)
  : option LegalizationAction :=
  match find (fun e => OpTy_eqb (fst e) k) (legalOperations target) with
  | Some e => Some (snd e)
  | None =>
      match find (fun e => Dialect_eqb (fst e) (getDialect k))
                 (legalDialects target) with
      | Some e => Some (snd e)
      | None => None
      end
  end.

(** Whether the target holds an operation of kind [k] legal; [None] when
    it has no action for it. *)
Definition isLegal (target : ConversionTarget) (k : OpTy) (op : Operation)
  : option bool :=
  match getOpAction target k with
  | Some Legal => Some true
  | Some (Dynamic callback) => Some (callback op)
  | None => None
  end.

Definition AddLegalOpOnRankedTensor (OpTy_ : OpTy)
  (target : ConversionTarget) : ConversionTarget :=
  addDynamicallyLegalOp OpTy_
    (fun op => forallb (fun t => isa_RankedTensorType t)
                       (getOperandTypes op))
    target.

Definition MAP_XLA_OPERATION_CWISE_UNARY : list mhlo.Op :=
  [mhlo.AbsOp; mhlo.CeilOp; mhlo.ClzOp; mhlo.ConvertOp; mhlo.CosOp;
   mhlo.ExpOp; mhlo.Expm1Op; mhlo.FloorOp; mhlo.ImagOp; mhlo.IsFiniteOp;
   mhlo.LogOp; mhlo.Log1pOp; mhlo.LogisticOp; mhlo.NotOp; mhlo.NegOp;
   mhlo.PopulationCountOp; mhlo.RealOp; mhlo.RoundOp; mhlo.RsqrtOp;
   mhlo.SignOp; mhlo.SinOp; mhlo.SqrtOp; mhlo.TanhOp].

Definition MAP_XLA_OPERATION_CWISE_BINARY : list mhlo.Op :=
  [mhlo.AddOp; mhlo.AndOp; mhlo.Atan2Op; mhlo.ComplexOp; mhlo.DivOp;
   mhlo.MaxOp; mhlo.MinOp; mhlo.MulOp; mhlo.OrOp; mhlo.PowOp; mhlo.RemOp;
   mhlo.ShiftLeftOp; mhlo.ShiftRightArithmeticOp; mhlo.ShiftRightLogicalOp;
   mhlo.SubOp; mhlo.XorOp].

Definition MAP_CHLO_OPERATION_CWISE_UNARY : list chlo.Op :=
  [chlo.AcosOp; chlo.AcoshOp; chlo.AsinOp; chlo.AsinhOp; chlo.AtanOp;
   chlo.AtanhOp; chlo.ConjOp; chlo.CoshOp; chlo.DigammaOp; chlo.ErfOp;
   chlo.ErfcOp; chlo.IsInfOp; chlo.LgammaOp; chlo.SinhOp; chlo.TanOp].

Definition MAP_CHLO_OPERATION_CWISE_BINARY : list chlo.Op :=
  [chlo.PolygammaOp; chlo.ZetaOp].

(** The conversion target [runOnFunction] sets up.  [FuncOp] and the
    operations of the other dialects are not among the kinds [OpTy]. *)
Definition runOnFunction_target : ConversionTarget :=
  let target := mkConversionTarget [] [] in
  let target :=
    addLegalDialect [HloClientDialect; MhloDialect; StandardOpsDialect;
                     ShapeDialect; SCFDialect; TensorDialect] target in
  let target :=
    fold_left (fun t o => AddLegalOpOnRankedTensor (Mhlo o) t)
              MAP_XLA_OPERATION_CWISE_UNARY target in
  let target :=
    fold_left (fun t o => AddLegalOpOnRankedTensor (Mhlo o) t)
              MAP_XLA_OPERATION_CWISE_BINARY target in
  let target :=
    fold_left (fun t o => AddLegalOpOnRankedTensor (Chlo o) t)
              MAP_CHLO_OPERATION_CWISE_UNARY target in
  let target := AddLegalOpOnRankedTensor (Mhlo mhlo.CompareOp) target in
  let target := AddLegalOpOnRankedTensor (Mhlo mhlo.SelectOp) target in
  addDynamicallyLegalDialect HloClientDialect
    (fun op => negb (existsb (fun type => isa_UnrankedTensorType type)
                             (getOperandTypes op)))
    target.

(** A pattern: the kind of operation it is offered and its rewrite. *)
Definition RewritePattern : Type := (OpTy * (Operation -> option Value))%type.

(** [PopulateTransformUnrankedHloPatterns].  The list of broadcasting
    binary operations that [chlo::PopulateForBroadcastingBinaryOp]
    instantiates a pattern for, each with its non-broadcasting kind and its
    adaptor, is declared in another file and is the argument
    [binary_ops]. *)
Definition PopulateTransformUnrankedHloPatterns
  (binary_ops : list (OpTy * OpTy * Adaptor)) : list RewritePattern :=
  map (fun o => (Mhlo o, ElementwiseOpConversion (Mhlo o)))
      MAP_XLA_OPERATION_CWISE_UNARY
  ++ map (fun o => (Mhlo o, ElementwiseOpConversion (Mhlo o)))
         MAP_XLA_OPERATION_CWISE_BINARY
  ++ map (fun o => (Chlo o, ElementwiseOpConversion (Chlo o)))
         MAP_CHLO_OPERATION_CWISE_UNARY
  ++ map (fun o => (Chlo o, ElementwiseOpConversion (Chlo o)))
         MAP_CHLO_OPERATION_CWISE_BINARY
  ++ [(Mhlo mhlo.CompareOp, ElementwiseOpConversion (Mhlo mhlo.CompareOp));
      (Mhlo mhlo.SelectOp, ElementwiseOpConversion (Mhlo mhlo.SelectOp))]
  ++ map (fun b : OpTy * OpTy * Adaptor =>
            let '(ChloOpTy, _, Adaptor_) := b in
            (ChloOpTy, matchAndRewrite ChloOpTy Adaptor_))
         binary_ops
  ++ [(Chlo chlo.BroadcastSelectOp,
       matchAndRewrite (Chlo chlo.BroadcastSelectOp)
                       (HloNaryElementwiseAdaptor (Mhlo mhlo.SelectOp)))]
  ++ map (fun b : OpTy * OpTy * Adaptor =>
            let '(ChloOpTy, _, _) := b in
            (ChloOpTy, ScalarBroadcast_matchAndRewrite ChloOpTy))
         binary_ops.

(** The kinds [runOnFunction] calls [AddLegalOpOnRankedTensor] for. *)
Definition legal_on_ranked_tensor (k : OpTy) : bool :=
  match k with
  | Mhlo o =>
      existsb (fun o' => if mhlo_Op_eq_dec o' o then true else false)
              (MAP_XLA_OPERATION_CWISE_UNARY ++ MAP_XLA_OPERATION_CWISE_BINARY
               ++ [mhlo.CompareOp; mhlo.SelectOp])
  | Chlo c =>
      existsb (fun c' => if chlo_Op_eq_dec c' c then true else false)
              MAP_CHLO_OPERATION_CWISE_UNARY
  end.

(** An operation the patterns create, as the operation the driver
    legalizes next. *)
Definition operation_of (v : Value) : option Operation :=
  match v with
  | HloOp _ ty xs attrs => Some (mkOperation xs attrs ty)
  | _ => None
  end.

Definition all_operands_ranked (op : Operation) : bool :=
  forallb isa_RankedTensorType (getOperandTypes op).

(** Some operand has an unranked tensor type. *)
Definition some_operand_unranked (op : Operation) : bool :=
  existsb isa_UnrankedTensorType (getOperandTypes op).

(** The extents of a shape are not negative. *)
Definition valid_shape (s : list Z) : Prop := Forall (fun d => 0 <= d) s.

(** *** The conditionals of the ladder *)

(** The [scf.if] operations found by following else regions. *)
Fixpoint else_chain_conditionals (b : Block) : list Value :=
  match b with
  | YieldOp (IfOp ty c th el) =>
      IfOp ty c th el :: else_chain_conditionals el
  | YieldOp _ => []
  | AssertOp _ _ _ => []
  end.

Definition ladder_conditionals (if_op : Value) : list Value :=
  else_chain_conditionals (YieldOp if_op).

(** The value the [scf.yield] that ends a block yields. *)
Fixpoint block_yield (b : Block) : option Value :=
  match b with
  | YieldOp v => Some v
  | AssertOp _ _ rest => block_yield rest
  end.

(** Both regions of an [scf.if] yield a value of the type of the
    [scf.if]. *)
Definition regions_yield_own_type (v : Value) : Prop :=
  match v with
  | IfOp ty _ th el =>
      (exists a, block_yield th = Some a /\ getType a = ty)
      /\ (exists b, block_yield el = Some b /\ getType b = ty)
  | _ => False
  end.

(** *** Further sample instances *)

(** The patterns for one broadcasting binary operation. *)
Definition sample_binary_ops : list (OpTy * OpTy * Adaptor) :=
  [(broadcast_add, Mhlo mhlo.AddOp, add_adaptor)].

(** A binary operation whose left operand is ranked with three dynamic
    extents. *)
Definition sample_ranked_op : Operation :=
  mkOperation [BlockArgument 0 (RankedTensorType
                                  [kDynamicSize; kDynamicSize; kDynamicSize]
                                  f32);
               BlockArgument 1 unranked_f32]
              [] unranked_f32.

(** Shapes [1,2,3] and [1,1,3], which share a leading extent of 1. *)
Definition tensors_1x2x3 : list (Tensor Z) :=
  [mkTensor [1; 2; 3] [1; 2; 3; 4; 5; 6];
   mkTensor [1; 1; 3] [10; 20; 30]].

(** Two tensors of one element each. *)
Definition tensors_single_elements : list (Tensor Z) :=
  [mkTensor [1] [5]; mkTensor [1; 1] [7]].

(* ===================================================================== *)
(** ** Properties of the emitted programs: their structure *)
(* ===================================================================== *)

Lemma kMaxRankSpecialization_cases (operands : list Value) :
  kMaxRankSpecialization operands
  = if (2 <? List.length operands)%nat then 8 else 5.
Proof. reflexivity. Qed.

Section Ladder.
Variables (ChloOpTy : OpTy) (op : Operation) (operands : list Value).

Lemma else_chain_else_block (n : nat) (i : Z) :
  else_chain (else_block ChloOpTy op operands n i)
  = map (guarded_branch ChloOpTy op operands)
        (map (fun j => i + Z.of_nat j) (seq 0 n))
    ++ [guarded_branch ChloOpTy op operands
          (kMaxRankSpecialization operands)].
Proof.
  revert i. induction n as [|n IH]; intro i.
  - reflexivity.
  - cbn [else_block else_chain createIfOpForRankSpecializedBroadcastAndOp].
    rewrite IH. cbn [seq map app]. rewrite Z.add_0_r. f_equal. f_equal.
    rewrite <- seq_shift, !map_map. apply map_ext. intro j. f_equal. lia.
Qed.

Lemma rank_ladder_if_op :
  rank_ladder (HandleBroadcastAndOp_if_op ChloOpTy op operands)
  = map (guarded_branch ChloOpTy op operands)
        (ranks_up_to (kMaxRankSpecialization operands)).
Proof.
  unfold rank_ladder, HandleBroadcastAndOp_if_op.
  cbn [else_chain createIfOpForRankSpecializedBroadcastAndOp].
  rewrite else_chain_else_block.
  rewrite kMaxRankSpecialization_cases.
  destruct (2 <? List.length operands)%nat; reflexivity.
Qed.
End Ladder.

(** C3: the ladder has one branch per candidate rank 1, 2, ..., M, in this
    order, where M is 8 for an operation with more than two operands and 5
    otherwise; the branch for rank r applies the operation at static rank
    r. *)
Theorem rank_ladder_branches :
  forall (ChloOpTy : OpTy) (op : Operation) (operands : list Value),
    let M := if (2 <? List.length operands)%nat then 8 else 5 in
    let ladder :=
      rank_ladder (HandleBroadcastAndOp_if_op ChloOpTy op operands) in
    kMaxRankSpecialization operands = M
    /\ map snd ladder
       = map (rank_specialization ChloOpTy op operands) (ranks_up_to M)
    /\ map (fun gb => branch_rank (snd gb)) ladder = map Some (ranks_up_to M)
    /\ List.length ladder = Z.to_nat M.
Proof.
  intros K op operands M ladder. subst M ladder.
  rewrite rank_ladder_if_op, kMaxRankSpecialization_cases.
  destruct (2 <? List.length operands)%nat; repeat split; reflexivity.
Qed.

(** *** The condition of the scalar pattern *)

Lemma is_scalar_spec (a b : Value) :
  isa_RankedTensorType (getType a) && empty (getShape (getType a))
  && isa_UnrankedTensorType (getType b) = true
  <-> scalar_against_unranked a b.
Proof.
  unfold scalar_against_unranked, is_rank0_ranked_tensor, is_unranked_tensor.
  destruct (getType a) as [| | |sa ea|ea]; cbn;
    try (split; [discriminate|intros [[e He] _]; discriminate]).
  destruct sa as [|d sa]; cbn.
  - destruct (getType b) as [| | |sb eb|eb]; cbn;
      try (split; [discriminate|intros [_ [e He]]; discriminate]).
    split; [|reflexivity]. intros _. split; eauto.
  - split; [discriminate|intros [[e He] _]; discriminate].
Qed.

Lemma not_both_scalar (a b : Value) :
  scalar_against_unranked a b -> scalar_against_unranked b a -> False.
Proof.
  intros [[e He] _] [_ [e' He']]. congruence.
Qed.

(** C7: the scalar pattern rewrites the operation exactly when one operand
    is a ranked tensor of rank 0 and the other is unranked, for one of the
    two orders and not for the other; when the condition holds for both
    orders or for neither, the pattern returns failure. *)
Theorem scalar_broadcast_match_condition :
  forall (ChloOpTy : OpTy) (op : Operation) (lhs rhs : Value),
    let P := scalar_against_unranked lhs rhs in
    let Q := scalar_against_unranked rhs lhs in
    (ConvertUnrankedScalarDynamicBroadcastBinaryOp ChloOpTy op lhs rhs <> None
     <-> (P /\ ~ Q) \/ (Q /\ ~ P))
    /\ ((P /\ Q) \/ (~ P /\ ~ Q) ->
        ConvertUnrankedScalarDynamicBroadcastBinaryOp ChloOpTy op lhs rhs
        = None).
Proof.
  intros K op lhs rhs P Q.
  pose proof (is_scalar_spec lhs rhs) as HP.
  pose proof (is_scalar_spec rhs lhs) as HQ. fold P in HP. fold Q in HQ.
  unfold ConvertUnrankedScalarDynamicBroadcastBinaryOp.
  destruct (isa_RankedTensorType (getType lhs)
            && empty (getShape (getType lhs))
            && isa_UnrankedTensorType (getType rhs)) eqn:Hl;
    destruct (isa_RankedTensorType (getType rhs)
              && empty (getShape (getType rhs))
              && isa_UnrankedTensorType (getType lhs)) eqn:Hr;
    cbn [xorb negb].
  - exfalso. apply (not_both_scalar lhs rhs); [now apply HP|now apply HQ].
  - assert (HnQ : ~ Q) by (intro HQ'; apply HQ in HQ'; discriminate).
    split.
    + split; [intros _; left; split; [now apply HP|exact HnQ]|discriminate].
    + intros [[_ HQ'] | [HnP _]]; [now destruct HnQ|].
      destruct HnP. now apply HP.
  - assert (HnP : ~ P) by (intro HP'; apply HP in HP'; discriminate).
    split.
    + split; [intros _; right; split; [now apply HQ|exact HnP]|discriminate].
    + intros [[HP' _] | [_ HnQ]]; [now destruct HnP|].
      destruct HnQ. now apply HQ.
  - assert (HnP : ~ P) by (intro HP'; apply HP in HP'; discriminate).
    assert (HnQ : ~ Q) by (intro HQ'; apply HQ in HQ'; discriminate).
    split; [|reflexivity].
    split; [congruence|]. intros [[HP' _] | [HQ' _]]; contradiction.
Qed.

(** *** Attributes *)

Lemma created_with_refl (kind : OpTy) (ty : Type_) (xs : list Value)
  (attrs : list NamedAttribute) :
  created_with kind attrs (HloOp kind ty xs attrs).
Proof. cbn. repeat split. Qed.

(** C10: the operation each pattern creates in place of the matched one
    (on the flattened operands, on the scalar and the rank-1 operand, on
    the rank-1 operands of the fast path, and in every branch of the
    ladder) has the kind of the matched operation and its attributes:
    every attribute name has the same value on both. *)
Theorem created_operations_carry_attributes :
  (forall (OpTy_ : OpTy) (op : Operation),
      match ElementwiseOpConversion OpTy_ op with
      | Some rewritten =>
          exists flatResult,
            reshape_operand rewritten = Some flatResult
            /\ created_with OpTy_ (getAttrs op) flatResult
      | None => True
      end)
  /\ (forall (ChloOpTy : OpTy) (op : Operation) (lhs rhs : Value),
         match ConvertUnrankedScalarDynamicBroadcastBinaryOp
                 ChloOpTy op lhs rhs with
         | Some rewritten =>
             exists computed,
               reshape_operand rewritten = Some computed
               /\ created_with ChloOpTy (getAttrs op) computed
         | None => True
         end)
  /\ (forall (ChloOpTy : OpTy) (Adaptor_ : Adaptor) (op : Operation),
         match matchAndRewrite ChloOpTy Adaptor_ op with
         | Some rewritten =>
             (exists th rank_one,
                 if_then rewritten = Some th
                 /\ yielded_reshape_operand th = Some rank_one
                 /\ created_with ChloOpTy (getAttrs op) rank_one)
             /\ (exists el inner el' ladder_result,
                    if_else rewritten = Some el
                    /\ yielded el = Some inner
                    /\ if_else inner = Some el'
                    /\ yielded el' = Some ladder_result
                    /\ reshape_operand ladder_result
                       = Some (HandleBroadcastAndOp_if_op
                                 ChloOpTy op (getOperands op)))
         | None => True
         end)
  /\ (forall (ChloOpTy : OpTy) (op : Operation) (operands : list Value),
         Forall (fun gb =>
                   exists result,
                     specialized_op (snd gb) = Some result
                     /\ created_with ChloOpTy (getAttrs op) result)
                (rank_ladder
                   (HandleBroadcastAndOp_if_op ChloOpTy op operands))).
Proof.
  split; [|split; [|split]].
  - intros K op. unfold ElementwiseOpConversion.
    destruct (negb _); [exact I|].
    eexists. split; [reflexivity|]. apply created_with_refl.
  - intros K op lhs rhs.
    unfold ConvertUnrankedScalarDynamicBroadcastBinaryOp.
    destruct (negb _); [exact I|].
    eexists. split; [reflexivity|]. apply created_with_refl.
  - intros K A op. unfold matchAndRewrite.
    destruct (negb _); [exact I|]. destruct (negb _); [exact I|].
    split.
    + do 2 eexists. split; [reflexivity|]. split; [reflexivity|].
      apply created_with_refl.
    + do 4 eexists. repeat split.
  - intros K op operands. rewrite rank_ladder_if_op.
    apply Forall_map, Forall_forall. intros r _. cbn [snd].
    eexists. split; [reflexivity|]. apply created_with_refl.
Qed.

Lemma mapM_Forall2 {A B : Type} (f : A -> Res B) (xs : list A) (ys : list B) :
  Forall2 (fun x y => f x = Ok y) xs ys -> mapM f xs = Ok ys.
Proof.
  induction 1 as [|x y xs ys Hxy _ IH]; cbn [mapM].
  - reflexivity.
  - rewrite Hxy, IH. reflexivity.
Qed.

Lemma mapM_map {A B C : Type} (f : B -> Res C) (g : A -> B) (xs : list A) :
  mapM f (map g xs) = mapM (fun x => f (g x)) xs.
Proof.
  induction xs as [|x xs IH]; cbn [mapM map]; [reflexivity|].
  rewrite IH. reflexivity.
Qed.

Lemma shape_eqb_refl (s : list Z) : shape_eqb s s = true.
Proof.
  induction s as [|x s IH]; cbn; [reflexivity|].
  rewrite Z.eqb_refl, IH. reflexivity.
Qed.

Lemma shape_eqb_eq (a b : list Z) : shape_eqb a b = true <-> a = b.
Proof.
  revert b. induction a as [|x a IH]; intros [|y b]; cbn; split;
    try congruence; try reflexivity.
  - intro H. apply andb_true_iff in H as [Hx Hr].
    apply Z.eqb_eq in Hx. apply IH in Hr. congruence.
  - intro H. injection H as -> ->. rewrite Z.eqb_refl. now apply IH.
Qed.

Lemma shape_any_Ok (ss : list (list Z)) (s : list Z) :
  shape_any ss = Ok s <-> ss <> [] /\ Forall (eq s) ss.
Proof.
  destruct ss as [|s0 rest]; cbn.
  - split; [discriminate|]. intros [H _]. congruence.
  - destruct (forallb (shape_eqb s0) rest) eqn:Hall; split.
    + intro H. injection H as <-. split; [discriminate|].
      constructor; [reflexivity|].
      apply Forall_forall. intros x Hx.
      rewrite forallb_forall in Hall. now apply shape_eqb_eq, Hall.
    + reflexivity || (intros [_ H]; inversion H; congruence).
    + discriminate.
    + intros [_ H]. inversion H as [|? ? Heq Hrest]; subst.
      assert (forallb (shape_eqb s0) rest = true); [|congruence].
      apply forallb_forall. intros x Hx. apply shape_eqb_eq.
      rewrite Forall_forall in Hrest. now apply Hrest.
Qed.

Lemma shape_any_repeat (s : list Z) (n : nat) :
  shape_any (repeat s (S n)) = Ok s.
Proof.
  apply shape_any_Ok. split; [discriminate|].
  apply Forall_forall. intros x Hx. apply repeat_spec in Hx. congruence.
Qed.

Lemma numel_singleton (n : Z) : numel [n] = n.
Proof. cbn. lia. Qed.

(* ===================================================================== *)
(** ** Properties of the emitted programs: their run-time values *)
(* ===================================================================== *)

(* ===================================================================== *)
(** ** The conversion target and the pattern set *)
(* ===================================================================== *)

Lemma existsb_getOperandTypes (f : Type_ -> bool) (op : Operation) :
  existsb f (getOperandTypes op)
  = existsb (fun operand => f (getType operand)) (getOperands op).
Proof.
  unfold getOperandTypes.
  induction (getOperands op) as [|x xs IH]; cbn; [reflexivity|].
  now rewrite IH.
Qed.

Lemma forallb_getOperandTypes (f : Type_ -> bool) (op : Operation) :
  forallb f (getOperandTypes op)
  = forallb (fun operand => f (getType operand)) (getOperands op).
Proof.
  unfold getOperandTypes.
  induction (getOperands op) as [|x xs IH]; cbn; [reflexivity|].
  now rewrite IH.
Qed.

Lemma unranked_not_ranked (op : Operation) :
  some_operand_unranked op = true -> all_operands_ranked op = false.
Proof.
  unfold some_operand_unranked, all_operands_ranked.
  induction (getOperandTypes op) as [|t ts IH]; cbn; [discriminate|].
  intro H. apply orb_true_iff in H as [H | H].
  - destruct t; try discriminate H. reflexivity.
  - rewrite (IH H). apply andb_false_r.
Qed.

Lemma tensors_not_ranked_unranked (op : Operation) :
  forallb isa_TensorType (getOperandTypes op) = true ->
  all_operands_ranked op = false -> some_operand_unranked op = true.
Proof.
  unfold some_operand_unranked, all_operands_ranked.
  induction (getOperandTypes op) as [|t ts IH]; cbn; [discriminate|].
  intros Ht Hr. apply andb_true_iff in Ht as [Ht Hts].
  destruct (isa_UnrankedTensorType t) eqn:Hu; [reflexivity|].
  cbn. apply IH; [exact Hts|].
  unfold isa_TensorType in Ht. rewrite Hu, orb_false_r in Ht.
  rewrite Ht in Hr. exact Hr.
Qed.

Lemma isLegal_runOnFunction_target (k : OpTy) (op : Operation) :
  isLegal runOnFunction_target k op
  = Some (if legal_on_ranked_tensor k
          then all_operands_ranked op
          else negb (some_operand_unranked op)).
Proof.
  destruct k as [o | c]; [destruct o | destruct c]; reflexivity.
Qed.

(** X1: the legality the target of [runOnFunction] gives an operation: for
    the kinds [AddLegalOpOnRankedTensor] is called for (every mhlo kind of
    the file, and the chlo unary kinds) an operation is legal exactly when
    every operand is a ranked tensor, the rule of the operation taking
    precedence over the one of its dialect; for every other chlo kind
    (polygamma, zeta and the broadcasting operations), which only the rule
    of the dialect covers, exactly when no operand is an unranked
    tensor. *)
Theorem legality_of_kinds :
  forall (k : OpTy) (op : Operation),
    isLegal runOnFunction_target k op
    = Some (if legal_on_ranked_tensor k
            then all_operands_ranked op
            else negb (some_operand_unranked op))
    /\ (forall o, legal_on_ranked_tensor (Mhlo o) = true)
    /\ (forall c, legal_on_ranked_tensor (Chlo c) = true
                  <-> In c MAP_CHLO_OPERATION_CWISE_UNARY).
Proof.
  intros k op. split; [apply isLegal_runOnFunction_target|]. split.
  - intro o. destruct o; reflexivity.
  - intro c. unfold legal_on_ranked_tensor. rewrite existsb_exists. split.
    + intros [c' [Hin Heq]]. destruct (chlo_Op_eq_dec c' c); [|discriminate].
      now subst.
    + intro Hin. exists c. split; [exact Hin|].
      now destruct (chlo_Op_eq_dec c c).
Qed.

Lemma isLegal_unranked_operand (k : OpTy) (op : Operation) :
  some_operand_unranked op = true ->
  isLegal runOnFunction_target k op = Some false.
Proof.
  intro H. rewrite isLegal_runOnFunction_target.
  rewrite (unranked_not_ranked _ H), H. now destruct (legal_on_ranked_tensor k).
Qed.

Lemma isLegal_ranked_operands (k : OpTy) (op : Operation) :
  all_operands_ranked op = true ->
  isLegal runOnFunction_target k op = Some true.
Proof.
  intro H. rewrite isLegal_runOnFunction_target. rewrite H.
  destruct (some_operand_unranked op) eqn:Hu.
  - apply unranked_not_ranked in Hu. congruence.
  - now destruct (legal_on_ranked_tensor k).
Qed.

Lemma ElementwiseOpConversion_matches (OpTy_ : OpTy) (op : Operation) :
  ElementwiseOpConversion OpTy_ op <> None
  <-> some_operand_unranked op = true.
Proof.
  unfold ElementwiseOpConversion, some_operand_unranked.
  rewrite existsb_getOperandTypes.
  destruct (existsb _ _); cbn [negb]; split; congruence.
Qed.

Lemma matchAndRewrite_matches (ChloOpTy : OpTy) (Adaptor_ : Adaptor)
  (op : Operation) :
  matchAndRewrite ChloOpTy Adaptor_ op <> None
  <-> forallb isa_TensorType (getOperandTypes op) = true
      /\ some_operand_unranked op = true.
Proof.
  unfold matchAndRewrite, some_operand_unranked, transformed_operands.
  rewrite existsb_getOperandTypes, forallb_getOperandTypes.
  destruct (forallb _ _); destruct (existsb _ _); cbn [negb];
    (split; [intro H; try congruence; auto | intros [H1 H2]; congruence]).
Qed.

Lemma existsb_nth {A : Type} (f : A -> bool) (l : list A) (n : nat) (d : A) :
  f d = false -> f (nth n l d) = true -> existsb f l = true.
Proof.
  intros Hd. revert n. induction l as [|x xs IH]; intros [|n] H; cbn in *;
    try congruence.
  - now rewrite H.
  - rewrite (IH n H). apply orb_true_r.
Qed.

Lemma scalar_match_cases (ChloOpTy : OpTy) (op : Operation) (lhs rhs : Value) :
  ConvertUnrankedScalarDynamicBroadcastBinaryOp ChloOpTy op lhs rhs <> None ->
  isa_RankedTensorType (getType lhs) && empty (getShape (getType lhs))
  && isa_UnrankedTensorType (getType rhs) = true
  \/ isa_RankedTensorType (getType rhs) && empty (getShape (getType rhs))
     && isa_UnrankedTensorType (getType lhs) = true.
Proof.
  unfold ConvertUnrankedScalarDynamicBroadcastBinaryOp.
  destruct (isa_RankedTensorType (getType lhs)
            && empty (getShape (getType lhs))
            && isa_UnrankedTensorType (getType rhs));
    destruct (isa_RankedTensorType (getType rhs)
              && empty (getShape (getType rhs))
              && isa_UnrankedTensorType (getType lhs));
    cbn [xorb negb]; intro H; try congruence; auto.
Qed.

Lemma ScalarBroadcast_matches (ChloOpTy : OpTy) (op : Operation) :
  ScalarBroadcast_matchAndRewrite ChloOpTy op <> None ->
  some_operand_unranked op = true.
Proof.
  unfold ScalarBroadcast_matchAndRewrite. intro H.
  apply scalar_match_cases in H.
  unfold some_operand_unranked. rewrite existsb_getOperandTypes.
  destruct H as [H | H]; apply andb_true_iff in H as [_ H].
  - apply (existsb_nth (fun x => isa_UnrankedTensorType (getType x))
                       _ 1%nat NullValue); [reflexivity|exact H].
  - apply (existsb_nth (fun x => isa_UnrankedTensorType (getType x))
                       _ 0%nat NullValue); [reflexivity|exact H].
Qed.

Lemma registered_pattern_cases (binary_ops : list (OpTy * OpTy * Adaptor))
  (root : OpTy) (p : Operation -> option Value) :
  In (root, p) (PopulateTransformUnrankedHloPatterns binary_ops) ->
  p = ElementwiseOpConversion root
  \/ (exists Adaptor_, p = matchAndRewrite root Adaptor_)
  \/ p = ScalarBroadcast_matchAndRewrite root.
Proof.
  unfold PopulateTransformUnrankedHloPatterns.
  rewrite !in_app_iff, !in_map_iff.
  intros [H | [H | [H | [H | [H | [H | [H | H]]]]]]].
  - destruct H as [o [H _]]. inversion H. now left.
  - destruct H as [o [H _]]. inversion H. now left.
  - destruct H as [o [H _]]. inversion H. now left.
  - destruct H as [o [H _]]. inversion H. now left.
  - cbn in H. destruct H as [H | [H | H]]; [| |destruct H]; inversion H; now left.
  - destruct H as [[[K H'] A] [H _]]. inversion H. right. left. now exists A.
  - cbn in H. destruct H as [H | H]; [|destruct H]. inversion H. right. left. eauto.
  - destruct H as [[[K H'] A] [H _]]. inversion H. now right; right.
Qed.

Lemma registered_pattern_needs_unranked
  (binary_ops : list (OpTy * OpTy * Adaptor))
  (root : OpTy) (p : Operation -> option Value) (op : Operation) :
  In (root, p) (PopulateTransformUnrankedHloPatterns binary_ops) ->
  p op <> None -> some_operand_unranked op = true.
Proof.
  intros Hin Hm.
  destruct (registered_pattern_cases _ _ _ Hin) as [-> | [[A ->] | ->]].
  - now apply ElementwiseOpConversion_matches in Hm.
  - now apply matchAndRewrite_matches in Hm.
  - now apply ScalarBroadcast_matches in Hm.
Qed.

(** X2: a pattern of the set rewrites only operations the target declares
    illegal: whenever a registered pattern matches an operation of its
    kind, that operation has an unranked operand and is not legal. *)
Theorem patterns_rewrite_illegal_operations :
  forall (binary_ops : list (OpTy * OpTy * Adaptor)) (root : OpTy)
         (p : Operation -> option Value) (op : Operation),
    In (root, p) (PopulateTransformUnrankedHloPatterns binary_ops) ->
    p op <> None ->
    some_operand_unranked op = true
    /\ isLegal runOnFunction_target root op = Some false.
Proof.
  intros binary_ops root p op Hin Hm.
  pose proof (registered_pattern_needs_unranked _ _ _ _ Hin Hm) as Hu.
  split; [exact Hu|]. now apply isLegal_unranked_operand.
Qed.

Lemma registered_root_cases (binary_ops : list (OpTy * OpTy * Adaptor))
  (root : OpTy) :
  In root (map fst (PopulateTransformUnrankedHloPatterns binary_ops)) ->
  In (root, ElementwiseOpConversion root)
     (PopulateTransformUnrankedHloPatterns binary_ops)
  \/ exists Adaptor_,
      In (root, matchAndRewrite root Adaptor_)
         (PopulateTransformUnrankedHloPatterns binary_ops).
Proof.
  rewrite in_map_iff. intros [[root' p] [Heq Hin]]. cbn in Heq. subst root'.
  revert Hin. unfold PopulateTransformUnrankedHloPatterns.
  rewrite !in_app_iff, !in_map_iff.
  intros [H | [H | [H | [H | [H | [H | [H | H]]]]]]].
  - left. destruct H as [o [H Ho]]. inversion H. subst.
    left. eauto.
  - left. destruct H as [o [H Ho]]. inversion H. subst.
    right; left. eauto.
  - left. destruct H as [o [H Ho]]. inversion H. subst.
    right; right; left. eauto.
  - left. destruct H as [o [H Ho]]. inversion H. subst.
    right; right; right; left. eauto.
  - left. do 4 right. left.
    cbn in H. destruct H as [H | [H | H]]; [| |destruct H]; inversion H;
      subst; cbn; auto.
  - right. destruct H as [[[K H'] A] [H Hb]]. inversion H. subst.
    exists A. rewrite !in_app_iff, !in_map_iff.
    do 5 right. left. exists (root, H', A). auto.
  - right. cbn in H. destruct H as [H | H]; [|destruct H]. inversion H. subst.
    eexists. rewrite !in_app_iff. do 6 right. left. left. reflexivity.
  - right. destruct H as [[[K H'] A] [H Hb]]. inversion H. subst.
    exists A. rewrite !in_app_iff, !in_map_iff.
    do 5 right. left. exists (root, H', A). auto.
Qed.

(** X3: whenever an operation of a kind the set has a pattern for is not
    legal and all its operands are tensors, some pattern registered for
    that kind matches it. *)
Theorem illegal_tensor_operation_is_rewritten :
  forall (binary_ops : list (OpTy * OpTy * Adaptor)) (root : OpTy)
         (op : Operation),
    In root (map fst (PopulateTransformUnrankedHloPatterns binary_ops)) ->
    forallb isa_TensorType (getOperandTypes op) = true ->
    isLegal runOnFunction_target root op = Some false ->
    exists p rewritten,
      In (root, p) (PopulateTransformUnrankedHloPatterns binary_ops)
      /\ p op = Some rewritten.
Proof.
  intros binary_ops root op Hroot Ht Hill.
  assert (Hu : some_operand_unranked op = true).
  { rewrite isLegal_runOnFunction_target in Hill.
    destruct (legal_on_ranked_tensor root).
    - apply tensors_not_ranked_unranked; [exact Ht|congruence].
    - destruct (some_operand_unranked op); [reflexivity|discriminate]. }
  destruct (registered_root_cases _ _ Hroot) as [Hin | [A Hin]].
  - apply (ElementwiseOpConversion_matches root) in Hu.
    destruct (ElementwiseOpConversion root op) as [v|] eqn:Hv; [|congruence].
    exists (ElementwiseOpConversion root), v. auto.
  - assert (Hm : matchAndRewrite root A op <> None)
      by (apply matchAndRewrite_matches; auto).
    destruct (matchAndRewrite root A op) as [v|] eqn:Hv; [|congruence].
    exists (matchAndRewrite root A), v. auto.
Qed.

Lemma all_xla_operations_registered (o : mhlo.Op) :
  In o (MAP_XLA_OPERATION_CWISE_UNARY ++ MAP_XLA_OPERATION_CWISE_BINARY
        ++ [mhlo.CompareOp; mhlo.SelectOp]).
Proof. destruct o; cbn; tauto. Qed.

Lemma ElementwiseOpConversion_registered
  (binary_ops : list (OpTy * OpTy * Adaptor)) (o : mhlo.Op) :
  In (Mhlo o, ElementwiseOpConversion (Mhlo o))
     (PopulateTransformUnrankedHloPatterns binary_ops).
Proof.
  pose proof (all_xla_operations_registered o) as H.
  unfold PopulateTransformUnrankedHloPatterns.
  rewrite !in_app_iff in *.
  destruct H as [H | [H | H]].
  - left. now apply (in_map (fun o => (Mhlo o, ElementwiseOpConversion (Mhlo o)))).
  - right; left.
    now apply (in_map (fun o => (Mhlo o, ElementwiseOpConversion (Mhlo o)))).
  - do 4 right. left.
    cbn in H. destruct H as [<- | [<- | []]]; cbn; auto.
Qed.

(** An operation on ranked operands needs no further rewrite. *)
Lemma ranked_operands_settled (binary_ops : list (OpTy * OpTy * Adaptor))
  (kind : OpTy) (o : Operation) :
  all_operands_ranked o = true ->
  isLegal runOnFunction_target kind o = Some true
  /\ forall root p,
      In (root, p) (PopulateTransformUnrankedHloPatterns binary_ops) ->
      p o = None.
Proof.
  intro H. split; [now apply isLegal_ranked_operands|].
  intros root p Hin. destruct (p o) as [v|] eqn:Hp; [|reflexivity].
  assert (Hm : p o <> None) by congruence.
  pose proof (registered_pattern_needs_unranked _ _ _ _ Hin Hm) as Hu.
  apply unranked_not_ranked in Hu. congruence.
Qed.

Lemma all_operands_ranked_map {A : Type} (f : A -> Value) (xs : list A)
  (attrs : list NamedAttribute) (ty : Type_) :
  (forall x, isa_RankedTensorType (getType (f x)) = true) ->
  all_operands_ranked (mkOperation (map f xs) attrs ty) = true.
Proof.
  intro H. unfold all_operands_ranked. rewrite forallb_getOperandTypes.
  cbn [getOperands]. apply forallb_forall. intros y Hy.
  apply in_map_iff in Hy as [x [<- _]]. apply H.
Qed.

(** X4: the operation each pattern creates in place of the matched one
    (on the flattened operands, on the scalar and the rank-1 operand, on
    the rank-1 operands of the scalar-like fast path, and in every branch
    of the ladder) has ranked operands only, so the target declares it
    legal and no pattern of the set matches it: the rewrite of these
    operations ends after one step. *)
Theorem created_operations_are_legal :
  forall (binary_ops : list (OpTy * OpTy * Adaptor)),
    let settled (kind : OpTy) (v : Value) :=
      exists o,
        operation_of v = Some o
        /\ all_operands_ranked o = true
        /\ isLegal runOnFunction_target kind o = Some true
        /\ forall root p,
            In (root, p) (PopulateTransformUnrankedHloPatterns binary_ops) ->
            p o = None in
    (forall (OpTy_ : OpTy) (op : Operation),
        match ElementwiseOpConversion OpTy_ op with
        | Some rewritten =>
            exists flatResult,
              reshape_operand rewritten = Some flatResult
              /\ settled OpTy_ flatResult
        | None => True
        end)
    /\ (forall (ChloOpTy : OpTy) (op : Operation),
           match ScalarBroadcast_matchAndRewrite ChloOpTy op with
           | Some rewritten =>
               exists computed,
                 reshape_operand rewritten = Some computed
                 /\ settled ChloOpTy computed
           | None => True
           end)
    /\ (forall (ChloOpTy : OpTy) (Adaptor_ : Adaptor) (op : Operation),
           match matchAndRewrite ChloOpTy Adaptor_ op with
           | Some rewritten =>
               exists th rank_one,
                 if_then rewritten = Some th
                 /\ yielded_reshape_operand th = Some rank_one
                 /\ settled ChloOpTy rank_one
           | None => True
           end)
    /\ (forall (ChloOpTy : OpTy) (op : Operation) (operands : list Value),
           Forall (fun gb =>
                     exists result,
                       specialized_op (snd gb) = Some result
                       /\ settled ChloOpTy result)
                  (rank_ladder
                     (HandleBroadcastAndOp_if_op ChloOpTy op operands))).
Proof.
  intros binary_ops settled.
  assert (Hsettled : forall kind ty xs attrs,
             all_operands_ranked (mkOperation xs attrs ty) = true ->
             settled kind (HloOp kind ty xs attrs)).
  { intros kind ty xs attrs H. eexists. split; [reflexivity|].
    split; [exact H|]. now apply ranked_operands_settled. }
  split; [|split; [|split]].
  - intros K op. unfold ElementwiseOpConversion.
    destruct (negb _); [exact I|].
    eexists. split; [reflexivity|].
    apply Hsettled, all_operands_ranked_map. reflexivity.
  - intros K op. unfold ScalarBroadcast_matchAndRewrite,
      ConvertUnrankedScalarDynamicBroadcastBinaryOp.
    set (lhs := nth 0 (getOperands op) NullValue).
    set (rhs := nth 1 (getOperands op) NullValue).
    destruct (isa_RankedTensorType (getType lhs)) eqn:Hl;
      destruct (empty (getShape (getType lhs)));
      destruct (isa_UnrankedTensorType (getType rhs));
      destruct (isa_RankedTensorType (getType rhs)) eqn:Hr;
      destruct (empty (getShape (getType rhs)));
      destruct (isa_UnrankedTensorType (getType lhs));
      cbn [andb xorb negb]; try exact I;
      (eexists; split; [reflexivity|]; apply Hsettled;
       unfold all_operands_ranked, getOperandTypes;
       cbn [getOperands map forallb getType isa_RankedTensorType];
       rewrite ?Hl, ?Hr; reflexivity).
  - intros K A op. unfold matchAndRewrite.
    destruct (negb _); [exact I|]. destruct (negb _); [exact I|].
    do 2 eexists. split; [reflexivity|]. split; [reflexivity|].
    apply Hsettled. unfold reshaped_operands.
    apply all_operands_ranked_map. now intros [operand shape].
  - intros K op operands. rewrite rank_ladder_if_op.
    apply Forall_map, Forall_forall. intros r _. cbn [snd].
    eexists. split; [reflexivity|].
    apply Hsettled, all_operands_ranked_map. now intros [operand shape].
Qed.

(** X5: the operation of the branch for equal shapes is created on the
    original operands, of which one is unranked: the target declares it
    illegal and the flattening pattern of its kind, which is in the set,
    matches it, so that it is rewritten in a second step. *)
Theorem equal_shapes_operation_is_flattened_next :
  forall (binary_ops : list (OpTy * OpTy * Adaptor)) (ChloOpTy : OpTy)
         (o : mhlo.Op) (op : Operation),
    match matchAndRewrite ChloOpTy (HloNaryElementwiseAdaptor (Mhlo o)) op
    with
    | Some rewritten =>
        exists el inner th created next flattened,
          if_else rewritten = Some el
          /\ yielded el = Some inner
          /\ if_then inner = Some th
          /\ yielded th = Some created
          /\ operation_of created = Some next
          /\ getOperands next = getOperands op
          /\ isLegal runOnFunction_target (Mhlo o) next = Some false
          /\ In (Mhlo o, ElementwiseOpConversion (Mhlo o))
                (PopulateTransformUnrankedHloPatterns binary_ops)
          /\ ElementwiseOpConversion (Mhlo o) next = Some flattened
    | None => True
    end.
Proof.
  intros binary_ops K o op.
  destruct (matchAndRewrite K (HloNaryElementwiseAdaptor (Mhlo o)) op)
    as [v|] eqn:Hv; [|exact I].
  assert (Hm : matchAndRewrite K (HloNaryElementwiseAdaptor (Mhlo o)) op
               <> None) by congruence.
  apply matchAndRewrite_matches in Hm as [_ Hu].
  unfold matchAndRewrite in Hv.
  destruct (negb _); [discriminate|]. destruct (negb _); [discriminate|].
  injection Hv as <-.
  set (next := mkOperation (getOperands op) [] (getResultType op)).
  assert (Hu' : some_operand_unranked next = true) by exact Hu.
  pose proof (proj2 (ElementwiseOpConversion_matches (Mhlo o) next) Hu')
    as Hmatch.
  destruct (ElementwiseOpConversion (Mhlo o) next) as [fl|] eqn:Hfl;
    [|congruence].
  do 4 eexists. exists next, fl.
  split; [reflexivity|]. split; [reflexivity|]. split; [reflexivity|].
  split; [reflexivity|]. split; [reflexivity|]. split; [reflexivity|].
  split; [now apply isLegal_unranked_operand|].
  split; [apply ElementwiseOpConversion_registered|exact Hfl].
Qed.

Lemma block_yield_else_block (ChloOpTy : OpTy) (op : Operation)
  (operands : list Value) (n : nat) (i : Z) :
  exists b,
    block_yield (else_block ChloOpTy op operands n i) = Some b
    /\ (getType b = getResultType op
        \/ getType b
           = UnrankedTensorType (getElementType (getResultType op))).
Proof.
  destruct n; eexists; (split; [reflexivity|]); [right|left]; reflexivity.
Qed.

(** Every [scf.if] below the first one: its type, and what its regions
    yield. *)
Lemma else_block_conditionals (ChloOpTy : OpTy) (op : Operation)
  (operands : list Value) (n : nat) (i : Z) :
  let unranked := UnrankedTensorType (getElementType (getResultType op)) in
  let cs := else_chain_conditionals (else_block ChloOpTy op operands n i) in
  List.length cs = n
  /\ Forall (fun v =>
               getType v = getResultType op
               /\ (exists th a, if_then v = Some th
                                /\ block_yield th = Some a
                                /\ getType a = unranked)
               /\ (exists el b, if_else v = Some el
                                /\ block_yield el = Some b
                                /\ (getType b = getResultType op
                                    \/ getType b = unranked)))
            cs.
Proof.
  intros unranked. revert i. induction n as [|n IH]; intro i.
  - split; [reflexivity|constructor].
  - cbn [else_block else_chain_conditionals
         createIfOpForRankSpecializedBroadcastAndOp].
    destruct (IH (i + 1)) as [Hlen Hall]. split.
    + cbn [List.length]. now rewrite Hlen.
    + constructor; [|exact Hall].
      split; [reflexivity|]. split.
      * do 2 eexists. repeat split.
      * destruct (block_yield_else_block ChloOpTy op operands n (i + 1))
          as [b [Hb Hty]].
        exists (else_block ChloOpTy op operands n (i + 1)), b.
        repeat split; assumption.
Qed.

(** X6: the ladder consists of M - 1 nested [scf.if] operations, every
    one of which has the result type of the operation, as has the reshape
    that ends the ladder, while every branch of the ladder, the then
    region of every [scf.if] among them, yields a value of the unranked
    tensor type with the element type of the result; both regions of
    every [scf.if] yield a value of its type exactly when the result type
    of the operation is unranked. *)
Theorem ladder_branches_yield_unranked_tensors :
  forall (ChloOpTy : OpTy) (op : Operation) (operands : list Value),
    let unranked := UnrankedTensorType (getElementType (getResultType op)) in
    let conditionals :=
      ladder_conditionals (HandleBroadcastAndOp_if_op ChloOpTy op operands) in
    Z.of_nat (List.length conditionals) = kMaxRankSpecialization operands - 1
    /\ Forall (fun v => getType v = getResultType op) conditionals
    /\ getType (HandleBroadcastAndOp ChloOpTy op operands) = getResultType op
    /\ Forall (fun gb => exists v, yielded (snd gb) = Some v
                                   /\ getType v = unranked)
              (rank_ladder (HandleBroadcastAndOp_if_op ChloOpTy op operands))
    /\ Forall (fun v => exists th a, if_then v = Some th
                                     /\ block_yield th = Some a
                                     /\ getType a = unranked)
              conditionals
    /\ (isa_UnrankedTensorType (getResultType op) = true
        <-> Forall regions_yield_own_type conditionals).
Proof.
  intros K op operands unranked conditionals.
  set (n := Z.to_nat (kMaxRankSpecialization operands - 2)).
  destruct (else_block_conditionals K op operands n 2) as [Hlen Hrest].
  destruct (block_yield_else_block K op operands n 2) as [b0 [Hb0 Hty0]].
  assert (Hall :
            Forall (fun v =>
                      getType v = getResultType op
                      /\ (exists th a, if_then v = Some th
                                       /\ block_yield th = Some a
                                       /\ getType a = unranked)
                      /\ (exists el b, if_else v = Some el
                                       /\ block_yield el = Some b
                                       /\ (getType b = getResultType op
                                           \/ getType b = unranked)))
                   conditionals).
  { subst conditionals.
    unfold ladder_conditionals, HandleBroadcastAndOp_if_op,
      createIfOpForRankSpecializedBroadcastAndOp.
    cbn [else_chain_conditionals]. constructor; [|exact Hrest].
    split; [reflexivity|]. split.
    - do 2 eexists. repeat split.
    - exists (else_block K op operands n 2), b0. repeat split; assumption. }
  split; [|split; [|split; [|split; [|split]]]].
  - subst conditionals.
    unfold ladder_conditionals, HandleBroadcastAndOp_if_op,
      createIfOpForRankSpecializedBroadcastAndOp.
    cbn [else_chain_conditionals List.length]. fold n. rewrite Hlen.
    subst n. rewrite kMaxRankSpecialization_cases.
    destruct (2 <? List.length operands)%nat; reflexivity.
  - eapply Forall_impl; [|exact Hall]. cbn beta. intros v Hv. apply Hv.
  - reflexivity.
  - rewrite rank_ladder_if_op.
    apply Forall_map, Forall_forall. intros r _. cbn [snd].
    eexists. split; reflexivity.
  - eapply Forall_impl; [|exact Hall]. cbn beta. intros v Hv. apply Hv.
  - split.
    + intro Hu.
      assert (Heq : unranked = getResultType op).
      { subst unranked. destruct (getResultType op); try discriminate Hu.
        reflexivity. }
      eapply Forall_impl; [|exact Hall]. cbn beta.
      intros v [Hv [[th [a [Hth [Ha Hta]]]] [el [b [Hel [Hb Htb]]]]]].
      destruct v; try discriminate Hth.
      cbn [if_then if_else getType] in *.
      injection Hth as ->. injection Hel as ->. subst ty.
      split; [exists a|exists b]; (split; [assumption|]).
      * congruence.
      * destruct Htb; congruence.
    + subst conditionals.
      unfold ladder_conditionals, HandleBroadcastAndOp_if_op,
        createIfOpForRankSpecializedBroadcastAndOp.
      cbn [else_chain_conditionals]. intro H.
      inversion H as [|? ? Hhead _]; subst.
      cbn [regions_yield_own_type] in Hhead.
      destruct Hhead as [[a [Ha Hta]] _].
      cbn in Ha. injection Ha as <-. cbn [getType] in Hta.
      rewrite <- Hta. reflexivity.
Qed.

(** X15: on an operation with two operands, whenever the scalar pattern
    matches, the n-ary pattern registered for the same operation matches
    as well: the operations the scalar pattern rewrites are among those
    the n-ary pattern rewrites. *)
Theorem scalar_match_implies_nary_match :
  forall (ChloOpTy : OpTy) (Adaptor_ : Adaptor) (op : Operation),
    List.length (getOperands op) = 2%nat ->
    ScalarBroadcast_matchAndRewrite ChloOpTy op <> None ->
    matchAndRewrite ChloOpTy Adaptor_ op <> None.
Proof.
  intros K A op Hlen Hm. apply matchAndRewrite_matches.
  split; [|now apply (ScalarBroadcast_matches K)].
  unfold ScalarBroadcast_matchAndRewrite in Hm.
  apply scalar_match_cases in Hm.
  rewrite forallb_getOperandTypes.
  destruct (getOperands op) as [|lhs [|rhs [|? ?]]]; try discriminate Hlen.
  cbn [nth forallb] in *. unfold isa_TensorType.
  destruct (isa_RankedTensorType (getType lhs));
    destruct (isa_UnrankedTensorType (getType lhs));
    destruct (isa_RankedTensorType (getType rhs));
    destruct (isa_UnrankedTensorType (getType rhs));
    try reflexivity; cbn in Hm; destruct Hm as [Hm | Hm];
    try discriminate Hm;
    destruct (empty _) in Hm; discriminate Hm.
Qed.

Section Correctness.
Variable E : Type.
Variable dflt : E.
Variable apply_elem : OpTy -> list NamedAttribute -> list E -> E.
Variable minimum_broadcast_shapes : list (list Z) -> list (list Z).
Variable env : nat -> option (RtVal E).

Local Abbreviation ev :=
  (eval E dflt apply_elem minimum_broadcast_shapes env).
Local Abbreviation evb :=
  (eval_block E dflt apply_elem minimum_broadcast_shapes env).
Local Abbreviation has_values :=
  (operands_are E dflt apply_elem minimum_broadcast_shapes env).

(** *** Equations of the evaluator *)

Lemma eval_block_YieldOp (v : Value) : evb (YieldOp v) = ev v.
Proof. reflexivity. Qed.

Lemma eval_CastOp ty (v : Value) :
  ev (CastOp ty v) = x <- ev v ;; checked ty x.
Proof. reflexivity. Qed.

Lemma eval_HloOp kind ty xs attrs :
  ev (HloOp kind ty xs attrs)
  = ts <- mapM (fun x => as_tensor (ev x)) xs ;;
    r <- apply_op E dflt apply_elem kind attrs ts ;;
    checked ty (VTensor r).
Proof. reflexivity. Qed.

Lemma eval_DynamicReshapeOp ty a b :
  ev (DynamicReshapeOp ty a b)
  = t <- as_tensor (ev a) ;; s <- as_extents (ev b) ;;
    r <- dynamic_reshape t s ;; checked ty (VTensor r).
Proof. reflexivity. Qed.

(** *** Positions *)

Lemma numel_cons (d : Z) (s : list Z) : numel (d :: s) = d * numel s.
Proof. reflexivity. Qed.

Lemma numel_pos_in_bounds (shape idx : list Z) :
  in_bounds shape idx -> 0 < numel shape.
Proof.
  induction 1 as [|d i shape idx Hdi _ IH]; [reflexivity|].
  rewrite numel_cons. nia.
Qed.

Lemma linear_index_bounds (shape idx : list Z) (acc : Z) :
  in_bounds shape idx -> 0 <= acc ->
  acc * numel shape <= linear_index shape idx acc
  < (acc + 1) * numel shape.
Proof.
  intro H. revert acc.
  induction H as [|d i shape idx Hdi Hrest IH]; intros acc Hacc.
  - cbn. lia.
  - cbn [linear_index]. rewrite numel_cons.
    pose proof (numel_pos_in_bounds _ _ Hrest) as Hpos.
    specialize (IH (acc * d + i) ltac:(nia)). nia.
Qed.

Lemma nth_map_seq {A : Type} (g : nat -> A) (n k : nat) (d : A) :
  (k < n)%nat -> nth k (map g (seq 0 n)) d = g k.
Proof.
  intro H.
  rewrite (nth_indep _ d (g 0%nat)) by (now rewrite length_map, length_seq).
  rewrite map_nth. rewrite seq_nth by exact H. reflexivity.
Qed.

Lemma tensor_at_map_seq (shape : list Z) (g : nat -> E) (p : list Z) :
  in_bounds shape p ->
  tensor_at dflt (mkTensor shape (map g (seq 0 (Z.to_nat (numel shape))))) p
  = g (Z.to_nat (linear_index shape p 0)).
Proof.
  intro H. unfold tensor_at. cbn [dims elems].
  pose proof (linear_index_bounds _ _ 0 H ltac:(lia)) as Hb.
  apply nth_map_seq. lia.
Qed.

Lemma operands_tensors xs ts :
  has_values xs ts -> mapM (fun x => as_tensor (ev x)) xs = Ok ts.
Proof.
  intro H. apply mapM_Forall2.
  eapply Forall2_impl; [|exact H]. cbn beta. intros x t Hx.
  rewrite Hx. reflexivity.
Qed.

Lemma operands_shapes xs ts :
  has_values xs ts ->
  mapM (fun x => as_extents (ev x)) (map ShapeOfOp xs) = Ok (map dims ts).
Proof.
  intro H. rewrite mapM_map. induction H as [|x t xs ts Hx _ IH].
  - reflexivity.
  - cbn [mapM map]. rewrite IH. cbn [eval]. rewrite Hx. reflexivity.
Qed.

(** The shape the flattening pattern restores the result to. *)
Lemma eval_elementwise_shape xs ts :
  has_values xs ts ->
  ev (match map ShapeOfOp xs with
      | [front] => front
      | _ => AnyOp (map ShapeOfOp xs)
      end)
  = s <- shape_any (map dims ts) ;; Ok (VExtents s).
Proof.
  intro H. pose proof (operands_shapes _ _ H) as Hs.
  destruct H as [|x t xs ts Hx Hrest].
  - reflexivity.
  - destruct Hrest as [|x' t' xs ts Hx' Hrest].
    + cbn. rewrite Hx. reflexivity.
    + cbn [map]. cbn [map] in Hs. cbn [eval]. rewrite Hs. reflexivity.
Qed.

Lemma apply_elementwise_Ok kind attrs ts s :
  shape_any (map dims ts) = Ok s ->
  apply_elementwise E dflt apply_elem kind attrs ts
  = Ok (mkTensor s (elementwise_elems E dflt apply_elem kind attrs ts (numel s))).
Proof. intro H. unfold apply_elementwise. rewrite H. reflexivity. Qed.

Lemma apply_elementwise_flatten kind attrs ts s :
  shape_any (map dims ts) = Ok s ->
  apply_elementwise E dflt apply_elem kind attrs (map flatten ts)
  = Ok (mkTensor [numel s] (elementwise_elems E dflt apply_elem kind attrs ts (numel s))).
Proof.
  intro Hs. unfold apply_elementwise. rewrite !map_map. cbn [flatten dims].
  apply shape_any_Ok in Hs as [Hne Hall].
  assert (Hs' : shape_any (map (fun t : Tensor E => [numel (dims t)]) ts)
                = Ok [numel s]).
  { apply shape_any_Ok. split.
    - destruct ts; [now cbn in Hne|discriminate].
    - rewrite Forall_map in *. eapply Forall_impl; [|exact Hall].
      cbn beta. intros t Ht. now rewrite Ht. }
  rewrite Hs'. cbn [bind]. rewrite numel_singleton.
  f_equal. f_equal. apply map_ext. intro k. now rewrite map_map.
Qed.

Lemma shape_conforms_dynamic (s : list Z) :
  shape_conforms (repeat kDynamicSize (List.length s)) s = true.
Proof. induction s as [|x s IH]; cbn; [reflexivity|exact IH]. Qed.

Lemma checked_rank1 e n (d : list E) :
  checked (RankedTensorType [kDynamicSize] e) (VTensor (mkTensor [n] d))
  = Ok (VTensor (mkTensor [n] d)).
Proof. reflexivity. Qed.

(** Flattening the operands with a shape that is the shape of each. *)
Lemma eval_flat_operands xs ts shp s :
  has_values xs ts ->
  ev shp = Ok (VExtents s) ->
  Forall (fun t => dims t = s) ts ->
  mapM (fun x => as_tensor (ev x))
       (map (fun operand =>
               DynamicReshapeOp
                 (RankedTensorType [kDynamicSize]
                                   (getElementType (getType operand)))
                 operand (FromElementsOp (NumElementsOp shp))) xs)
  = Ok (map flatten ts).
Proof.
  intros H Hshp Hall. rewrite mapM_map. apply mapM_Forall2.
  induction H as [|x t xs ts Hx _ IH]; cbn [map]; constructor.
  - cbn [eval]. rewrite Hx, Hshp. cbn [as_tensor as_extents as_index bind].
    inversion Hall as [|? ? Ht _]; subst.
    unfold dynamic_reshape. rewrite numel_singleton, Z.eqb_refl.
    reflexivity.
  - apply IH. now inversion Hall.
Qed.

Lemma tensor_at_elementwise kind attrs (ts : list (Tensor E)) (s p : list Z) :
  Forall (fun t => dims t = s) ts -> in_bounds s p ->
  tensor_at dflt
    (mkTensor s (elementwise_elems E dflt apply_elem kind attrs ts (numel s)))
    p
  = apply_elem kind attrs (map (fun t => tensor_at dflt t p) ts).
Proof.
  intros Hall Hp. unfold elementwise_elems.
  rewrite tensor_at_map_seq by exact Hp. f_equal.
  apply map_ext_in. intros t Ht. rewrite Forall_forall in Hall.
  unfold tensor_at. now rewrite (Hall _ Ht).
Qed.

(** C1: for an elementwise operation and any tensors as its operands,
    the value of the subgraph that [ElementwiseOpConversion] puts in its
    place (shape query, flatten to 1-D, apply, reshape back) is the value
    of the operation itself, whatever the ranks of the operands; when the
    operands have a common shape [s] the result has shape [s] and, at
    every index, the element the operation computes from the operands'
    elements at that index. *)
Theorem flatten_apply_restore_preserves_values :
  forall (OpTy_ : OpTy) (op : Operation) (ts : list (Tensor E))
         (rewritten : Value),
    isBroadcasting OpTy_ = false ->
    has_values (getOperands op) ts ->
    ElementwiseOpConversion OpTy_ op = Some rewritten ->
    ev rewritten = ev (opResult OpTy_ op)
    /\ forall s,
        Forall (fun t => dims t = s) ts ->
        accepts (getResultType op) s = true ->
        exists r,
          ev rewritten = Ok (VTensor r) /\ dims r = s
          /\ forall p, in_bounds s p ->
               tensor_at dflt r p
               = apply_elem OpTy_ (getAttrs op)
                            (map (fun t => tensor_at dflt t p) ts).
Proof.
  intros K op ts v HK Hts Hv.
  unfold ElementwiseOpConversion in Hv.
  destruct (negb _) eqn:Hany in Hv; [discriminate|].
  injection Hv as <-.
  assert (Hne : ts <> []).
  { intros ->. inversion Hts as [Hnil|]. rewrite <- Hnil in Hany.
    discriminate. }
  pose proof (eval_elementwise_shape _ _ Hts) as Hshape.
  set (shp := match map ShapeOfOp (getOperands op) with
              | [front] => front
              | _ => AnyOp (map ShapeOfOp (getOperands op))
              end) in *.
  assert (Hdirect : forall s, shape_any (map dims ts) = Ok s ->
             ev (opResult K op)
             = checked (getResultType op)
                 (VTensor (mkTensor s
                    (elementwise_elems E dflt apply_elem K (getAttrs op) ts
                                       (numel s))))).
  { intros s Hs. unfold opResult. rewrite eval_HloOp.
    rewrite (operands_tensors _ _ Hts). cbn [bind].
    unfold apply_op. rewrite HK.
    now rewrite (apply_elementwise_Ok _ _ _ _ Hs). }
  assert (Heq : ev (DynamicReshapeOp (getResultType op)
                      (HloOp K
                         (RankedTensorType [kDynamicSize]
                            (getElementType (getResultType op)))
                         (map (fun operand =>
                                 DynamicReshapeOp
                                   (RankedTensorType [kDynamicSize]
                                      (getElementType (getType operand)))
                                   operand
                                   (FromElementsOp (NumElementsOp shp)))
                              (getOperands op))
                         (getAttrs op)) shp)
                = ev (opResult K op)).
  { destruct (shape_any (map dims ts)) as [s| |] eqn:Hs;
      cbn [bind] in Hshape.
    - rewrite (Hdirect s eq_refl).
      assert (Hall : Forall (fun t => dims t = s) ts).
      { apply shape_any_Ok in Hs as [_ Hall]. rewrite Forall_map in Hall.
        eapply Forall_impl; [|exact Hall]. cbn beta. congruence. }
      rewrite eval_DynamicReshapeOp, eval_HloOp.
      rewrite (eval_flat_operands _ _ _ _ Hts Hshape Hall). cbn [bind].
      unfold apply_op. rewrite HK.
      rewrite (apply_elementwise_flatten _ _ _ _ Hs). cbn [bind].
      rewrite checked_rank1. cbn [as_tensor bind].
      rewrite Hshape. cbn [as_extents bind].
      unfold dynamic_reshape. cbn [dims elems].
      rewrite numel_singleton, Z.eqb_refl. reflexivity.
    - exfalso. destruct ts as [|t ts]; [discriminate|]. cbn in Hs.
      destruct (forallb _ _); discriminate.
    - unfold opResult. rewrite eval_DynamicReshapeOp, !eval_HloOp.
      rewrite (operands_tensors _ _ Hts). cbn [bind].
      unfold apply_op. rewrite HK. unfold apply_elementwise. rewrite Hs.
      cbn [bind].
      destruct Hts as [|x t xs ts Hx Hrest]; [congruence|].
      cbn [map mapM]. rewrite eval_DynamicReshapeOp, Hx.
      cbn [as_tensor bind eval]. rewrite Hshape. reflexivity. }
  split; [exact Heq|].
  intros s Hall Hadm.
  assert (Hs : shape_any (map dims ts) = Ok s).
  { apply shape_any_Ok. split.
    - destruct ts; [congruence|discriminate].
    - rewrite Forall_map. eapply Forall_impl; [|exact Hall].
      cbn beta. congruence. }
  eexists. split; [|split].
  - rewrite Heq, (Hdirect s Hs). unfold checked. cbn [conforms dims].
    rewrite Hadm. reflexivity.
  - reflexivity.
  - intros p Hp. now apply tensor_at_elementwise.
Qed.

(** *** Index arithmetic *)

Lemma wrap_index_small (z : Z) :
  - 2 ^ 63 <= z < 2 ^ 63 -> wrap_index z = z.
Proof.
  intro H. unfold wrap_index. rewrite Z.mod_small; lia.
Qed.

Lemma unsigned_index_small (z : Z) :
  0 <= z < 2 ^ 64 -> unsigned_index z = z.
Proof. intro H. unfold unsigned_index. apply Z.mod_small. exact H. Qed.

(** *** Broadcasting a scalar against a tensor of rank 1 *)

Lemma source_index_rank1 (n k : Z) :
  0 <= k < n -> source_index [n] [n] k = k.
Proof.
  intro H. cbn [source_index]. destruct (n =? 1) eqn:Hn.
  - apply Z.eqb_eq in Hn. lia.
  - rewrite Z.mod_small by lia. lia.
Qed.

Lemma scalar_lhs_elems kind attrs (s : E) (x : Tensor E) :
  broadcasting_elems E dflt apply_elem kind attrs
    [mkTensor [] [s]; flatten x] [numel (dims x)]
  = map (fun k => apply_elem kind attrs [s; nth k (elems x) dflt])
        (seq 0 (Z.to_nat (numel (dims x)))).
Proof.
  unfold broadcasting_elems. rewrite numel_singleton.
  apply map_ext_in. intros k Hk. apply in_seq in Hk.
  unfold gather. cbn [map flatten dims elems rev app].
  rewrite source_index_rank1 by lia. rewrite Nat2Z.id. reflexivity.
Qed.

Lemma scalar_rhs_elems kind attrs (s : E) (x : Tensor E) :
  broadcasting_elems E dflt apply_elem kind attrs
    [flatten x; mkTensor [] [s]] [numel (dims x)]
  = map (fun k => apply_elem kind attrs [nth k (elems x) dflt; s])
        (seq 0 (Z.to_nat (numel (dims x)))).
Proof.
  unfold broadcasting_elems. rewrite numel_singleton.
  apply map_ext_in. intros k Hk. apply in_seq in Hk.
  unfold gather. cbn [map flatten dims elems rev app].
  rewrite source_index_rank1 by lia. rewrite Nat2Z.id. reflexivity.
Qed.

(** C9: when the scalar pattern rewrites an operation with a scalar
    operand of value [s] and an unranked operand whose run-time value is
    the tensor [x], the emitted subgraph yields a tensor of the shape of
    [x] whose element at every index is the operation applied to [s] and
    the element of [x] at that index, in the order of the operands. *)
Theorem scalar_broadcast_result :
  forall (ChloOpTy : OpTy) (op : Operation) (lhs rhs rewritten : Value)
         (s : E) (x : Tensor E),
    isBroadcasting ChloOpTy = true ->
    ConvertUnrankedScalarDynamicBroadcastBinaryOp ChloOpTy op lhs rhs
    = Some rewritten ->
    accepts (getResultType op) (dims x) = true ->
    (scalar_against_unranked lhs rhs ->
     ev lhs = Ok (VTensor (mkTensor [] [s])) ->
     ev rhs = Ok (VTensor x) ->
     exists r, ev rewritten = Ok (VTensor r) /\ dims r = dims x
               /\ forall p, in_bounds (dims x) p ->
                    tensor_at dflt r p
                    = apply_elem ChloOpTy (getAttrs op)
                                 [s; tensor_at dflt x p])
    /\
    (scalar_against_unranked rhs lhs ->
     ev rhs = Ok (VTensor (mkTensor [] [s])) ->
     ev lhs = Ok (VTensor x) ->
     exists r, ev rewritten = Ok (VTensor r) /\ dims r = dims x
               /\ forall p, in_bounds (dims x) p ->
                    tensor_at dflt r p
                    = apply_elem ChloOpTy (getAttrs op)
                                 [tensor_at dflt x p; s]).
Proof.
  intros K op lhs rhs v s x HK Hv Hadm.
  unfold ConvertUnrankedScalarDynamicBroadcastBinaryOp in Hv.
  split; intros Hsc Hs Hx.
  - pose proof (proj2 (is_scalar_spec lhs rhs) Hsc) as Hl.
    assert (Hr : isa_RankedTensorType (getType rhs)
                 && empty (getShape (getType rhs))
                 && isa_UnrankedTensorType (getType lhs) = false).
    { destruct (_ && _ && _) eqn:Hr in |- *; [|reflexivity].
      apply is_scalar_spec in Hr. destruct (not_both_scalar _ _ Hsc Hr). }
    rewrite Hl, Hr in Hv. cbn [xorb negb] in Hv. injection Hv as <-.
    eexists. split; [|split].
    + cbn [eval mapM]. rewrite Hs, Hx.
      cbn [as_tensor as_extents as_index bind dims].
      unfold dynamic_reshape at 1. rewrite numel_singleton, Z.eqb_refl.
      cbn [bind]. rewrite checked_rank1. cbn [as_tensor bind].
      unfold apply_op. rewrite HK. unfold apply_broadcasting.
      cbn [map dims broadcast_shapes broadcast_step fold_left broadcast2
           rev app broadcast_rev option_map].
      cbn [bind]. rewrite checked_rank1. cbn [as_tensor bind].
      unfold dynamic_reshape. cbn [dims elems].
      rewrite numel_singleton, Z.eqb_refl. cbn [bind].
      unfold checked. cbn [conforms dims]. rewrite Hadm. reflexivity.
    + reflexivity.
    + intros p Hp. fold (flatten x). rewrite scalar_lhs_elems.
      rewrite tensor_at_map_seq by exact Hp. reflexivity.
  - pose proof (proj2 (is_scalar_spec rhs lhs) Hsc) as Hr.
    assert (Hl : isa_RankedTensorType (getType lhs)
                 && empty (getShape (getType lhs))
                 && isa_UnrankedTensorType (getType rhs) = false).
    { destruct (_ && _ && _) eqn:Hl in |- *; [|reflexivity].
      apply is_scalar_spec in Hl. destruct (not_both_scalar _ _ Hsc Hl). }
    rewrite Hl, Hr in Hv. cbn [xorb negb] in Hv. injection Hv as <-.
    eexists. split; [|split].
    + cbn [eval mapM]. rewrite Hs, Hx.
      cbn [as_tensor as_extents as_index bind dims].
      unfold dynamic_reshape at 1. rewrite numel_singleton, Z.eqb_refl.
      cbn [bind]. rewrite checked_rank1. cbn [as_tensor bind].
      unfold apply_op. rewrite HK. unfold apply_broadcasting.
      cbn [map dims broadcast_shapes broadcast_step fold_left broadcast2
           rev app broadcast_rev option_map].
      cbn [bind]. rewrite checked_rank1. cbn [as_tensor bind].
      unfold dynamic_reshape. cbn [dims elems].
      rewrite numel_singleton, Z.eqb_refl. cbn [bind].
      unfold checked. cbn [conforms dims]. rewrite Hadm. reflexivity.
    + reflexivity.
    + intros p Hp. fold (flatten x). rewrite scalar_rhs_elems.
      rewrite tensor_at_map_seq by exact Hp. reflexivity.
Qed.

(** *** The tests of the n-ary pattern *)

Lemma count_single_element_cons (s : list Z) (ss : list (list Z)) :
  count_single_element (s :: ss)
  = (if numel s =? 1 then 1 else 0) + count_single_element ss.
Proof.
  unfold count_single_element. cbn [filter].
  destruct (numel s =? 1); cbn [List.length]; lia.
Qed.

Lemma count_single_element_bounds (ss : list (list Z)) :
  0 <= count_single_element ss <= Z.of_nat (List.length ss).
Proof.
  unfold count_single_element.
  pose proof (filter_length_le (fun s => numel s =? 1) ss). lia.
Qed.

Lemma eval_counter_from xs ts (c : Value) (a : Z) :
  has_values xs ts ->
  ev c = Ok (VIndex a) ->
  0 <= a -> a + Z.of_nat (List.length xs) < 2 ^ 63 ->
  ev (fold_left
        (fun counter shape =>
           let is_scalar_like := IsSingleElementShape shape in
           let counter_plus_one := AddIOp counter one in
           SelectOp is_scalar_like counter_plus_one counter)
        (map ShapeOfOp xs) c)
  = Ok (VIndex (a + count_single_element (map dims ts))).
Proof.
  intro H. revert c a.
  induction H as [|x t xs ts Hx _ IH]; intros c a Hc Ha Hlt.
  - cbn [map fold_left]. rewrite Hc. unfold count_single_element. cbn.
    now rewrite Z.add_0_r.
  - cbn [map fold_left]. cbn [List.length] in Hlt.
    rewrite count_single_element_cons.
    rewrite (IH _ (a + (if numel (dims t) =? 1 then 1 else 0))).
    + f_equal. f_equal. lia.
    + unfold IsSingleElementShape, one. cbn [eval]. rewrite Hx, Hc.
      cbn [as_tensor as_extents as_index as_bool bind cmpi].
      rewrite (wrap_index_small 1) by lia.
      rewrite wrap_index_small by lia.
      destruct (numel (dims t) =? 1); do 2 f_equal; lia.
    + destruct (numel (dims t) =? 1); lia.
    + destruct (numel (dims t) =? 1); lia.
Qed.

Lemma eval_counter op ts :
  has_values (getOperands op) ts ->
  Z.of_nat (List.length (getOperands op)) < 2 ^ 63 ->
  ev (counter op) = Ok (VIndex (count_single_element (map dims ts))).
Proof.
  intros H Hlt. unfold counter, shapes, transformed_operands.
  rewrite (eval_counter_from _ _ _ 0 H); [reflexivity| |lia|lia].
  reflexivity.
Qed.

Lemma eval_at_most_one_non_scalar op ts :
  has_values (getOperands op) ts ->
  (1 <= List.length (getOperands op))%nat ->
  Z.of_nat (List.length (getOperands op)) < 2 ^ 63 ->
  ev (at_most_one_non_scalar op)
  = Ok (VBool (Z.of_nat (List.length ts) - 1
               <=? count_single_element (map dims ts))).
Proof.
  intros H Hge Hlt. unfold at_most_one_non_scalar. cbn [eval].
  rewrite (eval_counter _ _ H Hlt).
  unfold num_operands_minus_one, num_operands, transformed_operands.
  cbn [eval as_index bind cmpi].
  pose proof (count_single_element_bounds (map dims ts)) as Hb.
  rewrite length_map in Hb.
  rewrite (Forall2_length H) in *.
  rewrite wrap_index_small by lia.
  rewrite !unsigned_index_small by lia.
  do 2 f_equal. apply Z.geb_leb.
Qed.

Lemma eval_equal_shapes_from (s0 : list Z) (v0 : Value) xs ts (c : Value)
  (a : bool) :
  ev v0 = Ok (VExtents s0) ->
  has_values xs ts ->
  ev c = Ok (VBool a) ->
  ev (fold_left
        (fun equal_shapes shape_i =>
           let are_equal := ShapeEqOp v0 shape_i in
           AndOp equal_shapes are_equal)
        (map ShapeOfOp xs) c)
  = Ok (VBool (a && forallb (shape_eqb s0) (map dims ts))).
Proof.
  intros H0 H. revert c a.
  induction H as [|x t xs ts Hx _ IH]; intros c a Hc.
  - cbn. now rewrite Hc, andb_true_r.
  - cbn [map fold_left forallb].
    rewrite (IH _ (a && shape_eqb s0 (dims t))).
    + now rewrite andb_assoc.
    + cbn [eval]. rewrite Hc, H0, Hx. reflexivity.
Qed.

Lemma eval_equal_shapes op t0 t1 ts :
  has_values (getOperands op) (t0 :: t1 :: ts) ->
  ev (equal_shapes op)
  = Ok (VBool (forallb (shape_eqb (dims t0)) (map dims (t1 :: ts)))).
Proof.
  intro H. unfold equal_shapes, shapes, transformed_operands.
  inversion H as [|x0 ? xs0 ? Hx0 H' Hops]; subst.
  inversion H' as [|x1 ? xs1 ? Hx1 H'']; subst.
  cbn [map nth skipn].
  assert (Hs0 : ev (ShapeOfOp x0) = Ok (VExtents (dims t0))).
  { cbn [eval]. rewrite Hx0. reflexivity. }
  rewrite (eval_equal_shapes_from (dims t0) _ _ _ _
             (shape_eqb (dims t0) (dims t1)) Hs0 H'').
  - reflexivity.
  - cbn [eval]. rewrite Hx0, Hx1. reflexivity.
Qed.

Lemma combine_map_same {A B : Type} (g : A -> B) (l : list A) :
  combine l (map g l) = map (fun x => (x, g x)) l.
Proof.
  induction l as [|x l IH]; cbn; [reflexivity|]. now rewrite IH.
Qed.

(** *** Fast path A: at most one operand is not scalar-like *)

Lemma eval_reshaped_operands op ts :
  has_values (getOperands op) ts ->
  mapM (fun x => as_tensor (ev x)) (reshaped_operands op)
  = Ok (map flatten ts).
Proof.
  intro H. unfold reshaped_operands, shapes, transformed_operands.
  rewrite combine_map_same, map_map, mapM_map. apply mapM_Forall2.
  induction H as [|x t xs ts Hx _ IH]; constructor; [|exact IH].
  cbn [eval]. rewrite Hx.
  cbn [as_tensor as_extents as_index bind].
  unfold dynamic_reshape. rewrite numel_singleton, Z.eqb_refl.
  reflexivity.
Qed.

Lemma broadcast2_nil_l (s : list Z) : broadcast2 [] s = Some s.
Proof. unfold broadcast2. cbn. now rewrite rev_involutive. Qed.

Lemma broadcast2_singletons (a n : Z) :
  broadcast2 [a] [n] = option_map (fun d => [d]) (broadcast_dim a n).
Proof.
  unfold broadcast2. cbn [rev app broadcast_rev].
  destruct (broadcast_dim a n); reflexivity.
Qed.

Lemma broadcast_fold_None (ss : list (list Z)) :
  fold_left broadcast_step ss None = None.
Proof. induction ss as [|s ss IH]; cbn; [reflexivity|exact IH]. Qed.

Lemma broadcast_singletons_from (a : Z) (l : list Z) :
  match fold_left broadcast_step (map (fun n => [n]) l) (Some [a]) with
  | Some s => exists m, s = [m]
  | None => True
  end.
Proof.
  revert a. induction l as [|n l IH]; intro a;
    cbn [map fold_left broadcast_step].
  - eauto.
  - rewrite broadcast2_singletons.
    destruct (broadcast_dim a n) as [d|]; cbn [option_map].
    + apply IH.
    + now rewrite broadcast_fold_None.
Qed.

Lemma broadcast_shapes_flat (ts : list (Tensor E)) (s : list Z) :
  ts <> [] ->
  broadcast_shapes (map dims (map flatten ts)) = Some s ->
  exists m, s = [m].
Proof.
  intros Hne Hs. destruct ts as [|t ts]; [congruence|].
  unfold broadcast_shapes in Hs. rewrite map_map in Hs.
  cbn [map fold_left broadcast_step flatten dims] in Hs.
  rewrite broadcast2_nil_l in Hs.
  pose proof (broadcast_singletons_from (numel (dims t))
                (map (fun t => numel (dims t)) ts)) as H.
  rewrite map_map in H. rewrite Hs in H. exact H.
Qed.

Lemma eval_rank_one_result ChloOpTy op ts :
  isBroadcasting ChloOpTy = true ->
  has_values (getOperands op) ts -> ts <> [] ->
  ev (if_at_most_one_non_scalar_result ChloOpTy op)
  = r <- apply_broadcasting E dflt apply_elem ChloOpTy (getAttrs op)
           (map flatten ts) ;;
    Ok (VTensor r).
Proof.
  intros HK H Hne. unfold if_at_most_one_non_scalar_result. cbn [eval].
  rewrite (eval_reshaped_operands _ _ H). cbn [bind].
  unfold apply_op. rewrite HK. unfold apply_broadcasting.
  destruct (broadcast_shapes (map dims (map flatten ts))) as [s|] eqn:Hs;
    [|reflexivity].
  destruct (broadcast_shapes_flat _ _ Hne Hs) as [m ->].
  cbn [bind]. unfold rank_one_result_type. now rewrite checked_rank1.
Qed.

Lemma eval_broadcast_of_shapes xs ts :
  has_values xs ts ->
  ev (BroadcastOp (map ShapeOfOp xs))
  = match broadcast_shapes (map dims ts) with
    | Some s => Ok (VExtents s)
    | None => Undefined
    end.
Proof.
  intro H. cbn [eval]. now rewrite (operands_shapes _ _ H).
Qed.

Lemma eval_extended_result ChloOpTy op ts :
  isBroadcasting ChloOpTy = true ->
  has_values (getOperands op) ts -> ts <> [] ->
  ev (extended_result ChloOpTy op)
  = fast_path_A_value E dflt apply_elem ChloOpTy (getAttrs op)
      (getResultType op) ts.
Proof.
  intros HK H Hne. unfold extended_result, extendToBroadcastShape.
  rewrite eval_DynamicReshapeOp.
  rewrite (eval_rank_one_result _ _ _ HK H Hne).
  unfold shapes, transformed_operands.
  rewrite (eval_broadcast_of_shapes _ _ H).
  unfold fast_path_A_value, result_type.
  destruct (apply_broadcasting _ _ _ _ _ _) as [r| |]; cbn [as_tensor bind];
    try reflexivity.
  destruct (broadcast_shapes (map dims ts)); reflexivity.
Qed.

(** C6: the first test of the n-ary pattern compares, unsigned, the
    number of operands whose shape has exactly one element with N - 1;
    the branch under it reshapes every operand to rank 1, applies the
    operation to them and reshapes the result to the broadcast of all
    operand shapes; when at least N - 1 operands have one element the
    program yields the value of that branch, and for shapes [3] and [1]
    the result has shape [3]. *)
Theorem scalar_like_fast_path :
  forall (ChloOpTy : OpTy) (Adaptor_ : Adaptor) (op : Operation)
         (ts : list (Tensor E)),
    isBroadcasting ChloOpTy = true ->
    has_values (getOperands op) ts ->
    (1 <= List.length (getOperands op))%nat ->
    Z.of_nat (List.length (getOperands op)) < 2 ^ 63 ->
    let N := Z.of_nat (List.length (getOperands op)) in
    let shapes_ := map ShapeOfOp (getOperands op) in
    (* the test *)
    if_condition (if_op ChloOpTy Adaptor_ op)
    = Some (CmpIOp uge (counter op) (ConstantIndexOp (N - 1)))
    /\ ev (counter op)
       = Ok (VIndex (count_single_element (map dims ts)))
    (* the branch *)
    /\ if_then (if_op ChloOpTy Adaptor_ op)
       = Some (YieldOp
                 (DynamicReshapeOp (getResultType op)
                    (HloOp ChloOpTy
                       (RankedTensorType [kDynamicSize]
                          (getElementType (getResultType op)))
                       (reshaped_operands op) (getAttrs op))
                    (BroadcastOp shapes_)))
    /\ mapM (fun x => as_tensor (ev x)) (reshaped_operands op)
       = Ok (map flatten ts)
    (* taking it *)
    /\ (N - 1 <= count_single_element (map dims ts) ->
        ev (if_op ChloOpTy Adaptor_ op)
        = fast_path_A_value E dflt apply_elem ChloOpTy (getAttrs op)
            (getResultType op) ts)
    (* binary operation on shapes [3] and [1] *)
    /\ (forall t1 t2,
           ts = [t1; t2] -> dims t1 = [3] -> dims t2 = [1] ->
           accepts (getResultType op) [3] = true ->
           ev (if_op ChloOpTy Adaptor_ op)
           = Ok (VTensor
                   (mkTensor [3]
                      (map (fun k =>
                              apply_elem ChloOpTy (getAttrs op)
                                [nth k (elems t1) dflt;
                                 nth 0 (elems t2) dflt])
                           (seq 0 3))))).
Proof.
  intros K A op ts HK H Hge Hlt N shapes_.
  assert (Hne : ts <> []).
  { intros ->. inversion H as [Hnil|]. rewrite <- Hnil in Hge.
    cbn in Hge. lia. }
  assert (Htake : N - 1 <= count_single_element (map dims ts) ->
                  ev (if_op K A op)
                  = fast_path_A_value E dflt apply_elem K (getAttrs op)
                      (getResultType op) ts).
  { intro Hc. unfold if_op. cbn [eval].
    rewrite (eval_at_most_one_non_scalar _ _ H Hge Hlt).
    cbn [as_bool bind].
    replace (_ <=? _) with true.
    - cbn [eval_block]. apply eval_extended_result; assumption.
    - symmetry. apply Z.leb_le. subst N.
      rewrite (Forall2_length H) in Hc. exact Hc. }
  repeat split.
  - apply eval_counter; assumption.
  - apply eval_reshaped_operands; assumption.
  - exact Htake.
  - intros [d1 e1] [d2 e2] -> H1 H2 Hadm. cbn [dims] in H1, H2. subst d1 d2.
    rewrite Htake.
    + unfold fast_path_A_value, apply_broadcasting. cbn.
      unfold checked. cbn [conforms dims]. rewrite Hadm. reflexivity.
    + subst N. rewrite (Forall2_length H). cbn. lia.
Qed.

(** *** Fast path B: all operand shapes are equal *)

Lemma eval_if_op_not_scalar_like ChloOpTy Adaptor_ op ts :
  has_values (getOperands op) ts ->
  (1 <= List.length (getOperands op))%nat ->
  Z.of_nat (List.length (getOperands op)) < 2 ^ 63 ->
  count_single_element (map dims ts)
  < Z.of_nat (List.length (getOperands op)) - 1 ->
  ev (if_op ChloOpTy Adaptor_ op) = ev (if_eq_shapes_op ChloOpTy Adaptor_ op).
Proof.
  intros H Hge Hlt Hc. unfold if_op. cbn [eval].
  rewrite (eval_at_most_one_non_scalar _ _ H Hge Hlt). cbn [as_bool bind].
  replace (_ <=? _) with false; [reflexivity|].
  symmetry. apply Z.leb_gt. rewrite <- (Forall2_length H). exact Hc.
Qed.

Lemma eval_if_eq_shapes_op ChloOpTy Adaptor_ op ts :
  has_values (getOperands op) ts ->
  (2 <= List.length (getOperands op))%nat ->
  ev (if_eq_shapes_op ChloOpTy Adaptor_ op)
  = if forallb (shape_eqb (hd [] (map dims ts))) (tl (map dims ts))
    then ev (non_broadcast_op Adaptor_ op)
    else ev (HandleBroadcastAndOp ChloOpTy op (getOperands op)).
Proof.
  intros H Hge. rewrite (Forall2_length H) in Hge.
  destruct ts as [|t0 [|t1 ts]]; cbn [List.length] in Hge; try lia.
  unfold if_eq_shapes_op. cbn [eval].
  rewrite (eval_equal_shapes _ _ _ _ H). reflexivity.
Qed.

(** C5: in the program the n-ary pattern emits, the branch for equal
    operand shapes yields the operation the adaptor creates on the
    original operands; with the adaptor of the elementwise kinds that is
    the non-broadcasting operation applied to the operands themselves,
    with no reshape between the operands and the operation.  When the
    scalar-like test fails and all operand shapes are equal, the program
    yields the value of that operation; for two operands of shape [2,3]
    it is the rank-2 result of shape [2,3]. *)
Theorem equal_shapes_fast_path :
  forall (ChloOpTy HloOpTy : OpTy) (Adaptor_ : Adaptor) (op : Operation)
         (ts : list (Tensor E)),
    let direct := HloOp HloOpTy (getResultType op) (getOperands op) [] in
    has_values (getOperands op) ts ->
    (2 <= List.length (getOperands op))%nat ->
    Z.of_nat (List.length (getOperands op)) < 2 ^ 63 ->
    (* the branch *)
    if_else (if_op ChloOpTy Adaptor_ op)
    = Some (YieldOp (if_eq_shapes_op ChloOpTy Adaptor_ op))
    /\ if_condition (if_eq_shapes_op ChloOpTy Adaptor_ op)
       = Some (equal_shapes op)
    /\ if_then (if_eq_shapes_op ChloOpTy Adaptor_ op)
       = Some (YieldOp (CreateOp Adaptor_ op (getResultType op)
                                 (getOperands op)))
    /\ CreateOp (HloNaryElementwiseAdaptor HloOpTy) op (getResultType op)
                (getOperands op)
       = direct
    /\ hlo_operands direct = getOperands op
    /\ reaches_reshape_block (YieldOp direct)
       = existsb reaches_reshape (getOperands op)
    (* taking it *)
    /\ (forall s,
           count_single_element (map dims ts)
           < Z.of_nat (List.length (getOperands op)) - 1 ->
           Forall (fun t => dims t = s) ts ->
           ev (if_op ChloOpTy Adaptor_ op)
           = ev (CreateOp Adaptor_ op (getResultType op) (getOperands op)))
    (* two operands of shape [2,3] *)
    /\ (forall t1 t2,
           ts = [t1; t2] -> dims t1 = [2; 3] -> dims t2 = [2; 3] ->
           isBroadcasting HloOpTy = false ->
           accepts (getResultType op) [2; 3] = true ->
           ev (if_op ChloOpTy (HloNaryElementwiseAdaptor HloOpTy) op)
           = Ok (VTensor
                   (mkTensor [2; 3]
                      (map (fun k =>
                              apply_elem HloOpTy []
                                [nth k (elems t1) dflt;
                                 nth k (elems t2) dflt])
                           (seq 0 6))))).
Proof.
  intros K H A op ts direct Hts Hge Hlt.
  assert (Htake : forall A' s,
             count_single_element (map dims ts)
             < Z.of_nat (List.length (getOperands op)) - 1 ->
             Forall (fun t => dims t = s) ts ->
             ev (if_op K A' op)
             = ev (CreateOp A' op (getResultType op) (getOperands op))).
  { intros A' s Hc Hall.
    rewrite (eval_if_op_not_scalar_like _ _ _ _ Hts ltac:(lia) Hlt Hc).
    rewrite (eval_if_eq_shapes_op _ _ _ _ Hts Hge).
    replace (forallb _ _) with true; [reflexivity|].
    symmetry. apply forallb_forall. intros x Hx. apply shape_eqb_eq.
    destruct ts as [|t0 ts']; [destruct Hx|].
    cbn [map hd tl] in *. inversion Hall as [|? ? H0 Hrest]; subst.
    apply in_map_iff in Hx as [t [<- Ht]].
    rewrite Forall_forall in Hrest. symmetry. now apply Hrest. }
  repeat split.
  - apply Htake.
  - intros [d1 e1] [d2 e2] -> H1 H2 HH Hadm. cbn [dims] in H1, H2.
    subst d1 d2.
    rewrite (Htake _ [2; 3]).
    + cbn [CreateOp HloNaryElementwiseAdaptor]. rewrite eval_HloOp.
      rewrite (operands_tensors _ _ Hts).
      cbn [bind]. unfold apply_op. rewrite HH. cbn.
      unfold checked. cbn [conforms dims]. rewrite Hadm. reflexivity.
    + rewrite (Forall2_length Hts). cbn. lia.
    + repeat constructor.
Qed.

(** *** The rank ladder *)

Lemma eval_reduced_shapes xs ts :
  has_values xs ts ->
  List.length (minimum_broadcast_shapes (map dims ts)) = List.length xs ->
  Forall2 (fun v r => ev v = Ok (VExtents r))
          (reduced_shapes xs) (minimum_broadcast_shapes (map dims ts)).
Proof.
  intros H Hlen. unfold reduced_shapes, HandleBroadcastAndOp_shapes.
  rewrite length_map, <- Hlen.
  set (rs := minimum_broadcast_shapes (map dims ts)).
  assert (Hnth : forall i r, nth_error rs i = Some r ->
             ev (MinimumBroadcastShapesOp (map ShapeOfOp xs) i)
             = Ok (VExtents r)).
  { intros i r Hi. cbn [eval]. rewrite (operands_shapes _ _ H).
    cbn [bind]. fold rs. now rewrite Hi. }
  clearbody rs. clear Hlen.
  assert (Hgen : forall k pre, rs = k ->
             forall suf, pre ++ suf = k ->
             Forall2 (fun v r => ev v = Ok (VExtents r))
               (map (fun i => MinimumBroadcastShapesOp (map ShapeOfOp xs) i)
                    (seq (List.length pre) (List.length suf))) suf).
  { intros k pre -> suf. revert pre.
    induction suf as [|r suf IH]; intros pre Hk; cbn; constructor.
    - apply Hnth. rewrite <- Hk. rewrite nth_error_app2 by lia.
      now rewrite Nat.sub_diag.
    - specialize (IH (pre ++ [r])). rewrite length_app in IH.
      cbn [List.length] in IH. rewrite Nat.add_1_r in IH. apply IH.
      now rewrite <- app_assoc. }
  exact (Hgen rs [] eq_refl rs eq_refl).
Qed.

Lemma fold_left_max (l : list Z) (a : Z) :
  0 <= a -> fold_left Z.max l a = Z.max a (fold_right Z.max 0 l).
Proof.
  revert a. induction l as [|x l IH]; intros a Ha; cbn.
  - lia.
  - destruct (Z.le_gt_cases 0 x) as [Hx|Hx].
    + rewrite IH by lia. lia.
    + rewrite Z.max_l by lia. rewrite IH by lia.
      pose proof (IH 0 ltac:(lia)) as H0. lia.
Qed.

Lemma eval_rank_fold_from vs rs (g : Value) (a : Z) :
  Forall2 (fun v r => ev v = Ok (VExtents r)) vs rs ->
  ev g = Ok (VIndex a) ->
  ev (fold_left
        (fun greater_rank shape =>
           let rank := RankOp shape in
           match greater_rank with
           | NullValue => rank
           | _ =>
               let greater_rank_compare := CmpIOp sgt greater_rank rank in
               SelectOp greater_rank_compare greater_rank rank
           end) vs g)
  = Ok (VIndex (fold_left Z.max
                  (map (fun s => Z.of_nat (List.length s)) rs) a)).
Proof.
  intro H. revert g a.
  induction H as [|v r vs rs Hv _ IH]; intros g a Hg.
  - exact Hg.
  - cbn [fold_left map]. apply IH.
    assert (Hsel : ev (SelectOp (CmpIOp sgt g (RankOp v)) g (RankOp v))
                   = Ok (VIndex (Z.max a (Z.of_nat (List.length r))))).
    { cbn [eval]. rewrite Hg, Hv.
      cbn [as_extents as_index as_bool bind cmpi].
      destruct (a >? Z.of_nat (List.length r)) eqn:Hcmp; f_equal; f_equal.
      - apply Z.gtb_lt in Hcmp. lia.
      - rewrite Z.gtb_ltb in Hcmp. apply Z.ltb_ge in Hcmp. lia. }
    destruct g; try exact Hsel. discriminate Hg.
Qed.

Lemma eval_greater_rank xs ts :
  has_values xs ts -> xs <> [] ->
  List.length (minimum_broadcast_shapes (map dims ts)) = List.length xs ->
  ev (greater_rank xs)
  = Ok (VIndex (max_rank (minimum_broadcast_shapes (map dims ts)))).
Proof.
  intros H Hne Hlen. pose proof (eval_reduced_shapes _ _ H Hlen) as Hred.
  unfold greater_rank, max_rank.
  destruct Hred as [|v r vs rs Hv Hrest].
  - exfalso. destruct xs; [congruence|discriminate].
  - cbn [fold_left map fold_right].
    rewrite (eval_rank_fold_from _ _ _ (Z.of_nat (List.length r)) Hrest).
    + rewrite fold_left_max by lia. reflexivity.
    + cbn [eval]. rewrite Hv. reflexivity.
Qed.

Lemma eval_GreaterRankIsN (g : Value) (r i : Z) :
  ev g = Ok (VIndex r) -> - 2 ^ 63 <= i < 2 ^ 63 ->
  ev (GreaterRankIsN g i) = Ok (VBool (r =? i)).
Proof.
  intros Hg Hi. unfold GreaterRankIsN. cbn [eval]. rewrite Hg.
  cbn [as_index bind cmpi]. now rewrite wrap_index_small.
Qed.

Section Ladder_semantics.
Variables (ChloOpTy : OpTy) (op : Operation) (operands : list Value).
Variable r : Z.
Hypothesis Hrank : ev (greater_rank operands) = Ok (VIndex r).

Lemma kMaxRankSpecialization_range :
  kMaxRankSpecialization operands = 5 \/ kMaxRankSpecialization operands = 8.
Proof.
  rewrite kMaxRankSpecialization_cases.
  destruct (2 <? List.length operands)%nat; auto.
Qed.

Lemma eval_else_block (n : nat) (i : Z) :
  0 <= i -> i + Z.of_nat n = kMaxRankSpecialization operands ->
  evb (else_block ChloOpTy op operands n i)
  = if (i <=? r) && (r <=? kMaxRankSpecialization operands)
    then evb (rank_specialization ChloOpTy op operands r)
    else Abort (rank_assertion_message operands).
Proof.
  pose proof kMaxRankSpecialization_range as HM.
  revert i. induction n as [|n IH]; intros i Hi Hsum.
  - cbn [else_block eval_block].
    rewrite (eval_GreaterRankIsN _ _ _ Hrank) by lia.
    cbn [as_bool bind]. rewrite Nat2Z.inj_0, Z.add_0_r in Hsum. subst i.
    destruct (r =? kMaxRankSpecialization operands) eqn:Heq.
    + apply Z.eqb_eq in Heq. rewrite <- Heq. now rewrite Z.leb_refl.
    + apply Z.eqb_neq in Heq.
      destruct (kMaxRankSpecialization operands <=? r) eqn:H1,
               (r <=? kMaxRankSpecialization operands) eqn:H2;
        try reflexivity.
      apply Z.leb_le in H1, H2. lia.
  - cbn [else_block eval_block].
    unfold createIfOpForRankSpecializedBroadcastAndOp. cbn [eval].
    rewrite (eval_GreaterRankIsN _ _ _ Hrank) by lia.
    cbn [as_bool bind]. rewrite IH by lia.
    destruct (r =? i) eqn:Heq.
    + apply Z.eqb_eq in Heq. rewrite <- Heq in *. rewrite Z.leb_refl.
      replace (r <=? kMaxRankSpecialization operands) with true
        by (symmetry; apply Z.leb_le; lia).
      reflexivity.
    + apply Z.eqb_neq in Heq.
      destruct (i + 1 <=? r) eqn:H1, (i <=? r) eqn:H2; try reflexivity;
        [apply Z.leb_le in H1; apply Z.leb_gt in H2; lia|].
      apply Z.leb_gt in H1. apply Z.leb_le in H2. lia.
Qed.

Lemma eval_rank_ladder :
  ev (HandleBroadcastAndOp_if_op ChloOpTy op operands)
  = if (1 <=? r) && (r <=? kMaxRankSpecialization operands)
    then evb (rank_specialization ChloOpTy op operands r)
    else Abort (rank_assertion_message operands).
Proof.
  pose proof kMaxRankSpecialization_range as HM.
  unfold HandleBroadcastAndOp_if_op,
    createIfOpForRankSpecializedBroadcastAndOp. cbn [eval].
  rewrite (eval_GreaterRankIsN _ _ _ Hrank) by lia.
  cbn [as_bool bind]. rewrite eval_else_block by lia.
  destruct (r =? 1) eqn:Heq.
  - apply Z.eqb_eq in Heq. rewrite Heq.
    replace (1 <=? kMaxRankSpecialization operands) with true
      by (symmetry; apply Z.leb_le; lia).
    reflexivity.
  - apply Z.eqb_neq in Heq.
    destruct (2 <=? r) eqn:H1, (1 <=? r) eqn:H2; try reflexivity;
      [apply Z.leb_le in H1; apply Z.leb_gt in H2; lia|].
    apply Z.leb_gt in H1. apply Z.leb_le in H2. lia.
Qed.
End Ladder_semantics.

Lemma else_chain_assertion_else_block ChloOpTy op operands (n : nat) (i : Z) :
  else_chain_assertion (else_block ChloOpTy op operands n i)
  = Some (rank_assertion_message operands).
Proof.
  revert i. induction n as [|n IH]; intro i; [reflexivity|].
  cbn [else_block else_chain_assertion
       createIfOpForRankSpecializedBroadcastAndOp]. apply IH.
Qed.

Lemma eval_HandleBroadcastAndOp_abort ChloOpTy op operands ts :
  has_values operands ts -> operands <> [] ->
  List.length (minimum_broadcast_shapes (map dims ts))
  = List.length operands ->
  kMaxRankSpecialization operands
  < max_rank (minimum_broadcast_shapes (map dims ts)) ->
  ev (HandleBroadcastAndOp ChloOpTy op operands)
  = Abort (rank_assertion_message operands).
Proof.
  intros H Hne Hlen Hgt. unfold HandleBroadcastAndOp.
  rewrite eval_DynamicReshapeOp.
  rewrite (eval_rank_ladder _ _ _ _ (eval_greater_rank _ _ H Hne Hlen)).
  replace (_ <=? kMaxRankSpecialization operands) with false
    by (symmetry; apply Z.leb_gt; exact Hgt).
  rewrite andb_false_r. reflexivity.
Qed.

(** C2: when the largest rank of the minimized operand shapes exceeds
    the bound M of the ladder (so in particular when it is M + 1), the
    ladder ends in the assertion whose message names M (5 or 8), running
    it aborts with that message, and so does the program that replaces
    the operation when neither fast path is taken: no tensor is
    produced. *)
Theorem rank_above_bound_aborts :
  forall (ChloOpTy : OpTy) (Adaptor_ : Adaptor) (op : Operation)
         (ts : list (Tensor E)),
    let operands := getOperands op in
    let M := kMaxRankSpecialization operands in
    let msg := rank_assertion_message operands in
    has_values operands ts ->
    operands <> [] ->
    List.length (minimum_broadcast_shapes (map dims ts))
    = List.length operands ->
    M < max_rank (minimum_broadcast_shapes (map dims ts)) ->
    (* the assertion that ends the ladder and its message *)
    else_chain_assertion
      (YieldOp (HandleBroadcastAndOp_if_op ChloOpTy op operands))
    = Some msg
    /\ (M = 5 /\
        msg = "Input for dynamic binary op lowering was of a rank greater than 5"%string
        \/ M = 8 /\
        msg = "Input for dynamic binary op lowering was of a rank greater than 8"%string)
    (* the ladder aborts *)
    /\ ev (HandleBroadcastAndOp ChloOpTy op operands) = Abort msg
    (* and so does the program that replaces the operation, when
       neither fast path is taken *)
    /\ ((2 <= List.length operands)%nat ->
        Z.of_nat (List.length operands) < 2 ^ 63 ->
        count_single_element (map dims ts)
        < Z.of_nat (List.length operands) - 1 ->
        ~ (exists s, Forall (fun t => dims t = s) ts) ->
        ev (if_op ChloOpTy Adaptor_ op) = Abort msg).
Proof.
  intros K A op ts operands M msg H Hne Hlen Hgt. subst operands.
  assert (Habort : ev (HandleBroadcastAndOp K op (getOperands op))
                   = Abort msg)
    by (apply (eval_HandleBroadcastAndOp_abort _ _ _ _ H Hne Hlen Hgt)).
  split; [|split; [|split]].
  - unfold HandleBroadcastAndOp_if_op,
      createIfOpForRankSpecializedBroadcastAndOp.
    cbn [else_chain_assertion]. apply else_chain_assertion_else_block.
  - subst msg M. unfold rank_assertion_message.
    rewrite kMaxRankSpecialization_cases.
    destruct (2 <? List.length (getOperands op))%nat; [right|left];
      split; reflexivity.
  - exact Habort.
  - intros Hge Hlt Hc Hneq.
    rewrite (eval_if_op_not_scalar_like _ _ _ _ H ltac:(lia) Hlt Hc).
    rewrite (eval_if_eq_shapes_op _ _ _ _ H Hge).
    destruct (forallb _ _) eqn:Hall; [|exact Habort].
    exfalso. apply Hneq. exists (hd [] (map dims ts)).
    destruct ts as [|t0 ts']; [constructor|].
    cbn [map hd tl] in *. constructor; [reflexivity|].
    apply Forall_forall. intros t Ht.
    rewrite forallb_forall in Hall. symmetry. apply shape_eqb_eq, Hall.
    now apply in_map.
Qed.

(** *** Broadcasting and padding with leading extents of 1 *)

Lemma broadcast_dim_1_r (x : Z) : broadcast_dim x 1 = Some x.
Proof.
  unfold broadcast_dim. destruct (x =? 1) eqn:Hx; [|reflexivity].
  apply Z.eqb_eq in Hx. now subst.
Qed.

Lemma broadcast_dim_1_l (x : Z) : broadcast_dim 1 x = Some x.
Proof. reflexivity. Qed.

Lemma broadcast_rev_nil_r (a : list Z) : broadcast_rev a [] = Some a.
Proof. destruct a; reflexivity. Qed.

Lemma broadcast_rev_ones_r (a : list Z) (n : nat) :
  broadcast_rev a (repeat 1 n) = Some (a ++ repeat 1 (n - List.length a)).
Proof.
  revert n. induction a as [|x a IH]; intro n.
  - cbn. now rewrite Nat.sub_0_r.
  - destruct n as [|n]; cbn [repeat broadcast_rev].
    + cbn. now rewrite app_nil_r.
    + rewrite broadcast_dim_1_r, IH. reflexivity.
Qed.

Lemma broadcast_rev_ones_l (a : list Z) (n : nat) :
  broadcast_rev (repeat 1 n) a = Some (a ++ repeat 1 (n - List.length a)).
Proof.
  revert n. induction a as [|x a IH]; intro n.
  - rewrite broadcast_rev_nil_r. cbn. now rewrite Nat.sub_0_r.
  - destruct n as [|n]; cbn [repeat broadcast_rev].
    + cbn. now rewrite app_nil_r.
    + rewrite broadcast_dim_1_l, IH. reflexivity.
Qed.

Lemma broadcast_rev_length (a b c : list Z) :
  broadcast_rev a b = Some c ->
  List.length c = Nat.max (List.length a) (List.length b).
Proof.
  revert b c. induction a as [|x a IH]; intros b c H.
  - cbn in H. injection H as <-. reflexivity.
  - destruct b as [|y b].
    + cbn in H. injection H as <-. cbn. reflexivity.
    + cbn [broadcast_rev] in H.
      destruct (broadcast_dim x y) as [d|]; [|discriminate].
      destruct (broadcast_rev a b) as [c'|] eqn:Hc; [|discriminate].
      injection H as <-. cbn [List.length]. rewrite (IH _ _ Hc). lia.
Qed.

Lemma broadcast_rev_pad (a b c : list Z) (n : nat) :
  broadcast_rev a b = Some c ->
  broadcast_rev (a ++ repeat 1 (n - List.length a))
                (b ++ repeat 1 (n - List.length b))
  = Some (c ++ repeat 1 (n - List.length c)).
Proof.
  revert b c n. induction a as [|x a IH]; intros b c n H.
  - cbn in H. injection H as <-. cbn [app List.length].
    rewrite Nat.sub_0_r, broadcast_rev_ones_l, length_app, repeat_length.
    rewrite <- app_assoc, <- repeat_app.
    replace (n - List.length b + (n - (List.length b + (n - List.length b))))%nat
      with (n - List.length b)%nat by lia.
    reflexivity.
  - destruct b as [|y b].
    + cbn in H. injection H as <-. cbn [app List.length].
      rewrite Nat.sub_0_r. rewrite broadcast_rev_ones_r.
      change (x :: a ++ repeat 1 (n - S (List.length a)))
        with ((x :: a) ++ repeat 1 (n - List.length (x :: a))).
      rewrite length_app, repeat_length.
      rewrite <- app_assoc, <- repeat_app.
      set (m := List.length (x :: a)).
      replace (n - m + (n - (m + (n - m))))%nat with (n - m)%nat by lia.
      reflexivity.
    + cbn [broadcast_rev] in H.
      destruct (broadcast_dim x y) as [d|] eqn:Hd; [|discriminate].
      destruct (broadcast_rev a b) as [c'|] eqn:Hc; [|discriminate].
      injection H as <-. cbn [List.length app broadcast_rev]. rewrite Hd.
      specialize (IH _ _ (n - 1)%nat Hc).
      replace (n - S (List.length a))%nat
        with (n - 1 - List.length a)%nat by lia.
      replace (n - S (List.length b))%nat
        with (n - 1 - List.length b)%nat by lia.
      rewrite IH.
      replace (n - 1 - List.length c')%nat
        with (n - S (List.length c'))%nat by lia.
      reflexivity.
Qed.

Lemma rev_ones (n : nat) : rev (repeat 1 n) = repeat 1 n.
Proof.
  induction n as [|n IH]; [reflexivity|].
  cbn [repeat rev]. rewrite IH. clear IH.
  induction n as [|n IH]; [reflexivity|]. cbn. now rewrite IH.
Qed.

Lemma rev_pad_shape (r : Z) (s : list Z) :
  rev (pad_shape r s)
  = rev s ++ repeat 1 (Z.to_nat r - List.length (rev s)).
Proof.
  unfold pad_shape. now rewrite rev_app_distr, length_rev, rev_ones.
Qed.

Lemma length_pad_shape (r : Z) (s : list Z) :
  List.length (pad_shape r s) = Nat.max (Z.to_nat r) (List.length s).
Proof. unfold pad_shape. rewrite length_app, repeat_length. lia. Qed.

Lemma pad_shape_id (r : Z) (s : list Z) :
  (Z.to_nat r <= List.length s)%nat -> pad_shape r s = s.
Proof.
  intro H. unfold pad_shape.
  replace (Z.to_nat r - List.length s)%nat with 0%nat by lia. reflexivity.
Qed.

Lemma numel_app (a b : list Z) : numel (a ++ b) = numel a * numel b.
Proof.
  induction a as [|x a IH]; cbn [app]; rewrite ?numel_cons.
  - change (numel []) with 1. lia.
  - rewrite IH. lia.
Qed.

Lemma numel_ones (n : nat) : numel (repeat 1 n) = 1.
Proof.
  induction n as [|n IH]; [reflexivity|].
  cbn [repeat]. rewrite numel_cons. lia.
Qed.

Lemma numel_pad_shape (r : Z) (s : list Z) : numel (pad_shape r s) = numel s.
Proof. unfold pad_shape. rewrite numel_app, numel_ones. lia. Qed.

Lemma broadcast2_pad (r : Z) (a b c : list Z) :
  broadcast2 a b = Some c ->
  broadcast2 (pad_shape r a) (pad_shape r b) = Some (pad_shape r c).
Proof.
  unfold broadcast2. intro H.
  destruct (broadcast_rev (rev a) (rev b)) as [c'|] eqn:Hc; [|discriminate].
  cbn [option_map] in H. injection H as <-.
  rewrite !rev_pad_shape.
  rewrite (broadcast_rev_pad _ _ _ _ Hc). cbn [option_map]. f_equal.
  unfold pad_shape. now rewrite rev_app_distr, rev_ones, length_rev.
Qed.

Lemma broadcast2_ones_r (r : Z) (s : list Z) :
  broadcast2 s (repeat 1 (Z.to_nat r)) = Some (pad_shape r s).
Proof.
  unfold broadcast2. rewrite rev_ones, broadcast_rev_ones_r.
  cbn [option_map]. f_equal. unfold pad_shape.
  now rewrite rev_app_distr, rev_ones, rev_involutive, length_rev.
Qed.

Lemma broadcast2_length (a b c : list Z) :
  broadcast2 a b = Some c ->
  List.length c = Nat.max (List.length a) (List.length b).
Proof.
  unfold broadcast2. intro H.
  destruct (broadcast_rev (rev a) (rev b)) as [c'|] eqn:Hc; [|discriminate].
  cbn in H. injection H as <-.
  rewrite length_rev, (broadcast_rev_length _ _ _ Hc), !length_rev.
  reflexivity.
Qed.

Lemma source_index_ones (n : nat) (tgt : list Z) (k : Z) :
  source_index (repeat 1 n) tgt k = 0.
Proof.
  revert tgt k. induction n as [|n IH]; intros tgt k; [reflexivity|].
  destruct tgt as [|t tgt]; [reflexivity|].
  cbn [repeat source_index]. rewrite IH. reflexivity.
Qed.

Lemma source_index_app_ones (src : list Z) (n : nat) (tgt : list Z) (k : Z) :
  source_index (src ++ repeat 1 n) tgt k = source_index src tgt k.
Proof.
  revert tgt k. induction src as [|s src IH]; intros tgt k.
  - cbn [app]. rewrite source_index_ones. reflexivity.
  - destruct tgt as [|t tgt]; [reflexivity|].
    cbn [app source_index]. now rewrite IH.
Qed.

Lemma source_index_pad_shape (r : Z) (s tgt : list Z) (k : Z) :
  source_index (rev (pad_shape r s)) tgt k = source_index (rev s) tgt k.
Proof. rewrite rev_pad_shape. apply source_index_app_ones. Qed.

Lemma broadcast_fold_pad (r : Z) (ss : list (list Z)) (a T : list Z) :
  fold_left broadcast_step ss (Some a) = Some T ->
  fold_left broadcast_step (map (pad_shape r) ss) (Some (pad_shape r a))
  = Some (pad_shape r T).
Proof.
  revert a. induction ss as [|s ss IH]; intros a H;
    cbn [map fold_left broadcast_step] in *.
  - now injection H as <-.
  - destruct (broadcast2 a s) as [c|] eqn:Hc.
    + rewrite (broadcast2_pad r _ _ _ Hc). now apply IH.
    + now rewrite broadcast_fold_None in H.
Qed.

Lemma broadcast_fold_length (ss : list (list Z)) (a T : list Z) :
  fold_left broadcast_step ss (Some a) = Some T ->
  Z.of_nat (List.length T) = Z.max (Z.of_nat (List.length a)) (max_rank ss).
Proof.
  revert a. induction ss as [|s ss IH]; intros a H;
    cbn [fold_left broadcast_step] in *.
  - injection H as <-. unfold max_rank. cbn. lia.
  - destruct (broadcast2 a s) as [c|] eqn:Hc.
    + rewrite (IH _ H). apply broadcast2_length in Hc.
      unfold max_rank. cbn [map fold_right]. fold (max_rank ss). lia.
    + now rewrite broadcast_fold_None in H.
Qed.

Lemma max_rank_nonneg (ss : list (list Z)) : 0 <= max_rank ss.
Proof.
  unfold max_rank. induction ss as [|s ss IH]; cbn [map fold_right]; lia.
Qed.

Lemma max_rank_bound (ss : list (list Z)) :
  Forall (fun s => Z.of_nat (List.length s) <= max_rank ss) ss.
Proof.
  induction ss as [|s ss IH]; constructor.
  - unfold max_rank. cbn [map fold_right]. lia.
  - eapply Forall_impl; [|exact IH]. cbn beta. intros s' Hs'.
    unfold max_rank in *. cbn [map fold_right]. lia.
Qed.

Lemma broadcast_shapes_length (ss : list (list Z)) (T : list Z) :
  broadcast_shapes ss = Some T -> Z.of_nat (List.length T) = max_rank ss.
Proof.
  intro H. apply broadcast_fold_length in H. cbn [List.length] in H.
  pose proof (max_rank_nonneg ss). lia.
Qed.

Lemma broadcast_shapes_pad (ss : list (list Z)) (T : list Z) :
  ss <> [] ->
  broadcast_shapes ss = Some T ->
  broadcast_shapes (map (pad_shape (max_rank ss)) ss) = Some T.
Proof.
  intros Hne H. pose proof (broadcast_shapes_length _ _ H) as Hlen.
  destruct ss as [|s ss]; [congruence|].
  unfold broadcast_shapes in *. cbn [map fold_left broadcast_step] in *.
  rewrite broadcast2_nil_l in *.
  rewrite (broadcast_fold_pad (max_rank (s :: ss)) _ _ _ H).
  f_equal. apply pad_shape_id. lia.
Qed.

Lemma max_rank_cons (s : list Z) (ss : list (list Z)) :
  max_rank (s :: ss) = Z.max (Z.of_nat (List.length s)) (max_rank ss).
Proof. reflexivity. Qed.

Lemma max_rank_padded (r : Z) (ss : list (list Z)) :
  ss <> [] -> 0 <= r ->
  Forall (fun s => Z.of_nat (List.length s) <= r) ss ->
  max_rank (map (pad_shape r) ss) = r.
Proof.
  intros Hne Hr Hall.
  induction Hall as [|s ss Hs Hrest IH]; [congruence|].
  cbn [map]. rewrite max_rank_cons, length_pad_shape.
  destruct ss as [|s' ss].
  - unfold max_rank. cbn. lia.
  - rewrite IH by discriminate. lia.
Qed.

(** *** One branch of the ladder *)

Lemma accepts_known_rank (r : Z) (n : nat) :
  Z.of_nat n = r ->
  accepts (RankedTensorType [r] IndexType) [Z.of_nat n] = true.
Proof.
  intros <-. cbn. unfold dim_conforms. rewrite Z.eqb_refl.
  now rewrite orb_true_r.
Qed.

Lemma accepts_dynamic (r : Z) (e : Type_) (s : list Z) :
  List.length s = Z.to_nat r ->
  accepts (RankedTensorType (repeat kDynamicSize (Z.to_nat r)) e) s = true.
Proof. intros <-. apply shape_conforms_dynamic. Qed.

Lemma eval_createBroadcastToKnownRank (rv : Value) (red : list Z) (r : Z) :
  ev rv = Ok (VExtents red) ->
  0 <= r -> Z.of_nat (List.length red) <= r ->
  ev (createBroadcastToKnownRank rv r) = Ok (VExtents (pad_shape r red)).
Proof.
  intros Hrv Hr Hlen. unfold createBroadcastToKnownRank.
  cbn [eval mapM]. rewrite Hrv. cbn [as_extents bind].
  unfold checked at 1. cbn [conforms].
  rewrite accepts_known_rank by (rewrite repeat_length; lia).
  cbn [as_extents bind]. unfold broadcast_shapes.
  cbn [fold_left broadcast_step].
  rewrite broadcast2_nil_l. cbn [broadcast_step].
  rewrite broadcast2_ones_r. cbn [bind].
  unfold checked. cbn [conforms].
  rewrite accepts_known_rank; [reflexivity|].
  rewrite length_pad_shape. lia.
Qed.

Lemma eval_specialized_operands (r : Z) xs rsv ts reds :
  has_values xs ts ->
  Forall2 (fun v red => ev v = Ok (VExtents red)) rsv reds ->
  Forall2 (fun t red => numel red = numel (dims t)) ts reds ->
  Forall2 (fun x red => accepts (getType x) red = true) xs reds ->
  Forall (fun red => Z.of_nat (List.length red) <= r) reds ->
  0 <= r ->
  mapM (fun x => as_tensor (ev x))
    (map (fun it : Value * Value =>
            let (operand, shape) := it in
            DynamicReshapeOp
              (RankedTensorType (repeat kDynamicSize (Z.to_nat r))
                                (getElementType (getType operand)))
              operand (createBroadcastToKnownRank shape r))
         (combine
            (map (fun it : Value * Value =>
                    let (operand, reduced_shape) := it in
                    DynamicReshapeOp (getType operand) operand
                                     reduced_shape)
                 (combine xs rsv)) rsv))
  = Ok (rank_r_operands r ts reds).
Proof.
  intros H. revert rsv reds.
  induction H as [|x t xs ts Hx _ IH]; intros rsv reds Hrs Hn Hty Hlen Hr.
  - inversion Hn; subst. reflexivity.
  - inversion Hn as [|? red ? reds' Hn1 Hn']; subst.
    inversion Hrs as [|rv ? rsv' ? Hrv Hrs']; subst.
    inversion Hty as [|? ? ? ? Hty1 Hty']; subst.
    inversion Hlen as [|? ? Hlen1 Hlen']; subst.
    cbn [combine map mapM].
    rewrite (IH _ _ Hrs' Hn' Hty' Hlen' Hr).
    rewrite !eval_DynamicReshapeOp, Hx, Hrv.
    cbn [as_tensor as_extents bind].
    unfold dynamic_reshape at 1. rewrite Hn1, Z.eqb_refl. cbn [bind].
    unfold checked at 1. cbn [conforms dims]. rewrite Hty1.
    cbn [as_tensor bind].
    rewrite (eval_createBroadcastToKnownRank _ _ _ Hrv Hr Hlen1).
    cbn [as_extents bind]. unfold dynamic_reshape. cbn [dims elems].
    rewrite numel_pad_shape, Z.eqb_refl. cbn [bind].
    unfold checked. cbn [conforms dims].
    rewrite accepts_dynamic by (rewrite length_pad_shape; lia).
    reflexivity.
Qed.

Lemma dims_rank_r_operands (r : Z) (ts : list (Tensor E)) reds :
  List.length ts = List.length reds ->
  map dims (rank_r_operands r ts reds) = map (pad_shape r) reds.
Proof.
  unfold rank_r_operands. revert reds.
  induction ts as [|t ts IH]; intros [|red reds] Hlen;
    cbn in Hlen; try lia; [reflexivity|].
  cbn [combine map fst snd dims]. f_equal. apply IH. lia.
Qed.

(** The value of the branch for rank [r], when [r] is the largest rank
    of the minimized shapes: the operation applied to the operands at
    rank [r]. *)
Lemma eval_rank_specialization ChloOpTy op xs ts :
  let reds := minimum_broadcast_shapes (map dims ts) in
  let r := max_rank reds in
  isBroadcasting ChloOpTy = true ->
  has_values xs ts -> xs <> [] ->
  Forall2 (fun t red => numel red = numel (dims t)) ts reds ->
  Forall2 (fun x red => accepts (getType x) red = true) xs reds ->
  evb (rank_specialization ChloOpTy op xs r)
  = t <- apply_broadcasting E dflt apply_elem ChloOpTy (getAttrs op)
           (rank_r_operands r ts reds) ;;
    Ok (VTensor t).
Proof.
  intros reds r HK H Hne Hn Hty.
  assert (Hlen : List.length reds = List.length xs).
  { rewrite <- (Forall2_length Hn). symmetry. apply (Forall2_length H). }
  pose proof (eval_reduced_shapes _ _ H Hlen) as Hrs. fold reds in Hrs.
  pose proof (max_rank_bound reds) as Hb. fold r in Hb.
  pose proof (max_rank_nonneg reds) as Hr. fold r in Hr.
  pose proof (eval_specialized_operands r _ _ _ _ H Hrs Hn Hty Hb Hr)
    as Hops.
  unfold rank_specialization, createRankSpecializedBroadcastAndOp,
    HandleBroadcastAndOp_reshaped_operands.
  rewrite eval_block_YieldOp, eval_CastOp, eval_HloOp.
  rewrite Hops. cbn [bind]. unfold apply_op. rewrite HK.
  unfold apply_broadcasting.
  rewrite dims_rank_r_operands by (rewrite (Forall2_length Hn); reflexivity).
  destruct (broadcast_shapes (map (pad_shape r) reds)) as [tgt|] eqn:Htgt;
    [|reflexivity].
  cbn [bind]. unfold checked at 1. cbn [conforms dims].
  rewrite accepts_dynamic; [reflexivity|].
  apply broadcast_shapes_length in Htgt.
  rewrite max_rank_padded in Htgt; [lia| |exact Hr|exact Hb].
  destruct reds; [|discriminate]. destruct xs; [congruence|discriminate].
Qed.

(** *** The contract of [chlo.minimum_broadcast_shapes] *)

Lemma forallb2_Forall2 {A B : Type} (f : A -> B -> bool) l l' :
  forallb2 f l l' = true -> Forall2 (fun a b => f a b = true) l l'.
Proof.
  revert l'. induction l as [|a l IH]; intros [|b l'] H; cbn in H;
    try discriminate; constructor.
  - now apply andb_true_iff in H.
  - apply IH. now apply andb_true_iff in H.
Qed.

Lemma Forall2_map_dims {P : list Z -> list Z -> Prop}
  (ts : list (Tensor E)) (reds : list (list Z)) :
  Forall2 P (map dims ts) reds ->
  Forall2 (fun t red => P (dims t) red) ts reds.
Proof.
  revert reds. induction ts as [|t ts IH]; intros reds H;
    inversion H; subst; constructor; auto.
Qed.

Lemma map_fst_combine {A B : Type} (l : list A) (l' : list B) :
  List.length l = List.length l' -> map fst (combine l l') = l.
Proof.
  revert l'. induction l as [|a l IH]; intros [|b l'] H; cbn in H;
    try lia; [reflexivity|]. cbn. f_equal. apply IH. lia.
Qed.

Lemma gather_rank_r_operands (r : Z) (ts : list (Tensor E)) reds
  (T T' : list Z) (k : nat) :
  (k < Z.to_nat (numel T))%nat ->
  Forall2 (fun t red => same_broadcast_positions (dims t) red T T' = true)
          ts reds ->
  gather E dflt (rank_r_operands r ts reds) T' k = gather E dflt ts T k.
Proof.
  intros Hk H. unfold gather, rank_r_operands.
  induction H as [|t red ts reds Hpos _ IH]; [reflexivity|].
  cbn [combine map fst snd dims elems]. f_equal; [|exact IH].
  rewrite source_index_pad_shape.
  unfold same_broadcast_positions in Hpos.
  rewrite forallb_forall in Hpos.
  specialize (Hpos k ltac:(apply in_seq; lia)).
  apply Z.eqb_eq in Hpos. now rewrite Hpos.
Qed.

(** The ladder with the final reshape against the operation it
    replaces. *)
Lemma eval_HandleBroadcastAndOp ChloOpTy op ts :
  let xs := getOperands op in
  let reds := minimum_broadcast_shapes (map dims ts) in
  isBroadcasting ChloOpTy = true ->
  has_values xs ts -> xs <> [] ->
  Forall2 (fun x red => accepts (getType x) red = true) xs reds ->
  minimized_correctly (map dims ts) reds = true ->
  1 <= max_rank reds <= kMaxRankSpecialization xs ->
  ev (HandleBroadcastAndOp ChloOpTy op xs) = ev (opResult ChloOpTy op).
Proof.
  intros xs reds HK H Hne Hty Hmin Hr.
  unfold minimized_correctly in Hmin. fold reds in Hmin.
  apply andb_true_iff in Hmin as [Hn Hmin].
  apply forallb2_Forall2, Forall2_map_dims in Hn.
  assert (Hn' : Forall2 (fun t red => numel red = numel (dims t)) ts reds).
  { eapply Forall2_impl; [|exact Hn]. cbn beta. intros. now apply Z.eqb_eq. }
  assert (Hlen : List.length reds = List.length xs).
  { rewrite <- (Forall2_length Hn). symmetry. apply (Forall2_length H). }
  unfold HandleBroadcastAndOp. rewrite eval_DynamicReshapeOp.
  rewrite (eval_rank_ladder _ _ _ _ (eval_greater_rank _ _ H Hne Hlen)).
  fold reds.
  replace (1 <=? max_rank reds) with true by (symmetry; apply Z.leb_le; lia).
  replace (max_rank reds <=? kMaxRankSpecialization xs) with true
    by (symmetry; apply Z.leb_le; lia).
  cbn [andb].
  rewrite (eval_rank_specialization _ _ _ _ HK H Hne Hn' Hty). fold reds.
  unfold HandleBroadcastAndOp_broadcast_shape, HandleBroadcastAndOp_shapes.
  rewrite (eval_broadcast_of_shapes _ _ H).
  unfold opResult. cbn [eval]. fold xs.
  rewrite (operands_tensors _ _ H). cbn [bind].
  unfold apply_op. rewrite HK. unfold apply_broadcasting.
  rewrite dims_rank_r_operands by (rewrite (Forall2_length Hn); reflexivity).
  destruct (broadcast_shapes (map dims ts)) as [T|] eqn:HT.
  - destruct (broadcast_shapes reds) as [T'|] eqn:HT'; [|discriminate].
    apply andb_true_iff in Hmin as [Hnum Hpos].
    apply Z.eqb_eq in Hnum.
    apply forallb2_Forall2, Forall2_map_dims in Hpos.
    assert (Hreds : reds <> []).
    { destruct reds; [|discriminate]. destruct xs; [congruence|discriminate]. }
    rewrite (broadcast_shapes_pad _ _ Hreds HT').
    cbn [as_tensor as_extents bind]. unfold dynamic_reshape.
    cbn [dims elems]. rewrite <- Hnum, Z.eqb_refl. cbn [bind getType].
    unfold createIfOpForRankSpecializedBroadcastAndOp. cbn [getType].
    do 3 f_equal. unfold broadcasting_elems. rewrite Hnum.
    apply map_ext_in. intros k Hk. apply in_seq in Hk. f_equal.
    apply gather_rank_r_operands; [lia|exact Hpos].
  - destruct (broadcast_shapes (map (pad_shape (max_rank reds)) reds));
      reflexivity.
Qed.

(** X16: the guards of the ladder are the tests "largest rank of the
    minimized shapes equals r" for r = 1, 2, ..., M in this order; when
    that rank r is in 1..M, the guard for r is the only one that holds
    and the ladder yields what the branch for rank r yields; when in
    addition the type of every operand accepts its minimized shape and
    the minimized shapes broadcast like the original ones, the branch
    yields the operation applied to the operands at rank r, and that
    result reshaped to the broadcast of the operands' shapes is the value
    of the operation itself. *)
Theorem rank_ladder_dispatch :
  forall (ChloOpTy : OpTy) (op : Operation) (ts : list (Tensor E)),
    let xs := getOperands op in
    let reds := minimum_broadcast_shapes (map dims ts) in
    let r := max_rank reds in
    let M := kMaxRankSpecialization xs in
    let ladder := rank_ladder (HandleBroadcastAndOp_if_op ChloOpTy op xs) in
    has_values xs ts ->
    xs <> [] ->
    List.length reds = List.length xs ->
    1 <= r <= M ->
    (* ascending order, each branch under its own test *)
    ladder = map (guarded_branch ChloOpTy op xs) (ranks_up_to M)
    /\ (forall i, fst (guarded_branch ChloOpTy op xs i)
                  = CmpIOp eq_ (greater_rank xs) (ConstantIndexOp i))
    /\ ev (greater_rank xs) = Ok (VIndex r)
    (* exactly one test holds *)
    /\ Forall2 (fun gb i => ev (fst gb) = Ok (VBool (r =? i)))
               ladder (ranks_up_to M)
    /\ filter (fun i => r =? i) (ranks_up_to M) = [r]
    (* the branch for rank r is the one executed *)
    /\ ev (HandleBroadcastAndOp_if_op ChloOpTy op xs)
       = evb (rank_specialization ChloOpTy op xs r)
    (* its result is the operation at rank r, and reshaped to the
       broadcast shape it is the operation on the operands *)
    /\ (isBroadcasting ChloOpTy = true ->
        Forall2 (fun x red => accepts (getType x) red = true) xs reds ->
        minimized_correctly (map dims ts) reds = true ->
        evb (rank_specialization ChloOpTy op xs r)
        = (t <- apply_broadcasting E dflt apply_elem ChloOpTy (getAttrs op)
                  (rank_r_operands r ts reds) ;;
           Ok (VTensor t))
        /\ ev (HandleBroadcastAndOp ChloOpTy op xs)
           = ev (opResult ChloOpTy op)).
Proof.
  intros K op ts xs reds r M ladder H Hne Hlen Hr.
  pose proof (eval_greater_rank _ _ H Hne Hlen) as Hg.
  fold xs reds r in Hg.
  pose proof (kMaxRankSpecialization_range xs) as HM. fold M in HM.
  assert (Hladder : ladder = map (guarded_branch K op xs) (ranks_up_to M)).
  { subst ladder. apply rank_ladder_if_op. }
  split; [exact Hladder|]. split; [reflexivity|]. split; [exact Hg|].
  split; [|split; [|split]].
  - rewrite Hladder. clear Hladder.
    assert (Hall : Forall (fun i => - 2 ^ 63 <= i < 2 ^ 63) (ranks_up_to M)).
    { destruct HM as [HM | HM]; rewrite HM;
        [change (ranks_up_to 5) with [1; 2; 3; 4; 5]
        |change (ranks_up_to 8) with [1; 2; 3; 4; 5; 6; 7; 8]];
        repeat (apply Forall_cons; [lia|]); apply Forall_nil. }
    induction Hall as [|i l Hi _ IH]; cbn [map]; constructor; [|exact IH].
    cbn [fst]. apply (eval_GreaterRankIsN _ _ _ Hg Hi).
  - clear - Hr HM. clearbody r M.
    assert (Hcases : r = 1 \/ r = 2 \/ r = 3 \/ r = 4 \/ r = 5 \/ r = 6
                     \/ r = 7 \/ r = 8) by lia.
    destruct HM as [-> | ->];
      destruct Hcases as [-> | [-> | [-> | [-> | [-> | [-> | [-> | ->]]]]]]];
      try reflexivity; lia.
  - rewrite (eval_rank_ladder _ _ _ _ Hg). fold M.
    replace (1 <=? r) with true by (symmetry; apply Z.leb_le; lia).
    replace (r <=? M) with true by (symmetry; apply Z.leb_le; lia).
    reflexivity.
  - intros HK Hty Hmin. split.
    + apply (eval_rank_specialization K op xs ts HK H Hne); [|exact Hty].
      unfold minimized_correctly in Hmin.
      apply andb_true_iff in Hmin as [Hn _].
      apply forallb2_Forall2, Forall2_map_dims in Hn.
      eapply Forall2_impl; [|exact Hn]. cbn beta. intros.
      now apply Z.eqb_eq.
    + apply (eval_HandleBroadcastAndOp K op ts HK H Hne Hty Hmin Hr).
Qed.

(** C8 as the code has it: with more than one operand the shape the
    result is restored to, whose number of elements is the length of
    the flattened operands, is [shape.any] of the operands' shapes (the
    shape of the one operand when there is one), and at run time that is
    the operands' common shape when their shapes are equal and undefined
    when they differ: shapes are not broadcast. *)
Theorem restore_shape_is_any_shape :
  forall (OpTy_ : OpTy) (op : Operation) (ts : list (Tensor E))
         (rewritten : Value),
    has_values (getOperands op) ts ->
    ElementwiseOpConversion OpTy_ op = Some rewritten ->
    let shape := match getOperands op with
                 | [x] => ShapeOfOp x
                 | xs => AnyOp (map ShapeOfOp xs)
                 end in
    reshape_output_shape rewritten = Some shape
    /\ (exists flat,
           reshape_operand rewritten = Some flat
           /\ hlo_operands flat
              = map (fun operand =>
                       DynamicReshapeOp
                         (RankedTensorType [kDynamicSize]
                            (getElementType (getType operand)))
                         operand (FromElementsOp (NumElementsOp shape)))
                    (getOperands op))
    /\ ev shape = (s <- shape_any (map dims ts) ;; Ok (VExtents s))
    /\ (forall s, Forall (fun t => dims t = s) ts ->
                  ev shape = Ok (VExtents s)
                  /\ ev (FromElementsOp (NumElementsOp shape))
                     = Ok (VExtents [numel s])).
Proof.
  intros K op ts v Hts Hv shape.
  unfold ElementwiseOpConversion in Hv.
  destruct (negb _) eqn:Hany in Hv; [discriminate|].
  injection Hv as <-.
  assert (Hshape : shape
                   = match map ShapeOfOp (getOperands op) with
                     | [front] => front
                     | _ => AnyOp (map ShapeOfOp (getOperands op))
                     end).
  { subst shape. destruct (getOperands op) as [|x [|y xs]]; reflexivity. }
  assert (Hev : ev shape = (s <- shape_any (map dims ts) ;; Ok (VExtents s))).
  { rewrite Hshape. now apply eval_elementwise_shape. }
  split; [|split; [|split]].
  - cbn [reshape_output_shape]. now rewrite Hshape.
  - eexists. split; [reflexivity|]. cbn [hlo_operands]. now rewrite Hshape.
  - exact Hev.
  - intros s Hall.
    assert (Hs : shape_any (map dims ts) = Ok s).
    { apply shape_any_Ok. split.
      - intro Hnil. destruct ts; [|discriminate].
        inversion Hts as [Hops|]. rewrite <- Hops in Hany. discriminate.
      - rewrite Forall_map. eapply Forall_impl; [|exact Hall].
        cbn beta. congruence. }
    rewrite Hs in Hev. cbn [bind] in Hev. split; [exact Hev|].
    cbn [eval]. rewrite Hev. reflexivity.
Qed.

(* ===================================================================== *)
(** ** The replacement against the operation it replaces *)
(* ===================================================================== *)

(** *** Shapes with one element, and positions under broadcasting *)

Lemma numel_rev (s : list Z) : numel (rev s) = numel s.
Proof.
  induction s as [|d s IH]; [reflexivity|].
  cbn [rev]. rewrite numel_app, IH, numel_singleton, numel_cons. lia.
Qed.

Lemma valid_shape_numel (s : list Z) : valid_shape s -> 0 <= numel s.
Proof.
  unfold valid_shape. induction 1 as [|d s Hd _ IH].
  - change (numel []) with 1. lia.
  - rewrite numel_cons. nia.
Qed.

Lemma source_index_same (l pad : list Z) (k : Z) :
  Forall (fun d => 0 <= d) l -> 0 <= k < numel l ->
  source_index l (l ++ pad) k = k.
Proof.
  intros Hl. revert k. induction Hl as [|d l Hd _ IH]; intros k Hk.
  - change (numel []) with 1 in Hk. cbn. lia.
  - rewrite numel_cons in Hk. cbn [source_index app].
    assert (Hpos : 0 < d).
    { destruct (Z.eq_dec d 0) as [-> | Hne]; [|lia].
      rewrite Z.mul_0_l in Hk. lia. }
    assert (Hq : 0 <= k / d < numel l).
    { split; [apply Z.div_pos; lia|apply Z.div_lt_upper_bound; lia]. }
    rewrite (IH _ Hq). destruct (d =? 1) eqn:Hd1.
    + apply Z.eqb_eq in Hd1. subst d. rewrite Z.div_1_r. lia.
    + pose proof (Z.div_mod k d ltac:(lia)). lia.
Qed.

Lemma single_element_ones (s : list Z) :
  valid_shape s -> numel s = 1 -> exists n, s = repeat 1 n.
Proof.
  unfold valid_shape. induction 1 as [|d s Hd Hs IH]; intro Hn.
  - now exists 0%nat.
  - rewrite numel_cons in Hn. pose proof (valid_shape_numel s Hs) as Hp.
    destruct (Z.eq_mul_1_nonneg d (numel s) Hd Hn) as [-> Hn'].
    destruct (IH Hn') as [n ->]. now exists (S n).
Qed.

Lemma count_single_element_all (ss : list (list Z)) :
  count_single_element ss = Z.of_nat (List.length ss) ->
  Forall (fun s => numel s = 1) ss.
Proof.
  induction ss as [|s ss IH]; intro H; [constructor|].
  rewrite count_single_element_cons in H.
  pose proof (count_single_element_bounds ss) as Hb.
  cbn [List.length] in H.
  destruct (numel s =? 1) eqn:Hs; [|lia].
  constructor; [now apply Z.eqb_eq|apply IH; lia].
Qed.

(** At most one operand has a shape with other than one element. *)
Lemma scalar_like_split (ts : list (Tensor E)) :
  ts <> [] ->
  Z.of_nat (List.length ts) - 1 <= count_single_element (map dims ts) ->
  exists pre t0 post,
    ts = pre ++ t0 :: post
    /\ Forall (fun t => numel (dims t) = 1) pre
    /\ Forall (fun t => numel (dims t) = 1) post.
Proof.
  induction ts as [|t ts IH]; intros Hne Hc; [congruence|].
  cbn [map] in Hc. rewrite count_single_element_cons in Hc.
  cbn [List.length] in Hc.
  destruct (numel (dims t) =? 1) eqn:Ht.
  - destruct ts as [|t' ts'].
    + exists [], t, []. repeat split; constructor.
    + destruct IH as [pre [t0 [post [Heq [Hpre Hpost]]]]];
        [discriminate|cbn [List.length] in *; lia|].
      exists (t :: pre), t0, post. rewrite Heq.
      repeat split; [|exact Hpost].
      constructor; [now apply Z.eqb_eq|exact Hpre].
  - exists [], t, ts. repeat split; [constructor|].
    assert (Hall : Forall (fun s => numel s = 1) (map dims ts)).
    { apply count_single_element_all.
      pose proof (count_single_element_bounds (map dims ts)) as Hb.
      rewrite length_map in *. lia. }
    rewrite Forall_map in Hall. exact Hall.
Qed.

Lemma broadcast2_ones_l (n : nat) (s : list Z) :
  broadcast2 (repeat 1 n) s = Some (repeat 1 (n - List.length s) ++ s).
Proof.
  unfold broadcast2. rewrite rev_ones, broadcast_rev_ones_l.
  cbn [option_map].
  rewrite rev_app_distr, rev_ones, rev_involutive, length_rev. reflexivity.
Qed.

Lemma broadcast_fold_ones (ss : list (list Z)) (j : nat) (s0 : list Z) :
  Forall (fun s => exists n, s = repeat 1 n) ss ->
  exists c, fold_left broadcast_step ss (Some (repeat 1 j ++ s0))
            = Some (repeat 1 c ++ s0).
Proof.
  intro H. revert j. induction H as [|s ss [n ->] _ IH]; intro j.
  - now exists j.
  - cbn [fold_left broadcast_step].
    rewrite <- (Nat2Z.id n), broadcast2_ones_r. unfold pad_shape.
    rewrite app_assoc, <- repeat_app. apply IH.
Qed.

Lemma broadcast_shapes_scalar_like (pre post : list (list Z)) (s0 : list Z) :
  Forall (fun s => exists n, s = repeat 1 n) pre ->
  Forall (fun s => exists n, s = repeat 1 n) post ->
  exists c, broadcast_shapes (pre ++ s0 :: post) = Some (repeat 1 c ++ s0).
Proof.
  intros Hpre Hpost. unfold broadcast_shapes. rewrite fold_left_app.
  destruct (broadcast_fold_ones pre 0 [] Hpre) as [a Ha].
  cbn [repeat app] in Ha. rewrite Ha. cbn [fold_left broadcast_step].
  rewrite app_nil_r, broadcast2_ones_l. apply broadcast_fold_ones, Hpost.
Qed.

Lemma gather_scalar_like (pre post : list (Tensor E)) (t0 : Tensor E)
  (c k : nat) :
  Forall (fun t => exists n, dims t = repeat 1 n) pre ->
  Forall (fun t => exists n, dims t = repeat 1 n) post ->
  valid_shape (dims t0) ->
  Z.of_nat k < numel (dims t0) ->
  gather E dflt (map flatten (pre ++ t0 :: post)) [numel (dims t0)] k
  = gather E dflt (pre ++ t0 :: post) (repeat 1 c ++ dims t0) k.
Proof.
  intros Hpre Hpost Hv Hk.
  assert (Hones : forall l,
             Forall (fun t => exists n, dims t = repeat 1 n) l ->
             map (fun t =>
                    nth (Z.to_nat
                           (source_index (rev (dims (flatten t)))
                              (rev [numel (dims t0)]) (Z.of_nat k)))
                        (elems (flatten t)) dflt) l
             = map (fun t =>
                      nth (Z.to_nat
                             (source_index (rev (dims t))
                                (rev (repeat 1 c ++ dims t0)) (Z.of_nat k)))
                          (elems t) dflt) l).
  { intros l Hl. apply map_ext_in. intros t Ht.
    rewrite Forall_forall in Hl. destruct (Hl t Ht) as [n Hn].
    unfold flatten. cbn [dims elems]. rewrite Hn, numel_ones, rev_ones.
    change (rev [1]) with (repeat 1 1).
    now rewrite !source_index_ones. }
  unfold gather. rewrite map_map, !map_app. cbn [map].
  rewrite (Hones pre Hpre), (Hones post Hpost). do 3 f_equal.
  unfold flatten. cbn [dims elems rev app].
  rewrite source_index_rank1 by lia.
  rewrite rev_app_distr, rev_ones.
  rewrite source_index_same; [reflexivity| |rewrite numel_rev; lia].
  apply Forall_rev. exact Hv.
Qed.

(** With at most one operand that has other than one element, the
    operation on the flattened operands, reshaped to the broadcast of the
    operands' shapes, is the operation on the operands. *)
Lemma fast_path_A_value_direct kind attrs result_type
  (ts : list (Tensor E)) :
  ts <> [] ->
  Forall (fun t => valid_shape (dims t)) ts ->
  Z.of_nat (List.length ts) - 1 <= count_single_element (map dims ts) ->
  fast_path_A_value E dflt apply_elem kind attrs result_type ts
  = r <- apply_broadcasting E dflt apply_elem kind attrs ts ;;
    checked result_type (VTensor r).
Proof.
  intros Hne Hv Hc.
  destruct (scalar_like_split ts Hne Hc) as [pre [t0 [post [-> [Hpre Hpost]]]]].
  apply Forall_app in Hv as [Hvpre Hv]. inversion Hv as [|? ? Hv0 Hvpost].
  subst.
  assert (Hones : forall l,
             Forall (fun t => valid_shape (dims t)) l ->
             Forall (fun t => numel (dims t) = 1) l ->
             Forall (fun t : Tensor E => exists n, dims t = repeat 1 n) l).
  { intros l H1 H2. rewrite Forall_forall in *. intros t Ht.
    apply single_element_ones; auto. }
  pose proof (Hones pre Hvpre Hpre) as Opre.
  pose proof (Hones post Hvpost Hpost) as Opost.
  destruct (broadcast_shapes_scalar_like (map dims pre) (map dims post)
              (dims t0)) as [c HT]; try (now rewrite Forall_map).
  assert (Hflat : forall l : list (Tensor E),
             Forall (fun t => numel (dims t) = 1) l ->
             Forall (fun s => exists n, s = repeat 1 n)
                    (map dims (map flatten l))).
  { intros l Hl. rewrite map_map, Forall_map.
    eapply Forall_impl; [|exact Hl]. cbn beta. intros t Ht.
    exists 1%nat. unfold flatten. cbn [dims]. now rewrite Ht. }
  destruct (broadcast_shapes_scalar_like
              (map dims (map flatten pre)) (map dims (map flatten post))
              [numel (dims t0)] (Hflat pre Hpre) (Hflat post Hpost))
    as [c' HT'].
  assert (Hc' : c' = 0%nat).
  { destruct c' as [|c']; [reflexivity|].
    assert (Hfl : broadcast_shapes
                    (map dims (map flatten (pre ++ t0 :: post)))
                  = Some (repeat 1 (S c') ++ [numel (dims t0)]))
      by (rewrite !map_app; exact HT').
    apply broadcast_shapes_flat in Hfl as [m Hm];
      [|now destruct pre].
    apply (f_equal (@List.length Z)) in Hm.
    rewrite length_app, repeat_length in Hm. cbn in Hm. lia. }
  subst c'. cbn [repeat app] in HT'.
  assert (HTd : broadcast_shapes (map dims (pre ++ t0 :: post))
                = Some (repeat 1 c ++ dims t0))
    by (rewrite map_app; exact HT).
  assert (HTf : broadcast_shapes (map dims (map flatten (pre ++ t0 :: post)))
                = Some [numel (dims t0)])
    by (rewrite !map_app; exact HT').
  unfold fast_path_A_value, apply_broadcasting.
  rewrite HTf, HTd. cbn [bind]. unfold dynamic_reshape. cbn [dims elems].
  rewrite numel_app, numel_ones, numel_singleton, Z.mul_1_l, Z.eqb_refl.
  cbn [bind]. do 3 f_equal.
  unfold broadcasting_elems.
  rewrite numel_app, numel_ones, numel_singleton, Z.mul_1_l.
  apply map_ext_in. intros k Hk. apply in_seq in Hk. f_equal.
  pose proof (valid_shape_numel _ Hv0).
  apply gather_scalar_like; auto. lia.
Qed.

Lemma eval_opResult kind op ts :
  has_values (getOperands op) ts ->
  ev (opResult kind op)
  = r <- apply_op E dflt apply_elem kind (getAttrs op) ts ;;
    checked (getResultType op) (VTensor r).
Proof.
  intro H. unfold opResult. rewrite eval_HloOp.
  now rewrite (operands_tensors _ _ H).
Qed.

Lemma has_values_nonempty xs (ts : list (Tensor E)) :
  has_values xs ts -> (1 <= List.length xs)%nat -> ts <> [].
Proof.
  intros H Hge ->. inversion H as [Hnil|]. rewrite <- Hnil in Hge.
  cbn in Hge. lia.
Qed.

Lemma matchAndRewrite_if_op ChloOpTy Adaptor_ op rewritten :
  matchAndRewrite ChloOpTy Adaptor_ op = Some rewritten ->
  rewritten = if_op ChloOpTy Adaptor_ op.
Proof.
  unfold matchAndRewrite.
  destruct (negb _); [discriminate|]. destruct (negb _); [discriminate|].
  congruence.
Qed.

Lemma eval_if_op_scalar_like ChloOpTy Adaptor_ op ts :
  isBroadcasting ChloOpTy = true ->
  has_values (getOperands op) ts ->
  (1 <= List.length (getOperands op))%nat ->
  Z.of_nat (List.length (getOperands op)) < 2 ^ 63 ->
  Forall (fun t => valid_shape (dims t)) ts ->
  Z.of_nat (List.length (getOperands op)) - 1
  <= count_single_element (map dims ts) ->
  ev (if_op ChloOpTy Adaptor_ op) = ev (opResult ChloOpTy op).
Proof.
  intros HK H Hge Hlt Hv Hc.
  pose proof (has_values_nonempty _ _ H Hge) as Hne.
  rewrite (Forall2_length H) in Hc.
  unfold if_op. cbn [eval].
  rewrite (eval_at_most_one_non_scalar _ _ H Hge Hlt). cbn [as_bool bind].
  replace (_ <=? _) with true by (symmetry; now apply Z.leb_le).
  cbn [eval_block].
  etransitivity; [apply (eval_extended_result _ _ _ HK H Hne)|].
  rewrite (fast_path_A_value_direct _ _ _ _ Hne Hv Hc).
  rewrite (eval_opResult _ _ _ H). unfold apply_op. now rewrite HK.
Qed.

(** X7: when at least N - 1 of the N operands have exactly one element,
    the program the n-ary pattern puts in place of the operation computes
    what the operation computes on the operands as they are: flattening
    every operand to rank 1 and reshaping the result to the broadcast of
    the shapes loses nothing. *)
Theorem scalar_like_fast_path_preserves_value :
  forall (ChloOpTy : OpTy) (Adaptor_ : Adaptor) (op : Operation)
         (rewritten : Value) (ts : list (Tensor E)),
    matchAndRewrite ChloOpTy Adaptor_ op = Some rewritten ->
    isBroadcasting ChloOpTy = true ->
    has_values (getOperands op) ts ->
    (1 <= List.length (getOperands op))%nat ->
    Z.of_nat (List.length (getOperands op)) < 2 ^ 63 ->
    Forall (fun t => valid_shape (dims t)) ts ->
    Z.of_nat (List.length (getOperands op)) - 1
    <= count_single_element (map dims ts) ->
    ev rewritten = ev (opResult ChloOpTy op).
Proof.
  intros K A op v ts Hm HK H Hge Hlt Hv Hc.
  rewrite (matchAndRewrite_if_op _ _ _ _ Hm).
  now apply (eval_if_op_scalar_like K A op ts).
Qed.

(** *** The scalar pattern *)

Lemma broadcast2_nil_r (s : list Z) : broadcast2 s [] = Some s.
Proof.
  unfold broadcast2. cbn [rev]. rewrite broadcast_rev_nil_r.
  cbn [option_map]. now rewrite rev_involutive.
Qed.

Lemma source_index_self (s : list Z) (k : Z) :
  valid_shape s -> 0 <= k < numel s ->
  source_index (rev s) (rev s) k = k.
Proof.
  intros Hv Hk.
  pose proof (source_index_same (rev s) [] k) as H.
  rewrite app_nil_r in H. apply H; [now apply Forall_rev|].
  now rewrite numel_rev.
Qed.

Lemma eval_scalar_against_tensor ChloOpTy op (lhs rhs rewritten : Value)
  (t1 t2 : Tensor E) :
  isBroadcasting ChloOpTy = true ->
  ConvertUnrankedScalarDynamicBroadcastBinaryOp ChloOpTy op lhs rhs
  = Some rewritten ->
  ev lhs = Ok (VTensor t1) -> ev rhs = Ok (VTensor t2) ->
  valid_shape (dims t1) -> valid_shape (dims t2) ->
  (scalar_against_unranked lhs rhs /\ dims t1 = []
   \/ scalar_against_unranked rhs lhs /\ dims t2 = []) ->
  ev rewritten
  = r <- apply_broadcasting E dflt apply_elem ChloOpTy (getAttrs op)
           [t1; t2] ;;
    checked (getResultType op) (VTensor r).
Proof.
  intros HK Hv H1 H2 Hv1 Hv2 Hsc.
  unfold ConvertUnrankedScalarDynamicBroadcastBinaryOp in Hv.
  destruct Hsc as [[Hsc Hd] | [Hsc Hd]].
  - pose proof (proj2 (is_scalar_spec lhs rhs) Hsc) as Hl.
    assert (Hr : isa_RankedTensorType (getType rhs)
                 && empty (getShape (getType rhs))
                 && isa_UnrankedTensorType (getType lhs) = false).
    { destruct (_ && _ && _) eqn:Hr in |- *; [|reflexivity].
      apply is_scalar_spec in Hr. destruct (not_both_scalar _ _ Hsc Hr). }
    rewrite Hl, Hr in Hv. cbn [xorb negb] in Hv. injection Hv as <-.
    destruct t1 as [d1 e1]. cbn [dims] in Hd. subst d1.
    cbn [eval mapM]. rewrite H1, H2.
    cbn [as_tensor as_extents as_index bind dims].
    unfold dynamic_reshape at 1. rewrite numel_singleton, Z.eqb_refl.
    cbn [bind]. rewrite checked_rank1. cbn [as_tensor bind].
    unfold apply_op. rewrite HK. unfold apply_broadcasting.
    cbn [map dims]. unfold broadcast_shapes.
    cbn [fold_left broadcast_step]. rewrite !broadcast2_nil_l.
    cbn [broadcast_step]. rewrite !broadcast2_nil_l.
    cbn [bind]. rewrite checked_rank1. cbn [as_tensor bind].
    unfold dynamic_reshape. cbn [dims elems].
    rewrite numel_singleton, Z.eqb_refl. cbn [bind].
    do 3 f_equal. unfold broadcasting_elems. rewrite numel_singleton.
    apply map_ext_in. intros k Hk. apply in_seq in Hk.
    pose proof (valid_shape_numel _ Hv2).
    unfold gather. cbn [map dims elems rev app]. do 4 f_equal.
    rewrite source_index_rank1 by lia.
    rewrite source_index_self; [reflexivity|exact Hv2|lia].
  - pose proof (proj2 (is_scalar_spec rhs lhs) Hsc) as Hr.
    assert (Hl : isa_RankedTensorType (getType lhs)
                 && empty (getShape (getType lhs))
                 && isa_UnrankedTensorType (getType rhs) = false).
    { destruct (_ && _ && _) eqn:Hl in |- *; [|reflexivity].
      apply is_scalar_spec in Hl. destruct (not_both_scalar _ _ Hsc Hl). }
    rewrite Hl, Hr in Hv. cbn [xorb negb] in Hv. injection Hv as <-.
    destruct t2 as [d2 e2]. cbn [dims] in Hd. subst d2.
    cbn [eval mapM]. rewrite H1, H2.
    cbn [as_tensor as_extents as_index bind dims].
    unfold dynamic_reshape at 1. rewrite numel_singleton, Z.eqb_refl.
    cbn [bind]. rewrite checked_rank1. cbn [as_tensor bind].
    unfold apply_op. rewrite HK. unfold apply_broadcasting.
    cbn [map dims]. unfold broadcast_shapes.
    cbn [fold_left broadcast_step]. rewrite !broadcast2_nil_l.
    cbn [broadcast_step]. rewrite !broadcast2_nil_r.
    cbn [bind]. rewrite checked_rank1. cbn [as_tensor bind].
    unfold dynamic_reshape. cbn [dims elems].
    rewrite numel_singleton, Z.eqb_refl. cbn [bind].
    do 3 f_equal. unfold broadcasting_elems. rewrite numel_singleton.
    apply map_ext_in. intros k Hk. apply in_seq in Hk.
    pose proof (valid_shape_numel _ Hv1).
    unfold gather. cbn [map dims elems rev app]. do 3 f_equal.
    rewrite source_index_rank1 by lia.
    rewrite source_index_self; [reflexivity|exact Hv1|lia].
Qed.

Lemma accepts_rank0 (t : Type_) (s : list Z) :
  is_rank0_ranked_tensor t -> accepts t s = true -> s = [].
Proof.
  intros [e ->] H. cbn in H. now destruct s.
Qed.

Lemma eval_scalar_pattern ChloOpTy op rewritten (ts : list (Tensor E)) :
  isBroadcasting ChloOpTy = true ->
  ScalarBroadcast_matchAndRewrite ChloOpTy op = Some rewritten ->
  List.length (getOperands op) = 2%nat ->
  has_values (getOperands op) ts ->
  Forall2 (fun x t => accepts (getType x) (dims t) = true)
          (getOperands op) ts ->
  Forall (fun t => valid_shape (dims t)) ts ->
  ev rewritten = ev (opResult ChloOpTy op)
  /\ 1 <= count_single_element (map dims ts).
Proof.
  intros HK Hm Hlen H Hty Hv.
  rewrite (eval_opResult _ _ _ H).
  unfold ScalarBroadcast_matchAndRewrite in Hm.
  destruct (getOperands op) as [|lhs [|rhs [|? ?]]]; try discriminate Hlen.
  inversion H as [|? t1 ? ts1 H1 Hrest]; subst.
  inversion Hrest as [|? t2 ? ts2 H2 Hnil]; subst.
  inversion Hnil; subst.
  inversion Hty as [|? ? ? ? Hty1 Hty']; subst.
  inversion Hty' as [|? ? ? ? Hty2 _]; subst.
  inversion Hv as [|? ? Hv1 Hv']; subst.
  inversion Hv' as [|? ? Hv2 _]; subst.
  cbn [nth] in Hm.
  assert (Hcase : scalar_against_unranked lhs rhs /\ dims t1 = []
                  \/ scalar_against_unranked rhs lhs /\ dims t2 = []).
  { assert (Hne : ConvertUnrankedScalarDynamicBroadcastBinaryOp
                    ChloOpTy op lhs rhs <> None) by congruence.
    destruct (scalar_match_cases _ _ _ _ Hne) as [Hl | Hr].
    - left. apply is_scalar_spec in Hl. split; [exact Hl|].
      exact (accepts_rank0 _ _ (proj1 Hl) Hty1).
    - right. apply is_scalar_spec in Hr. split; [exact Hr|].
      exact (accepts_rank0 _ _ (proj1 Hr) Hty2). }
  split.
  - rewrite (eval_scalar_against_tensor _ _ _ _ _ _ _ HK Hm H1 H2 Hv1 Hv2
               Hcase).
    unfold apply_op. now rewrite HK.
  - cbn [map]. rewrite !count_single_element_cons.
    pose proof (count_single_element_bounds []) as Hb.
    destruct Hcase as [[_ ->] | [_ ->]]; change (numel []) with 1;
      cbn [Z.eqb Pos.eqb]; destruct (numel _ =? 1); lia.
Qed.

(** X8: the scalar pattern preserves the value of the operation: on a
    rank-0 operand and an unranked operand, in either order, the emitted
    subgraph computes what the broadcasting operation computes on the two
    operands. *)
Theorem scalar_pattern_preserves_value :
  forall (ChloOpTy : OpTy) (op : Operation) (rewritten : Value)
         (ts : list (Tensor E)),
    isBroadcasting ChloOpTy = true ->
    ScalarBroadcast_matchAndRewrite ChloOpTy op = Some rewritten ->
    List.length (getOperands op) = 2%nat ->
    has_values (getOperands op) ts ->
    Forall2 (fun x t => accepts (getType x) (dims t) = true)
            (getOperands op) ts ->
    Forall (fun t => valid_shape (dims t)) ts ->
    ev rewritten = ev (opResult ChloOpTy op).
Proof.
  intros K op v ts HK Hm Hlen H Hty Hv.
  exact (proj1 (eval_scalar_pattern K op v ts HK Hm Hlen H Hty Hv)).
Qed.

(** X9: the scalar pattern and the n-ary pattern are registered for the
    same broadcasting operations; on an operation both of them match,
    the two replacements compute the same value, so the result does not
    depend on which of the two the driver applies. *)
Theorem scalar_and_nary_patterns_agree :
  forall (ChloOpTy : OpTy) (Adaptor_ : Adaptor) (op : Operation)
         (by_scalar by_nary : Value) (ts : list (Tensor E)),
    isBroadcasting ChloOpTy = true ->
    ScalarBroadcast_matchAndRewrite ChloOpTy op = Some by_scalar ->
    matchAndRewrite ChloOpTy Adaptor_ op = Some by_nary ->
    List.length (getOperands op) = 2%nat ->
    has_values (getOperands op) ts ->
    Forall2 (fun x t => accepts (getType x) (dims t) = true)
            (getOperands op) ts ->
    Forall (fun t => valid_shape (dims t)) ts ->
    ev by_scalar = ev by_nary.
Proof.
  intros K A op v1 v2 ts HK Hs Hn Hlen H Hty Hv.
  destruct (eval_scalar_pattern K op v1 ts HK Hs Hlen H Hty Hv) as [-> Hc].
  rewrite (matchAndRewrite_if_op _ _ _ _ Hn). symmetry.
  apply (eval_if_op_scalar_like K A op ts); auto; rewrite Hlen;
    cbn; lia.
Qed.

(** *** The whole replacement of the n-ary pattern *)

Lemma count_single_element_full (ss : list (list Z)) :
  Forall (fun s => numel s = 1) ss ->
  count_single_element ss = Z.of_nat (List.length ss).
Proof.
  induction 1 as [|s ss Hs _ IH]; [reflexivity|].
  rewrite count_single_element_cons, IH, Hs. cbn [List.length]. 
  change (1 =? 1) with true. lia.
Qed.

Lemma max_rank_zero (ss : list (list Z)) :
  max_rank ss <= 0 -> Forall (fun s => s = []) ss.
Proof.
  intro H. pose proof (max_rank_bound ss) as Hb.
  eapply Forall_impl; [|exact Hb]. cbn beta. intros s Hs.
  destruct s; [reflexivity|]. cbn [List.length] in Hs. lia.
Qed.

(** Shapes minimized to rank 0 belong to operands of one element each. *)
Lemma rank_zero_single_elements (ts : list (Tensor E))
  (reds : list (list Z)) :
  Forall2 (fun t red => numel red = numel (dims t)) ts reds ->
  max_rank reds <= 0 ->
  count_single_element (map dims ts) = Z.of_nat (List.length ts).
Proof.
  intros Hn Hr. apply max_rank_zero in Hr.
  rewrite <- (length_map dims). apply count_single_element_full.
  rewrite Forall_map.
  induction Hn as [|t red ts reds Ht _ IH]; constructor.
  - inversion Hr; subst. symmetry. exact Ht.
  - apply IH. now inversion Hr.
Qed.

Lemma minimized_correctly_numel (ts : list (Tensor E))
  (reds : list (list Z)) :
  minimized_correctly (map dims ts) reds = true ->
  Forall2 (fun t red => numel red = numel (dims t)) ts reds.
Proof.
  unfold minimized_correctly. intro Hmin.
  apply andb_true_iff in Hmin as [Hn _].
  apply forallb2_Forall2, Forall2_map_dims in Hn.
  eapply Forall2_impl; [|exact Hn]. cbn beta. intros. now apply Z.eqb_eq.
Qed.

Lemma eval_if_op_cases ChloOpTy Adaptor_ op ts :
  let xs := getOperands op in
  let reds := minimum_broadcast_shapes (map dims ts) in
  isBroadcasting ChloOpTy = true ->
  has_values xs ts ->
  (2 <= List.length xs)%nat ->
  Z.of_nat (List.length xs) < 2 ^ 63 ->
  Forall (fun t => valid_shape (dims t)) ts ->
  Forall2 (fun x red => accepts (getType x) red = true) xs reds ->
  minimized_correctly (map dims ts) reds = true ->
  (forall s, Forall (fun t => dims t = s) ts ->
             ev (non_broadcast_op Adaptor_ op) = ev (opResult ChloOpTy op)) ->
  ev (if_op ChloOpTy Adaptor_ op)
  = if (Z.of_nat (List.length xs) - 1
        <=? count_single_element (map dims ts))
       || forallb (shape_eqb (hd [] (map dims ts))) (tl (map dims ts))
       || (max_rank reds <=? kMaxRankSpecialization xs)
    then ev (opResult ChloOpTy op)
    else Abort (rank_assertion_message xs).
Proof.
  intros xs reds HK H Hge Hlt Hv Hty Hmin Hadaptor.
  assert (Hne : xs <> []) by (destruct xs; [cbn in Hge; lia|discriminate]).
  pose proof (minimized_correctly_numel _ _ Hmin) as Hn. fold reds in Hn.
  assert (Hlen : List.length reds = List.length xs).
  { rewrite <- (Forall2_length Hn). symmetry. apply (Forall2_length H). }
  destruct (Z.of_nat (List.length xs) - 1
            <=? count_single_element (map dims ts)) eqn:Hc.
  - cbn [orb]. apply Z.leb_le in Hc.
    apply (eval_if_op_scalar_like ChloOpTy Adaptor_ op ts); auto.
    fold xs. lia.
  - apply Z.leb_gt in Hc. cbn [orb].
    rewrite (eval_if_op_not_scalar_like _ _ _ _ H ltac:(fold xs; lia) Hlt Hc).
    rewrite (eval_if_eq_shapes_op _ _ _ _ H Hge).
    destruct (forallb _ _) eqn:Hall.
    + cbn [orb]. apply (Hadaptor (hd [] (map dims ts))).
      destruct ts as [|t0 ts']; [constructor|].
      cbn [map hd tl] in *. constructor; [reflexivity|].
      apply Forall_forall. intros t Ht.
      rewrite forallb_forall in Hall. symmetry. apply shape_eqb_eq, Hall.
      now apply in_map.
    + cbn [orb].
      destruct (max_rank reds <=? kMaxRankSpecialization xs) eqn:Hr.
      * apply Z.leb_le in Hr.
        apply (eval_HandleBroadcastAndOp ChloOpTy op ts HK H Hne Hty Hmin).
        split; [|exact Hr].
        destruct (Z_lt_le_dec (max_rank reds) 1) as [Hz | Hz]; [|exact Hz].
        assert (Hz' : max_rank reds <= 0) by lia.
        pose proof (rank_zero_single_elements _ _ Hn Hz') as Hfull.
        rewrite Hfull, <- (Forall2_length H) in Hc. fold xs in Hc. lia.
      * apply Z.leb_gt in Hr.
        apply (eval_HandleBroadcastAndOp_abort _ _ _ _ H Hne Hlen Hr).
Qed.

(** X10: the replacement the n-ary pattern emits computes what the
    operation computes on its operands, except when neither fast path
    applies and the largest rank of the minimized shapes exceeds the
    bound of the ladder, where it aborts with the message of the
    assertion; it is never undefined where the operation is defined.  The
    minimized shapes are taken to satisfy the contract of
    [chlo.minimum_broadcast_shapes], and the operation the adaptor
    creates to compute, on operands of equal shapes, what the
    broadcasting operation computes. *)
Theorem nary_pattern_preserves_value :
  forall (ChloOpTy : OpTy) (Adaptor_ : Adaptor) (op : Operation)
         (rewritten : Value) (ts : list (Tensor E)),
    let xs := getOperands op in
    let reds := minimum_broadcast_shapes (map dims ts) in
    matchAndRewrite ChloOpTy Adaptor_ op = Some rewritten ->
    isBroadcasting ChloOpTy = true ->
    has_values xs ts ->
    (2 <= List.length xs)%nat ->
    Z.of_nat (List.length xs) < 2 ^ 63 ->
    Forall (fun t => valid_shape (dims t)) ts ->
    Forall2 (fun x red => accepts (getType x) red = true) xs reds ->
    minimized_correctly (map dims ts) reds = true ->
    (forall s, Forall (fun t => dims t = s) ts ->
               ev (non_broadcast_op Adaptor_ op)
               = ev (opResult ChloOpTy op)) ->
    ev rewritten
    = if (Z.of_nat (List.length xs) - 1
          <=? count_single_element (map dims ts))
         || forallb (shape_eqb (hd [] (map dims ts))) (tl (map dims ts))
         || (max_rank reds <=? kMaxRankSpecialization xs)
      then ev (opResult ChloOpTy op)
      else Abort (rank_assertion_message xs).
Proof.
  intros K A op v ts xs reds Hm HK H Hge Hlt Hv Hty Hmin Hadaptor.
  rewrite (matchAndRewrite_if_op _ _ _ _ Hm).
  now apply eval_if_op_cases.
Qed.

(** *** The ladder on its own *)

(** X11: [createBroadcastToKnownRank] extends a shape to the targeted rank
    by leading extents of 1, which keeps its number of elements; on a
    shape of a rank above the targeted one the cast to the extent tensor
    of known rank has no defined result. *)
Theorem createBroadcastToKnownRank_pads_to_rank :
  forall (shape : Value) (s : list Z) (targeted_rank : Z),
    ev shape = Ok (VExtents s) ->
    0 <= targeted_rank ->
    (Z.of_nat (List.length s) <= targeted_rank ->
     ev (createBroadcastToKnownRank shape targeted_rank)
     = Ok (VExtents (pad_shape targeted_rank s))
     /\ Z.of_nat (List.length (pad_shape targeted_rank s)) = targeted_rank
     /\ numel (pad_shape targeted_rank s) = numel s)
    /\ (targeted_rank < Z.of_nat (List.length s) ->
        ev (createBroadcastToKnownRank shape targeted_rank) = Undefined).
Proof.
  intros rv s r Hrv Hr. split; intro Hlen.
  - split; [now apply eval_createBroadcastToKnownRank|].
    split; [rewrite length_pad_shape; lia|apply numel_pad_shape].
  - unfold createBroadcastToKnownRank.
    cbn [eval mapM]. rewrite Hrv. cbn [as_extents bind].
    unfold checked at 1. cbn [conforms].
    rewrite accepts_known_rank by (rewrite repeat_length; lia).
    cbn [as_extents bind]. unfold broadcast_shapes.
    cbn [fold_left broadcast_step].
    rewrite broadcast2_nil_l. cbn [broadcast_step].
    rewrite broadcast2_ones_r. cbn [bind].
    unfold checked. cbn [conforms accepts shape_conforms].
    unfold dim_conforms, kDynamicSize. rewrite length_pad_shape.
    replace (r =? -1) with false by (symmetry; apply Z.eqb_neq; lia).
    replace (r =? _) with false by (symmetry; apply Z.eqb_neq; lia).
    reflexivity.
Qed.

(** X12: the ladder starts at rank 1: when every minimized shape has rank
    0 no test of the ladder holds and the run ends in the assertion,
    whose message speaks of a rank greater than the bound.  With
    minimized shapes that keep the number of elements this happens only
    when every operand has one element, which the scalar-like test of the
    pattern catches before the ladder is reached. *)
Theorem ladder_aborts_on_rank_zero :
  forall (ChloOpTy : OpTy) (op : Operation) (ts : list (Tensor E)),
    let xs := getOperands op in
    let reds := minimum_broadcast_shapes (map dims ts) in
    has_values xs ts ->
    xs <> [] ->
    List.length reds = List.length xs ->
    max_rank reds = 0 ->
    ev (HandleBroadcastAndOp ChloOpTy op xs)
    = Abort (rank_assertion_message xs)
    /\ (Forall2 (fun t red => numel red = numel (dims t)) ts reds ->
        count_single_element (map dims ts) = Z.of_nat (List.length xs)).
Proof.
  intros K op ts xs reds H Hne Hlen Hr. split.
  - unfold HandleBroadcastAndOp. rewrite eval_DynamicReshapeOp.
    rewrite (eval_rank_ladder _ _ _ _ (eval_greater_rank _ _ H Hne Hlen)).
    fold reds. rewrite Hr. reflexivity.
  - intro Hn. rewrite (Forall2_length H).
    apply (rank_zero_single_elements _ _ Hn). lia.
Qed.

Lemma eval_specialized_operands_mistyped (r : Z) xs rsv ts reds :
  has_values xs ts ->
  Forall2 (fun v red => ev v = Ok (VExtents red)) rsv reds ->
  Forall2 (fun t red => numel red = numel (dims t)) ts reds ->
  Forall (fun red => Z.of_nat (List.length red) <= r) reds ->
  0 <= r ->
  forallb2 (fun x red => accepts (getType x) red) xs reds = false ->
  mapM (fun x => as_tensor (ev x))
    (map (fun it : Value * Value =>
            let (operand, shape) := it in
            DynamicReshapeOp
              (RankedTensorType (repeat kDynamicSize (Z.to_nat r))
                                (getElementType (getType operand)))
              operand (createBroadcastToKnownRank shape r))
         (combine
            (map (fun it : Value * Value =>
                    let (operand, reduced_shape) := it in
                    DynamicReshapeOp (getType operand) operand
                                     reduced_shape)
                 (combine xs rsv)) rsv))
  = Undefined.
Proof.
  intros H. revert rsv reds.
  induction H as [|x t xs ts Hx _ IH]; intros rsv reds Hrs Hn Hlen Hr Hbad.
  - inversion Hn; subst. discriminate Hbad.
  - inversion Hn as [|? red ? reds' Hn1 Hn']; subst.
    inversion Hrs as [|rv ? rsv' ? Hrv Hrs']; subst.
    inversion Hlen as [|? ? Hlen1 Hlen']; subst.
    cbn [forallb2] in Hbad. cbn [combine map mapM].
    rewrite !eval_DynamicReshapeOp, Hx, Hrv.
    cbn [as_tensor as_extents bind].
    unfold dynamic_reshape at 1. rewrite Hn1, Z.eqb_refl. cbn [bind].
    unfold checked at 1. cbn [conforms dims].
    destruct (accepts (getType x) red) eqn:Hty1; [|reflexivity].
    cbn [andb] in Hbad. cbn [as_tensor bind].
    rewrite (eval_createBroadcastToKnownRank _ _ _ Hrv Hr Hlen1).
    cbn [as_extents bind]. unfold dynamic_reshape. cbn [dims elems].
    rewrite numel_pad_shape, Z.eqb_refl. cbn [bind].
    unfold checked. cbn [conforms dims].
    rewrite accepts_dynamic by (rewrite length_pad_shape; lia).
    cbn [as_tensor bind].
    now rewrite (IH _ _ Hrs' Hn' Hlen' Hr Hbad).
Qed.

(** X13: the ladder reshapes every operand to its minimized shape under
    the operand's own type.  When an operand is ranked and its type does
    not accept its minimized shape (the minimized shape has another
    rank), the branch the ladder selects has no defined value: the
    replacement is only meaningful for operands whose types accept the
    minimized shapes, as unranked types do. *)
Theorem ladder_undefined_on_mistyped_operand :
  forall (ChloOpTy : OpTy) (op : Operation) (ts : list (Tensor E)),
    let xs := getOperands op in
    let reds := minimum_broadcast_shapes (map dims ts) in
    has_values xs ts ->
    xs <> [] ->
    Forall2 (fun t red => numel red = numel (dims t)) ts reds ->
    1 <= max_rank reds <= kMaxRankSpecialization xs ->
    forallb2 (fun x red => accepts (getType x) red) xs reds = false ->
    ev (HandleBroadcastAndOp ChloOpTy op xs) = Undefined
    /\ (Forall (fun x => isa_UnrankedTensorType (getType x) = true) xs ->
        False).
Proof.
  intros K op ts xs reds H Hne Hn Hr Hbad.
  assert (Hlen : List.length reds = List.length xs).
  { rewrite <- (Forall2_length Hn). symmetry. apply (Forall2_length H). }
  split.
  - pose proof (eval_reduced_shapes _ _ H Hlen) as Hrs. fold reds in Hrs.
    pose proof (max_rank_bound reds) as Hb.
    pose proof (eval_specialized_operands_mistyped
                  (max_rank reds) _ _ _ _ H Hrs Hn Hb ltac:(lia) Hbad)
      as Hops.
    unfold HandleBroadcastAndOp. rewrite eval_DynamicReshapeOp.
    rewrite (eval_rank_ladder _ _ _ _ (eval_greater_rank _ _ H Hne Hlen)).
    fold reds.
    replace (1 <=? max_rank reds) with true
      by (symmetry; apply Z.leb_le; lia).
    replace (max_rank reds <=? kMaxRankSpecialization xs) with true
      by (symmetry; apply Z.leb_le; lia).
    cbn [andb].
    unfold rank_specialization, createRankSpecializedBroadcastAndOp,
      HandleBroadcastAndOp_reshaped_operands.
    rewrite eval_block_YieldOp, eval_CastOp, eval_HloOp.
    fold reds. rewrite Hops. reflexivity.
  - intro Hall. clear - Hall Hbad Hlen.
    assert (Hgood : forall xs reds,
               List.length reds = List.length xs ->
               Forall (fun x => isa_UnrankedTensorType (getType x) = true)
                      xs ->
               forallb2 (fun x red => accepts (getType x) red) xs reds
               = true).
    { clear. induction xs as [|x xs IH]; intros [|red reds] Hlen Hall;
        try discriminate Hlen; [reflexivity|].
      inversion Hall as [|? ? Hx Hrest]; subst. cbn [forallb2].
      rewrite IH by (auto; cbn in Hlen; lia).
      destruct (getType x); try discriminate Hx. reflexivity. }
    rewrite (Hgood _ _ Hlen Hall) in Hbad. discriminate.
Qed.

(** *** The branch for equal shapes *)

Lemma broadcast_rev_same (l : list Z) : broadcast_rev l l = Some l.
Proof.
  induction l as [|x l IH]; [reflexivity|].
  cbn [broadcast_rev]. rewrite IH. unfold broadcast_dim.
  rewrite Z.eqb_refl. now destruct (x =? 1) eqn:Hx.
Qed.

Lemma broadcast2_same (s : list Z) : broadcast2 s s = Some s.
Proof.
  unfold broadcast2. rewrite broadcast_rev_same. cbn [option_map].
  now rewrite rev_involutive.
Qed.

Lemma broadcast_shapes_equal (ss : list (list Z)) (s : list Z) :
  ss <> [] -> Forall (eq s) ss -> broadcast_shapes ss = Some s.
Proof.
  intros Hne Hall. destruct ss as [|s0 ss]; [congruence|].
  inversion Hall as [|? ? <- Hrest]. subst.
  unfold broadcast_shapes. cbn [fold_left broadcast_step].
  rewrite broadcast2_nil_l. clear Hne Hall.
  induction Hrest as [|s' ss <- _ IH]; [reflexivity|].
  cbn [fold_left broadcast_step]. rewrite broadcast2_same. exact IH.
Qed.

(** On operands of one shape a broadcasting operation and an elementwise
    operation that compute the same on the elements have the same
    result. *)
Lemma apply_op_equal_shapes (ChloOpTy HloOpTy : OpTy)
  (attrs attrs' : list NamedAttribute) (ts : list (Tensor E)) (s : list Z) :
  isBroadcasting ChloOpTy = true ->
  isBroadcasting HloOpTy = false ->
  (forall es, apply_elem HloOpTy attrs' es = apply_elem ChloOpTy attrs es) ->
  ts <> [] -> valid_shape s -> Forall (fun t => dims t = s) ts ->
  apply_op E dflt apply_elem HloOpTy attrs' ts
  = apply_op E dflt apply_elem ChloOpTy attrs ts.
Proof.
  intros HK HH Helem Hne Hv Hall.
  assert (Hss : Forall (eq s) (map dims ts)).
  { rewrite Forall_map. eapply Forall_impl; [|exact Hall].
    cbn beta. intros. congruence. }
  assert (Hne' : map dims ts <> []) by (destruct ts; [congruence|discriminate]).
  unfold apply_op. rewrite HK, HH.
  unfold apply_elementwise, apply_broadcasting.
  rewrite (proj2 (shape_any_Ok _ s) (conj Hne' Hss)).
  rewrite (broadcast_shapes_equal _ _ Hne' Hss). cbn [bind].
  do 2 f_equal. unfold elementwise_elems, broadcasting_elems.
  apply map_ext_in. intros k Hk. apply in_seq in Hk.
  rewrite Helem. f_equal. unfold gather.
  apply map_ext_in. intros t Ht.
  rewrite Forall_forall in Hall. rewrite (Hall t Ht).
  pose proof (valid_shape_numel _ Hv).
  rewrite source_index_self by (auto; lia). now rewrite Nat2Z.id.
Qed.

(** X14: the branch for equal shapes preserves the value of the
    operation: on operands of one shape, the non-broadcasting operation
    the adaptor of the elementwise kinds creates on the original operands
    computes what the broadcasting operation computes, when the two kinds
    compute the same on the elements. *)
Theorem equal_shapes_branch_preserves_value :
  forall (ChloOpTy HloOpTy : OpTy) (op : Operation) (ts : list (Tensor E))
         (s : list Z),
    isBroadcasting ChloOpTy = true ->
    isBroadcasting HloOpTy = false ->
    (forall es, apply_elem HloOpTy [] es
                = apply_elem ChloOpTy (getAttrs op) es) ->
    has_values (getOperands op) ts ->
    (1 <= List.length (getOperands op))%nat ->
    valid_shape s ->
    Forall (fun t => dims t = s) ts ->
    ev (non_broadcast_op (HloNaryElementwiseAdaptor HloOpTy) op)
    = ev (opResult ChloOpTy op).
Proof.
  intros K HO op ts s HK HH Helem H Hge Hv Hall.
  pose proof (has_values_nonempty _ _ H Hge) as Hne.
  rewrite (eval_opResult _ _ _ H).
  unfold non_broadcast_op, transformed_operands, result_type.
  cbn [CreateOp HloNaryElementwiseAdaptor].
  rewrite eval_HloOp, (operands_tensors _ _ H). cbn [bind].
  now rewrite (apply_op_equal_shapes K HO (getAttrs op) [] ts s).
Qed.

End Correctness.

(* ===================================================================== *)
(** ** The theorems at concrete operations and tensors *)
(* ===================================================================== *)

(** Adding two tensors of shape [2,3] through the flattening pattern. *)
Lemma flatten_apply_restore_witness :
  isBroadcasting (Mhlo mhlo.AddOp) = false
  /\ ElementwiseOpConversion (Mhlo mhlo.AddOp) sample_binary_op
     = Some sample_flattened_add
  /\ sample_eval tensors_2x3 sample_flattened_add
     = sample_eval tensors_2x3 (opResult (Mhlo mhlo.AddOp) sample_binary_op)
  /\ sample_eval tensors_2x3 sample_flattened_add
     = Ok (VTensor (mkTensor [2; 3] [11; 22; 33; 44; 55; 66])).
Proof.
  assert (H1 : isBroadcasting (Mhlo mhlo.AddOp) = false) by reflexivity.
  assert (H2 : operands_are Z 0 sample_apply_elem
                 minimum_broadcast_shapes_model (sample_env tensors_2x3)
                 (getOperands sample_binary_op) tensors_2x3)
    by (repeat constructor).
  assert (H3 : ElementwiseOpConversion (Mhlo mhlo.AddOp) sample_binary_op
               = Some sample_flattened_add) by reflexivity.
  split; [exact H1|]. split; [exact H3|]. split; [|reflexivity].
  exact (proj1 (flatten_apply_restore_preserves_values
                  Z 0 sample_apply_elem minimum_broadcast_shapes_model
                  (sample_env tensors_2x3) (Mhlo mhlo.AddOp)
                  sample_binary_op tensors_2x3 sample_flattened_add
                  H1 H2 H3)).
Defined.

(** Two operands whose minimized shapes have rank 6: the binary ladder
    stops at rank 5. *)
Lemma rank_above_bound_witness :
  kMaxRankSpecialization (getOperands sample_binary_op)
  < max_rank (minimum_broadcast_shapes_model (map dims tensors_rank_6))
  /\ sample_eval tensors_rank_6
       (HandleBroadcastAndOp broadcast_add sample_binary_op
                             (getOperands sample_binary_op))
     = Abort "Input for dynamic binary op lowering was of a rank greater than 5"
  /\ sample_eval tensors_rank_6 sample_nary_add
     = Abort "Input for dynamic binary op lowering was of a rank greater than 5".
Proof.
  assert (H1 : operands_are Z 0 sample_apply_elem
                 minimum_broadcast_shapes_model (sample_env tensors_rank_6)
                 (getOperands sample_binary_op) tensors_rank_6)
    by (repeat constructor).
  assert (H2 : getOperands sample_binary_op <> []) by discriminate.
  assert (H3 : List.length (minimum_broadcast_shapes_model
                              (map dims tensors_rank_6))
               = List.length (getOperands sample_binary_op)) by reflexivity.
  assert (H4 : kMaxRankSpecialization (getOperands sample_binary_op)
               < max_rank (minimum_broadcast_shapes_model
                             (map dims tensors_rank_6))) by reflexivity.
  pose proof (rank_above_bound_aborts
                Z 0 sample_apply_elem minimum_broadcast_shapes_model
                (sample_env tensors_rank_6) broadcast_add add_adaptor
                sample_binary_op tensors_rank_6 H1 H2 H3 H4)
    as [_ [_ [Hladder Hprogram]]].
  split; [exact H4|]. split; [exact Hladder|].
  apply Hprogram.
  - cbn. lia.
  - cbn. lia.
  - cbn. lia.
  - intros [s Hs]. inversion Hs as [|? ? Ha Hrest]; subst.
    inversion Hrest as [|? ? Hb _]; subst. discriminate Hb.
Defined.

(** [select] on operands of shapes [2], [3,2] and [3,2]: the minimized
    shapes have rank 2 and the branch for rank 2 is taken. *)
Lemma rank_ladder_dispatch_witness :
  1 <= max_rank (minimum_broadcast_shapes_model (map dims tensors_select))
    <= kMaxRankSpecialization (getOperands sample_select_op)
  /\ max_rank (minimum_broadcast_shapes_model (map dims tensors_select)) = 2
  /\ sample_eval tensors_select
       (HandleBroadcastAndOp_if_op (Chlo chlo.BroadcastSelectOp)
          sample_select_op (getOperands sample_select_op))
     = eval_block Z 0 sample_apply_elem minimum_broadcast_shapes_model
         (sample_env tensors_select)
         (rank_specialization (Chlo chlo.BroadcastSelectOp) sample_select_op
            (getOperands sample_select_op) 2)
  /\ sample_eval tensors_select
       (HandleBroadcastAndOp (Chlo chlo.BroadcastSelectOp) sample_select_op
          (getOperands sample_select_op))
     = sample_eval tensors_select
         (opResult (Chlo chlo.BroadcastSelectOp) sample_select_op)
  /\ sample_eval tensors_select sample_nary_select
     = Ok (VTensor (mkTensor [3; 2] [1; 20; 3; 40; 5; 60])).
Proof.
  assert (H1 : operands_are Z 0 sample_apply_elem
                 minimum_broadcast_shapes_model (sample_env tensors_select)
                 (getOperands sample_select_op) tensors_select)
    by (repeat constructor).
  assert (H2 : getOperands sample_select_op <> []) by discriminate.
  assert (H3 : List.length (minimum_broadcast_shapes_model
                              (map dims tensors_select))
               = List.length (getOperands sample_select_op)) by reflexivity.
  assert (H4 : 1 <= max_rank (minimum_broadcast_shapes_model
                                (map dims tensors_select))
               <= kMaxRankSpecialization (getOperands sample_select_op))
    by (split; vm_compute; discriminate).
  pose proof (rank_ladder_dispatch
                Z 0 sample_apply_elem minimum_broadcast_shapes_model
                (sample_env tensors_select) (Chlo chlo.BroadcastSelectOp)
                sample_select_op tensors_select H1 H2 H3 H4)
    as [_ [_ [_ [_ [_ [Hbranch Hvalue]]]]]].
  split; [exact H4|]. split; [reflexivity|]. split; [exact Hbranch|].
  split; [|reflexivity].
  apply Hvalue.
  - reflexivity.
  - repeat constructor.
  - reflexivity.
Defined.

(** Adding two tensors of shape [2,3] through the n-ary pattern. *)
Lemma equal_shapes_fast_path_witness :
  (2 <= List.length (getOperands sample_binary_op))%nat
  /\ Z.of_nat (List.length (getOperands sample_binary_op)) < 2 ^ 63
  /\ sample_eval tensors_2x3 sample_nary_add
     = sample_eval tensors_2x3
         (HloOp (Mhlo mhlo.AddOp) unranked_f32
                (getOperands sample_binary_op) [])
  /\ sample_eval tensors_2x3 sample_nary_add
     = Ok (VTensor (mkTensor [2; 3] [11; 22; 33; 44; 55; 66])).
Proof.
  assert (H1 : operands_are Z 0 sample_apply_elem
                 minimum_broadcast_shapes_model (sample_env tensors_2x3)
                 (getOperands sample_binary_op) tensors_2x3)
    by (repeat constructor).
  assert (H2 : (2 <= List.length (getOperands sample_binary_op))%nat)
    by (cbn; lia).
  assert (H3 : Z.of_nat (List.length (getOperands sample_binary_op)) < 2 ^ 63)
    by (cbn; lia).
  pose proof (equal_shapes_fast_path
                Z 0 sample_apply_elem minimum_broadcast_shapes_model
                (sample_env tensors_2x3) broadcast_add (Mhlo mhlo.AddOp)
                add_adaptor sample_binary_op tensors_2x3 H1 H2 H3)
    as [_ [_ [_ [_ [_ [_ [Htake _]]]]]]].
  split; [exact H2|]. split; [exact H3|]. split; [|reflexivity].
  apply (Htake [2; 3]).
  - cbn. lia.
  - repeat constructor.
Defined.

(** Adding tensors of shapes [3] and [1] through the n-ary pattern. *)
Lemma scalar_like_fast_path_witness :
  isBroadcasting broadcast_add = true
  /\ (1 <= List.length (getOperands sample_binary_op))%nat
  /\ Z.of_nat (List.length (getOperands sample_binary_op)) < 2 ^ 63
  /\ sample_eval tensors_3_and_1 sample_nary_add
     = fast_path_A_value Z 0 sample_apply_elem broadcast_add
         (getAttrs sample_binary_op) (getResultType sample_binary_op)
         tensors_3_and_1
  /\ sample_eval tensors_3_and_1 sample_nary_add
     = Ok (VTensor (mkTensor [3] [11; 12; 13])).
Proof.
  assert (H0 : isBroadcasting broadcast_add = true) by reflexivity.
  assert (H1 : operands_are Z 0 sample_apply_elem
                 minimum_broadcast_shapes_model (sample_env tensors_3_and_1)
                 (getOperands sample_binary_op) tensors_3_and_1)
    by (repeat constructor).
  assert (H2 : (1 <= List.length (getOperands sample_binary_op))%nat)
    by (cbn; lia).
  assert (H3 : Z.of_nat (List.length (getOperands sample_binary_op)) < 2 ^ 63)
    by (cbn; lia).
  pose proof (scalar_like_fast_path
                Z 0 sample_apply_elem minimum_broadcast_shapes_model
                (sample_env tensors_3_and_1) broadcast_add add_adaptor
                sample_binary_op tensors_3_and_1 H0 H1 H2 H3)
    as [_ [_ [_ [_ [Htake _]]]]].
  split; [exact H0|]. split; [exact H2|]. split; [exact H3|].
  split; [|reflexivity].
  apply Htake. cbn. lia.
Defined.

(** A scalar 7 added to a tensor of shape [2,2]. *)
Lemma scalar_broadcast_result_witness :
  isBroadcasting broadcast_add = true
  /\ ConvertUnrankedScalarDynamicBroadcastBinaryOp broadcast_add
       sample_scalar_op (BlockArgument 0 (RankedTensorType [] f32))
       (BlockArgument 1 unranked_f32)
     = Some sample_scalar_add
  /\ accepts (getResultType sample_scalar_op) [2; 2] = true
  /\ exists r,
      sample_eval tensors_scalar_and_2x2 sample_scalar_add = Ok (VTensor r)
      /\ dims r = [2; 2]
      /\ forall p, in_bounds [2; 2] p ->
           tensor_at 0 r p
           = sample_apply_elem broadcast_add (getAttrs sample_scalar_op)
               [7; tensor_at 0 (mkTensor [2; 2] [10; 20; 30; 40]) p].
Proof.
  assert (H0 : isBroadcasting broadcast_add = true) by reflexivity.
  assert (H1 : ConvertUnrankedScalarDynamicBroadcastBinaryOp broadcast_add
                 sample_scalar_op (BlockArgument 0 (RankedTensorType [] f32))
                 (BlockArgument 1 unranked_f32)
               = Some sample_scalar_add) by reflexivity.
  assert (H2 : accepts (getResultType sample_scalar_op) [2; 2] = true)
    by reflexivity.
  split; [exact H0|]. split; [exact H1|]. split; [exact H2|].
  apply (proj1 (scalar_broadcast_result
                  Z 0 sample_apply_elem minimum_broadcast_shapes_model
                  (sample_env tensors_scalar_and_2x2) broadcast_add
                  sample_scalar_op (BlockArgument 0 (RankedTensorType [] f32))
                  (BlockArgument 1 unranked_f32) sample_scalar_add
                  7 (mkTensor [2; 2] [10; 20; 30; 40]) H0 H1 H2)).
  - split; [exists f32|exists f32]; reflexivity.
  - reflexivity.
  - reflexivity.
Defined.

(** The shape the flattening pattern restores to, for a binary operation
    on tensors of shape [2,3]. *)
Lemma restore_shape_is_any_shape_witness :
  ElementwiseOpConversion (Mhlo mhlo.AddOp) sample_binary_op
  = Some sample_flattened_add
  /\ reshape_output_shape sample_flattened_add
     = Some (AnyOp [ShapeOfOp (BlockArgument 0 unranked_f32);
                    ShapeOfOp (BlockArgument 1 unranked_f32)])
  /\ sample_eval tensors_2x3
       (AnyOp [ShapeOfOp (BlockArgument 0 unranked_f32);
               ShapeOfOp (BlockArgument 1 unranked_f32)])
     = Ok (VExtents [2; 3]).
Proof.
  assert (H1 : operands_are Z 0 sample_apply_elem
                 minimum_broadcast_shapes_model (sample_env tensors_2x3)
                 (getOperands sample_binary_op) tensors_2x3)
    by (repeat constructor).
  assert (H2 : ElementwiseOpConversion (Mhlo mhlo.AddOp) sample_binary_op
               = Some sample_flattened_add) by reflexivity.
  pose proof (restore_shape_is_any_shape
                Z 0 sample_apply_elem minimum_broadcast_shapes_model
                (sample_env tensors_2x3) (Mhlo mhlo.AddOp) sample_binary_op
                tensors_2x3 sample_flattened_add H1 H2)
    as [Hshape [_ [_ Hcommon]]].
  split; [exact H2|]. split; [exact Hshape|].
  apply (Hcommon [2; 3]). repeat constructor.
Defined.

(** C8 as stated fails: for a binary operation the shape the result is
    restored to is [shape.any] of the operands' shapes and not their
    broadcast; on operands of shapes [3] and [1] it has no defined value,
    where the broadcast of the two shapes is [3]. *)
Lemma restore_shape_is_not_broadcast :
  ElementwiseOpConversion (Mhlo mhlo.AddOp) sample_binary_op
  = Some sample_flattened_add
  /\ reshape_output_shape sample_flattened_add
     <> Some (BroadcastOp (map ShapeOfOp (getOperands sample_binary_op)))
  /\ reshape_output_shape sample_flattened_add
     = Some (AnyOp (map ShapeOfOp (getOperands sample_binary_op)))
  /\ sample_eval tensors_3_and_1
       (AnyOp (map ShapeOfOp (getOperands sample_binary_op)))
     = Undefined
  /\ sample_eval tensors_3_and_1
       (BroadcastOp (map ShapeOfOp (getOperands sample_binary_op)))
     = Ok (VExtents [3]).
Proof.
  split; [reflexivity|]. split; [discriminate|]. repeat split.
Qed.

(* ===================================================================== *)
(** ** Examples for the target, the pattern set and the preservation of
       values *)
(* ===================================================================== *)

(** The n-ary pattern for [chlo.broadcast_add] matches an operation on two
    unranked operands, which the target declares illegal. *)
Lemma patterns_rewrite_illegal_operations_witness :
  In (broadcast_add, matchAndRewrite broadcast_add add_adaptor)
     (PopulateTransformUnrankedHloPatterns sample_binary_ops)
  /\ matchAndRewrite broadcast_add add_adaptor sample_binary_op <> None
  /\ some_operand_unranked sample_binary_op = true
  /\ isLegal runOnFunction_target broadcast_add sample_binary_op = Some false.
Proof.
  assert (H1 : In (broadcast_add, matchAndRewrite broadcast_add add_adaptor)
                  (PopulateTransformUnrankedHloPatterns sample_binary_ops)).
  { unfold PopulateTransformUnrankedHloPatterns. rewrite !in_app_iff.
    do 5 right. left. left. reflexivity. }
  assert (H2 : matchAndRewrite broadcast_add add_adaptor sample_binary_op
               <> None) by discriminate.
  split; [exact H1|]. split; [exact H2|].
  exact (patterns_rewrite_illegal_operations
           sample_binary_ops broadcast_add
           (matchAndRewrite broadcast_add add_adaptor) sample_binary_op
           H1 H2).
Defined.

(** An [mhlo.add] on two unranked operands is illegal and the flattening
    pattern rewrites it. *)
Lemma illegal_tensor_operation_is_rewritten_witness :
  In (Mhlo mhlo.AddOp)
     (map fst (PopulateTransformUnrankedHloPatterns sample_binary_ops))
  /\ forallb isa_TensorType (getOperandTypes sample_binary_op) = true
  /\ isLegal runOnFunction_target (Mhlo mhlo.AddOp) sample_binary_op
     = Some false
  /\ exists p rewritten,
      In (Mhlo mhlo.AddOp, p)
         (PopulateTransformUnrankedHloPatterns sample_binary_ops)
      /\ p sample_binary_op = Some rewritten.
Proof.
  assert (H1 : In (Mhlo mhlo.AddOp)
                  (map fst (PopulateTransformUnrankedHloPatterns
                              sample_binary_ops))).
  { unfold PopulateTransformUnrankedHloPatterns.
    rewrite !map_app, !in_app_iff. right. left. cbn. tauto. }
  assert (H2 : forallb isa_TensorType (getOperandTypes sample_binary_op)
               = true) by reflexivity.
  assert (H3 : isLegal runOnFunction_target (Mhlo mhlo.AddOp)
                 sample_binary_op = Some false) by reflexivity.
  split; [exact H1|]. split; [exact H2|]. split; [exact H3|].
  exact (illegal_tensor_operation_is_rewritten
           sample_binary_ops (Mhlo mhlo.AddOp) sample_binary_op H1 H2 H3).
Defined.

(** Shapes [3] and [1] through the n-ary pattern. *)
Lemma scalar_like_fast_path_preserves_value_witness :
  sample_eval tensors_3_and_1 sample_nary_add
  = sample_eval tensors_3_and_1 (opResult broadcast_add sample_binary_op)
  /\ sample_eval tensors_3_and_1 sample_nary_add
     = Ok (VTensor (mkTensor [3] [11; 12; 13])).
Proof.
  assert (H0 : matchAndRewrite broadcast_add add_adaptor sample_binary_op
               = Some sample_nary_add) by reflexivity.
  assert (H1 : isBroadcasting broadcast_add = true) by reflexivity.
  assert (H2 : operands_are Z 0 sample_apply_elem
                 minimum_broadcast_shapes_model (sample_env tensors_3_and_1)
                 (getOperands sample_binary_op) tensors_3_and_1)
    by (repeat constructor).
  assert (H3 : (1 <= List.length (getOperands sample_binary_op))%nat)
    by (cbn; lia).
  assert (H4 : Z.of_nat (List.length (getOperands sample_binary_op)) < 2 ^ 63)
    by (cbn; lia).
  assert (H5 : Forall (fun t : Tensor Z => valid_shape (dims t))
                      tensors_3_and_1)
    by (repeat constructor; cbn; lia).
  assert (H6 : Z.of_nat (List.length (getOperands sample_binary_op)) - 1
               <= count_single_element (map dims tensors_3_and_1))
    by (vm_compute; discriminate).
  split; [|reflexivity].
  exact (scalar_like_fast_path_preserves_value
           Z 0 sample_apply_elem minimum_broadcast_shapes_model
           (sample_env tensors_3_and_1) broadcast_add add_adaptor
           sample_binary_op sample_nary_add tensors_3_and_1
           H0 H1 H2 H3 H4 H5 H6).
Defined.

(** A scalar 7 added to a tensor of shape [2,2] through the scalar
    pattern. *)
Lemma scalar_pattern_preserves_value_witness :
  sample_eval tensors_scalar_and_2x2 sample_scalar_add
  = sample_eval tensors_scalar_and_2x2 (opResult broadcast_add sample_scalar_op)
  /\ sample_eval tensors_scalar_and_2x2 sample_scalar_add
     = Ok (VTensor (mkTensor [2; 2] [17; 27; 37; 47])).
Proof.
  assert (H0 : isBroadcasting broadcast_add = true) by reflexivity.
  assert (H1 : ScalarBroadcast_matchAndRewrite broadcast_add sample_scalar_op
               = Some sample_scalar_add) by reflexivity.
  assert (H2 : List.length (getOperands sample_scalar_op) = 2%nat)
    by reflexivity.
  assert (H3 : operands_are Z 0 sample_apply_elem
                 minimum_broadcast_shapes_model
                 (sample_env tensors_scalar_and_2x2)
                 (getOperands sample_scalar_op) tensors_scalar_and_2x2)
    by (repeat constructor).
  assert (H4 : Forall2 (fun x (t : Tensor Z) =>
                          accepts (getType x) (dims t) = true)
                       (getOperands sample_scalar_op) tensors_scalar_and_2x2)
    by (repeat constructor).
  assert (H5 : Forall (fun t : Tensor Z => valid_shape (dims t))
                      tensors_scalar_and_2x2)
    by (repeat constructor; cbn; lia).
  split; [|reflexivity].
  exact (scalar_pattern_preserves_value
           Z 0 sample_apply_elem minimum_broadcast_shapes_model
           (sample_env tensors_scalar_and_2x2) broadcast_add
           sample_scalar_op sample_scalar_add tensors_scalar_and_2x2
           H0 H1 H2 H3 H4 H5).
Defined.

(** The same operation through the scalar pattern and through the n-ary
    pattern. *)
Lemma scalar_and_nary_patterns_agree_witness :
  matchAndRewrite broadcast_add add_adaptor sample_scalar_op
  = Some (if_op broadcast_add add_adaptor sample_scalar_op)
  /\ sample_eval tensors_scalar_and_2x2 sample_scalar_add
     = sample_eval tensors_scalar_and_2x2
         (if_op broadcast_add add_adaptor sample_scalar_op).
Proof.
  assert (H0 : isBroadcasting broadcast_add = true) by reflexivity.
  assert (H1 : ScalarBroadcast_matchAndRewrite broadcast_add sample_scalar_op
               = Some sample_scalar_add) by reflexivity.
  assert (H1' : matchAndRewrite broadcast_add add_adaptor sample_scalar_op
                = Some (if_op broadcast_add add_adaptor sample_scalar_op))
    by reflexivity.
  assert (H2 : List.length (getOperands sample_scalar_op) = 2%nat)
    by reflexivity.
  assert (H3 : operands_are Z 0 sample_apply_elem
                 minimum_broadcast_shapes_model
                 (sample_env tensors_scalar_and_2x2)
                 (getOperands sample_scalar_op) tensors_scalar_and_2x2)
    by (repeat constructor).
  assert (H4 : Forall2 (fun x (t : Tensor Z) =>
                          accepts (getType x) (dims t) = true)
                       (getOperands sample_scalar_op) tensors_scalar_and_2x2)
    by (repeat constructor).
  assert (H5 : Forall (fun t : Tensor Z => valid_shape (dims t))
                      tensors_scalar_and_2x2)
    by (repeat constructor; cbn; lia).
  split; [exact H1'|].
  exact (scalar_and_nary_patterns_agree
           Z 0 sample_apply_elem minimum_broadcast_shapes_model
           (sample_env tensors_scalar_and_2x2) broadcast_add add_adaptor
           sample_scalar_op sample_scalar_add
           (if_op broadcast_add add_adaptor sample_scalar_op)
           tensors_scalar_and_2x2 H0 H1 H1' H2 H3 H4 H5).
Defined.

(** A select on shapes [2], [3,2] and [3,2], which reaches the ladder. *)
Lemma nary_pattern_preserves_value_witness :
  minimized_correctly (map dims tensors_select)
    (minimum_broadcast_shapes_model (map dims tensors_select)) = true
  /\ sample_eval tensors_select sample_nary_select
     = sample_eval tensors_select
         (opResult (Chlo chlo.BroadcastSelectOp) sample_select_op)
  /\ sample_eval tensors_select sample_nary_select
     = Ok (VTensor (mkTensor [3; 2] [1; 20; 3; 40; 5; 60])).
Proof.
  assert (H0 : matchAndRewrite (Chlo chlo.BroadcastSelectOp) select_adaptor
                 sample_select_op = Some sample_nary_select) by reflexivity.
  assert (H1 : isBroadcasting (Chlo chlo.BroadcastSelectOp) = true)
    by reflexivity.
  assert (H2 : operands_are Z 0 sample_apply_elem
                 minimum_broadcast_shapes_model (sample_env tensors_select)
                 (getOperands sample_select_op) tensors_select)
    by (repeat constructor).
  assert (H3 : (2 <= List.length (getOperands sample_select_op))%nat)
    by (cbn; lia).
  assert (H4 : Z.of_nat (List.length (getOperands sample_select_op)) < 2 ^ 63)
    by (cbn; lia).
  assert (H5 : Forall (fun t : Tensor Z => valid_shape (dims t))
                      tensors_select)
    by (repeat constructor; cbn; lia).
  assert (H6 : Forall2 (fun x red => accepts (getType x) red = true)
                       (getOperands sample_select_op)
                       (minimum_broadcast_shapes_model
                          (map dims tensors_select)))
    by (repeat constructor).
  assert (H7 : minimized_correctly (map dims tensors_select)
                 (minimum_broadcast_shapes_model (map dims tensors_select))
               = true) by reflexivity.
  assert (H8 : forall s,
             Forall (fun t : Tensor Z => dims t = s) tensors_select ->
             sample_eval tensors_select
               (non_broadcast_op select_adaptor sample_select_op)
             = sample_eval tensors_select
                 (opResult (Chlo chlo.BroadcastSelectOp) sample_select_op)).
  { intros s Hs. exfalso.
    inversion Hs as [|? ? Ha Hs']. inversion Hs' as [|? ? Hb _].
    cbn in Ha, Hb. congruence. }
  split; [exact H7|]. split; [|reflexivity].
  exact (nary_pattern_preserves_value
           Z 0 sample_apply_elem minimum_broadcast_shapes_model
           (sample_env tensors_select) (Chlo chlo.BroadcastSelectOp)
           select_adaptor sample_select_op sample_nary_select tensors_select
           H0 H1 H2 H3 H4 H5 H6 H7 H8).
Defined.

(** The shape [2,3] extended to rank 3. *)
Lemma createBroadcastToKnownRank_pads_to_rank_witness :
  sample_eval tensors_2x3 (ShapeOfOp (BlockArgument 0 unranked_f32))
  = Ok (VExtents [2; 3])
  /\ sample_eval tensors_2x3
       (createBroadcastToKnownRank (ShapeOfOp (BlockArgument 0 unranked_f32))
                                   3)
     = Ok (VExtents [1; 2; 3]).
Proof.
  assert (H1 : sample_eval tensors_2x3
                 (ShapeOfOp (BlockArgument 0 unranked_f32))
               = Ok (VExtents [2; 3])) by reflexivity.
  assert (H2 : 0 <= 3) by lia.
  assert (H3 : Z.of_nat (List.length [2; 3]) <= 3) by (cbn; lia).
  split; [exact H1|].
  exact (proj1 (proj1 (createBroadcastToKnownRank_pads_to_rank
                         Z 0 sample_apply_elem minimum_broadcast_shapes_model
                         (sample_env tensors_2x3)
                         (ShapeOfOp (BlockArgument 0 unranked_f32))
                         [2; 3] 3 H1 H2) H3)).
Defined.

(** Two operands of one element each: the ladder on its own aborts, the
    program of the pattern takes the scalar-like branch. *)
Lemma ladder_aborts_on_rank_zero_witness :
  max_rank (minimum_broadcast_shapes_model
              (map dims tensors_single_elements)) = 0
  /\ sample_eval tensors_single_elements
       (HandleBroadcastAndOp broadcast_add sample_binary_op
                             (getOperands sample_binary_op))
     = Abort "Input for dynamic binary op lowering was of a rank greater than 5"
  /\ sample_eval tensors_single_elements sample_nary_add
     = Ok (VTensor (mkTensor [1; 1] [12])).
Proof.
  assert (H1 : operands_are Z 0 sample_apply_elem
                 minimum_broadcast_shapes_model
                 (sample_env tensors_single_elements)
                 (getOperands sample_binary_op) tensors_single_elements)
    by (repeat constructor).
  assert (H2 : getOperands sample_binary_op <> []) by discriminate.
  assert (H3 : List.length (minimum_broadcast_shapes_model
                              (map dims tensors_single_elements))
               = List.length (getOperands sample_binary_op)) by reflexivity.
  assert (H4 : max_rank (minimum_broadcast_shapes_model
                           (map dims tensors_single_elements)) = 0)
    by reflexivity.
  split; [exact H4|]. split; [|reflexivity].
  exact (proj1 (ladder_aborts_on_rank_zero
                  Z 0 sample_apply_elem minimum_broadcast_shapes_model
                  (sample_env tensors_single_elements) broadcast_add
                  sample_binary_op tensors_single_elements H1 H2 H3 H4)).
Defined.

(** A ranked operand of three dynamic extents whose minimized shape has
    rank 2: the operation on the operands has a value, its replacement
    has none. *)
Lemma ladder_undefined_on_mistyped_operand_witness :
  minimum_broadcast_shapes_model (map dims tensors_1x2x3) = [[2; 3]; [1; 3]]
  /\ sample_eval tensors_1x2x3
       (HandleBroadcastAndOp broadcast_add sample_ranked_op
                             (getOperands sample_ranked_op))
     = Undefined
  /\ sample_eval tensors_1x2x3 (opResult broadcast_add sample_ranked_op)
     = Ok (VTensor (mkTensor [1; 2; 3] [11; 22; 33; 14; 25; 36]))
  /\ sample_eval tensors_1x2x3
       (rewritten_or_null
          (matchAndRewrite broadcast_add add_adaptor sample_ranked_op))
     = Undefined.
Proof.
  assert (H1 : operands_are Z 0 sample_apply_elem
                 minimum_broadcast_shapes_model (sample_env tensors_1x2x3)
                 (getOperands sample_ranked_op) tensors_1x2x3)
    by (repeat constructor).
  assert (H2 : getOperands sample_ranked_op <> []) by discriminate.
  assert (H3 : Forall2 (fun (t : Tensor Z) red => numel red = numel (dims t))
                       tensors_1x2x3
                       (minimum_broadcast_shapes_model
                          (map dims tensors_1x2x3)))
    by (repeat constructor).
  assert (H4 : 1 <= max_rank (minimum_broadcast_shapes_model
                                (map dims tensors_1x2x3))
               <= kMaxRankSpecialization (getOperands sample_ranked_op))
    by (split; vm_compute; discriminate).
  assert (H5 : forallb2 (fun x red => accepts (getType x) red)
                        (getOperands sample_ranked_op)
                        (minimum_broadcast_shapes_model
                           (map dims tensors_1x2x3))
               = false) by reflexivity.
  split; [reflexivity|]. split; [|split; reflexivity].
  exact (proj1 (ladder_undefined_on_mistyped_operand
                  Z 0 sample_apply_elem minimum_broadcast_shapes_model
                  (sample_env tensors_1x2x3) broadcast_add sample_ranked_op
                  tensors_1x2x3 H1 H2 H3 H4 H5)).
Defined.

(** Two tensors of shape [2,3] through the adaptor's operation. *)
Lemma equal_shapes_branch_preserves_value_witness :
  sample_eval tensors_2x3
    (non_broadcast_op (HloNaryElementwiseAdaptor (Mhlo mhlo.AddOp))
                      sample_binary_op)
  = sample_eval tensors_2x3 (opResult broadcast_add sample_binary_op)
  /\ sample_eval tensors_2x3 (opResult broadcast_add sample_binary_op)
     = Ok (VTensor (mkTensor [2; 3] [11; 22; 33; 44; 55; 66])).
Proof.
  assert (H0 : isBroadcasting broadcast_add = true) by reflexivity.
  assert (H1 : isBroadcasting (Mhlo mhlo.AddOp) = false) by reflexivity.
  assert (H2 : forall es,
             sample_apply_elem (Mhlo mhlo.AddOp) [] es
             = sample_apply_elem broadcast_add (getAttrs sample_binary_op) es)
    by (intro es; reflexivity).
  assert (H3 : operands_are Z 0 sample_apply_elem
                 minimum_broadcast_shapes_model (sample_env tensors_2x3)
                 (getOperands sample_binary_op) tensors_2x3)
    by (repeat constructor).
  assert (H4 : (1 <= List.length (getOperands sample_binary_op))%nat)
    by (cbn; lia).
  assert (H5 : valid_shape [2; 3]) by (repeat constructor; lia).
  assert (H6 : Forall (fun t : Tensor Z => dims t = [2; 3]) tensors_2x3)
    by (repeat constructor).
  split; [|reflexivity].
  exact (equal_shapes_branch_preserves_value
           Z 0 sample_apply_elem minimum_broadcast_shapes_model
           (sample_env tensors_2x3) broadcast_add (Mhlo mhlo.AddOp)
           sample_binary_op tensors_2x3 [2; 3] H0 H1 H2 H3 H4 H5 H6).
Defined.

(** The operation with a scalar left operand is matched by both
    patterns; the n-ary pattern alone matches two unranked operands. *)
Lemma scalar_match_implies_nary_match_witness :
  ScalarBroadcast_matchAndRewrite broadcast_add sample_scalar_op <> None
  /\ matchAndRewrite broadcast_add add_adaptor sample_scalar_op <> None
  /\ ScalarBroadcast_matchAndRewrite broadcast_add sample_binary_op = None
  /\ matchAndRewrite broadcast_add add_adaptor sample_binary_op <> None.
Proof.
  assert (H1 : List.length (getOperands sample_scalar_op) = 2%nat)
    by reflexivity.
  assert (H2 : ScalarBroadcast_matchAndRewrite broadcast_add sample_scalar_op
               <> None) by discriminate.
  split; [exact H2|]. split; [|split; [reflexivity|discriminate]].
  exact (scalar_match_implies_nary_match
           broadcast_add add_adaptor sample_scalar_op H1 H2).
Defined.

(* ===================================================================== *)
(** ** The ladder on an operand of ranked type *)
(* ===================================================================== *)

(** C4: the guards of the ladder are tested in ascending order of the
    rank and exactly one of them holds, but the result of the branch need
    not be the value of the operation.  For an addition of an operand of
    type [tensor<?x?x?xf32>] and an unranked operand, on tensors of shapes
    [1,2,3] and [1,1,3], the pattern matches, no operand has one element
    and the shapes differ, so that the ladder is reached; the minimized
    shapes are [2,3] and [1,3], the test for rank 2 is the only one that
    holds; the first operand is reshaped to [2,3] under its own type, of
    rank 3, so that the ladder and the whole replacement have no defined
    value, where the operation on the operands is the tensor of shape
    [1,2,3]. *)
Lemma rank_ladder_result_on_ranked_operand :
  let xs := getOperands sample_ranked_op in
  let ladder := HandleBroadcastAndOp_if_op broadcast_add sample_ranked_op xs in
  matchAndRewrite broadcast_add add_adaptor sample_ranked_op
  = Some (if_op broadcast_add add_adaptor sample_ranked_op)
  /\ map getType xs
     = [RankedTensorType [kDynamicSize; kDynamicSize; kDynamicSize] f32;
        UnrankedTensorType f32]
  /\ count_single_element (map dims tensors_1x2x3) = 0
  /\ minimum_broadcast_shapes_model (map dims tensors_1x2x3)
     = [[2; 3]; [1; 3]]
  /\ minimized_correctly (map dims tensors_1x2x3) [[2; 3]; [1; 3]] = true
  /\ sample_eval tensors_1x2x3 (greater_rank xs) = Ok (VIndex 2)
  /\ Forall2 (fun gb i =>
                sample_eval tensors_1x2x3 (fst gb) = Ok (VBool (2 =? i)))
             (rank_ladder ladder) [1; 2; 3; 4; 5]
  /\ sample_eval tensors_1x2x3
       (DynamicReshapeOp (getType (nth 0 xs NullValue)) (nth 0 xs NullValue)
          (nth 0 (reduced_shapes xs) NullValue))
     = Undefined
  /\ sample_eval tensors_1x2x3 ladder = Undefined
  /\ sample_eval tensors_1x2x3
       (HandleBroadcastAndOp broadcast_add sample_ranked_op xs)
     = Undefined
  /\ sample_eval tensors_1x2x3
       (if_op broadcast_add add_adaptor sample_ranked_op)
     = Undefined
  /\ sample_eval tensors_1x2x3 (opResult broadcast_add sample_ranked_op)
     = Ok (VTensor (mkTensor [1; 2; 3] [11; 22; 33; 14; 25; 36])).
Proof.
  cbv zeta.
  repeat (split; [reflexivity|]).
  split; [|repeat (split; [reflexivity|]); reflexivity].
  rewrite rank_ladder_if_op.
  repeat (constructor; [reflexivity|]). constructor.
Qed.
